(** * Idleview: the photo cache and refresh orchestrator of [src/main.js]

    A shallow embedding of the cache helpers, the refresh, prefetch and
    scheduler functions and the start-up sequence of [src/main.js], with the
    properties the design document states about them.

    Conventions of the embedding.
    - JavaScript values are the trees of [JSValue]; numbers are integers
      ([Z]): timestamps, minutes and milliseconds are integral in this
      program, fractions, infinities and rounding of doubles are not modelled.
    - What the browser provides and the repository does not define
      ([JSON.parse], [JSON.stringify], number and string coercion of
      objects) is the interface [JSHost]; every theorem holds for every host.
    - Module-level [let] variables, [localStorage], the part of the DOM the
      display writes and the wall clock are the fields of [World].
    - An [async function] is a [Prog]: synchronous code between two [await]s
      is one atomic step on the [World], an [await] of an external capability
      is a suspension point ([Await]).  [run] executes one program to its end
      against an environment; [pool_step] interleaves several programs. *)

From Stdlib Require Import ZArith String Ascii DecimalString List Bool Sorted Lia.
From stdpp Require Import base option strings gmap.
Import ListNotations.
Local Open Scope string_scope.
Local Open Scope list_scope.
Local Open Scope Z_scope.

(** ** JavaScript values *)

#[local] Unset Elimination Schemes.
Inductive JSValue : Type :=
| JUndefined
| JNull
| JNaN
| JBool (b : bool)
| JNum (n : Z)
| JStr (s : string)
| JArr (items : list JSValue)
| JObj (fields : list (string * JSValue)).
#[local] Set Elimination Schemes.

(** A completion of synchronous code: a value, or a thrown exception. *)
Inductive Completion (A : Type) : Type :=
| Normal (a : A)
| Abrupt (e : JSValue).
Arguments Normal {A} a.
Arguments Abrupt {A} e.

(** What the browser provides. [JSON_parse] is [Abrupt] where [JSON.parse]
    throws its SyntaxError.  [ToNumber_host] and [toString_host] are the
    coercions of the values whose conversion depends on the engine
    (strings to numbers, arrays and objects). *)
Class JSHost : Type := {
  JSON_parse : string -> Completion JSValue;
  JSON_stringify : JSValue -> string;
  ToNumber_host : JSValue -> JSValue;
  toString_host : JSValue -> JSValue
}.

(** [if (v)], [!v], [v ? a : b], [v || d] *)
Definition truthy (v : JSValue) : bool :=
  match v with
  | JUndefined | JNull | JNaN => false
  | JBool b => b
  | JNum n => negb (n =? 0)
  | JStr s => negb (String.eqb s "")
  | JArr _ | JObj _ => true
  end.

Definition nullish (v : JSValue) : bool :=
  match v with
  | JUndefined | JNull => true
  | _ => false
  end.

Fixpoint lookup_field (name : string) (fields : list (string * JSValue)) : JSValue :=
  match fields with
  | [] => JUndefined
  | (k, v) :: rest => if String.eqb k name then v else lookup_field name rest
  end.

(** [v.name] for a value that is neither [null] nor [undefined]: the
    property of an object, [undefined] on anything else (none of the names
    this program reads is a built-in property of a primitive or an array). *)
Definition get_field (v : JSValue) (name : string) : JSValue :=
  match v with
  | JObj fields => lookup_field name fields
  | _ => JUndefined
  end.

Definition TypeError (name : string) : JSValue :=
  JObj [("name", JStr "TypeError");
        ("message", JStr (String.append "Cannot read properties of null or undefined (reading '"
                                   (String.append name "')")))].

(** [v.name]: throws a TypeError on [null] and [undefined]. *)
Definition member (v : JSValue) (name : string) : Completion JSValue :=
  if nullish v then Abrupt (TypeError name) else Normal (get_field v name).

(** [v?.name] *)
Definition opt_member (v : JSValue) (name : string) : JSValue :=
  if nullish v then JUndefined else get_field v name.

(** [a || b] and [a ?? b] *)
Definition js_or (a b : JSValue) : JSValue := if truthy a then a else b.
Definition js_coalesce (a b : JSValue) : JSValue := if nullish a then b else a.

Section Host.
Context `{JSHost}.

Definition ToNumber (v : JSValue) : JSValue :=
  match v with
  | JUndefined => JNaN
  | JNull => JNum 0
  | JNaN => JNaN
  | JBool b => JNum (if b then 1 else 0)
  | JNum n => JNum n
  | JStr _ | JArr _ | JObj _ => ToNumber_host v
  end.

(** [a - b], [a * b] and the comparisons of two numbers; [NaN] compares
    false with everything. *)
Definition js_sub (a b : JSValue) : JSValue :=
  match ToNumber a, ToNumber b with
  | JNum x, JNum y => JNum (x - y)
  | _, _ => JNaN
  end.

Definition js_mul (a b : JSValue) : JSValue :=
  match ToNumber a, ToNumber b with
  | JNum x, JNum y => JNum (x * y)
  | _, _ => JNaN
  end.

Definition js_ge (a b : JSValue) : bool :=
  match ToNumber a, ToNumber b with
  | JNum x, JNum y => x >=? y
  | _, _ => false
  end.

Definition js_lt (a b : JSValue) : bool :=
  match ToNumber a, ToNumber b with
  | JNum x, JNum y => x <? y
  | _, _ => false
  end.

(** [error?.message || error?.toString() || 'Unknown error'] *)
Definition js_toString (v : JSValue) : JSValue :=
  match v with
  | JStr s => JStr s
  | JBool true => JStr "true"
  | JBool false => JStr "false"
  | JNaN => JStr "NaN"
  | _ => toString_host v
  end.

Definition error_text (error : JSValue) : JSValue :=
  js_or (js_or (opt_member error "message")
               (if nullish error then JUndefined else js_toString error))
        (JStr "Unknown error").

End Host.

(** ** External capabilities, the observable trace and the program state *)

(** The promises the program waits on or fires: Tauri commands ([invoke]),
    the image preload of [displayPhoto], the local HTTP notification, the
    back-off sleep of [retryWithBackoff] and the event subscription. *)
Inductive Call : Type :=
| is_cache_valid (cacheTimestamp : JSValue)
| build_photo_query (queryParams : JSValue)
| get_unsplash_photo (width height : Z) (query : JSValue)
| get_debug_info (args : JSValue)
| get_settings
| get_location
| get_weather (latitude longitude : JSValue)
| get_current_time
| get_precipitation_display (weather : JSValue)
| trigger_unsplash_download (downloadUrl : JSValue)
| post_photo_current (body : JSValue)
| image_preload (url : JSValue)
| sleep (ms : Z)
| event_listen (name : string).

(** How a promise settles. *)
Inductive Settled : Type :=
| Resolved (v : JSValue)
| Rejected (e : JSValue).

(** Functions whose entry the trace records. *)
Inductive Fn : Type :=
| FnFetchUnsplashPhoto (forceRefresh : bool)
| FnPrefetchNextPhoto
| FnCheckPhotoContext
| FnRefreshPhoto.

Inductive Event : Type :=
| EvConsole (text : string)                      (* console.log / warn / error *)
| EvRequest (c : Call)                           (* an external capability was called *)
| EvTimer (callback : string) (ms : Z)           (* setTimeout / setInterval registered *)
| EvEnter (f : Fn)                               (* a function was entered *)
| EvCommit (photo query : JSValue) (timestamp : Z)  (* cachePhoto wrote the entry *)
| EvPresent (photo : JSValue).                   (* displayPhoto applied the background *)

Record World : Type := mkWorld {
  localStorage : gmap string string;
  currentWeather : JSValue;
  currentPhotoUrl : JSValue;
  debugInterval : bool;          (* the variable holds a timer handle *)
  creditTimeout : bool;          (* the variable holds a timer handle *)
  prefetchedPhoto : JSValue;
  userSettings : JSValue;
  lastCacheValid : JSValue;
  lastPhotoFetchError : JSValue;
  userLocation : JSValue;        (* window.userLocation *)
  innerWidth : Z;                (* window.innerWidth *)
  innerHeight : Z;               (* window.innerHeight *)
  backgroundImage : JSValue;     (* the url in document.body.style.backgroundImage *)
  clock : Z;                     (* Date.now() *)
  trace : list Event             (* oldest event first *)
}.

Definition set_localStorage (x : gmap string string) (w : World) : World :=
  mkWorld x (currentWeather w) (currentPhotoUrl w) (debugInterval w) (creditTimeout w)
    (prefetchedPhoto w) (userSettings w) (lastCacheValid w) (lastPhotoFetchError w)
    (userLocation w) (innerWidth w) (innerHeight w) (backgroundImage w) (clock w) (trace w).
Definition set_currentWeather (x : JSValue) (w : World) : World :=
  mkWorld (localStorage w) x (currentPhotoUrl w) (debugInterval w) (creditTimeout w)
    (prefetchedPhoto w) (userSettings w) (lastCacheValid w) (lastPhotoFetchError w)
    (userLocation w) (innerWidth w) (innerHeight w) (backgroundImage w) (clock w) (trace w).
Definition set_currentPhotoUrl (x : JSValue) (w : World) : World :=
  mkWorld (localStorage w) (currentWeather w) x (debugInterval w) (creditTimeout w)
    (prefetchedPhoto w) (userSettings w) (lastCacheValid w) (lastPhotoFetchError w)
    (userLocation w) (innerWidth w) (innerHeight w) (backgroundImage w) (clock w) (trace w).
Definition set_debugInterval (x : bool) (w : World) : World :=
  mkWorld (localStorage w) (currentWeather w) (currentPhotoUrl w) x (creditTimeout w)
    (prefetchedPhoto w) (userSettings w) (lastCacheValid w) (lastPhotoFetchError w)
    (userLocation w) (innerWidth w) (innerHeight w) (backgroundImage w) (clock w) (trace w).
Definition set_creditTimeout (x : bool) (w : World) : World :=
  mkWorld (localStorage w) (currentWeather w) (currentPhotoUrl w) (debugInterval w) x
    (prefetchedPhoto w) (userSettings w) (lastCacheValid w) (lastPhotoFetchError w)
    (userLocation w) (innerWidth w) (innerHeight w) (backgroundImage w) (clock w) (trace w).
Definition set_prefetchedPhoto (x : JSValue) (w : World) : World :=
  mkWorld (localStorage w) (currentWeather w) (currentPhotoUrl w) (debugInterval w) (creditTimeout w)
    x (userSettings w) (lastCacheValid w) (lastPhotoFetchError w)
    (userLocation w) (innerWidth w) (innerHeight w) (backgroundImage w) (clock w) (trace w).
Definition set_userSettings (x : JSValue) (w : World) : World :=
  mkWorld (localStorage w) (currentWeather w) (currentPhotoUrl w) (debugInterval w) (creditTimeout w)
    (prefetchedPhoto w) x (lastCacheValid w) (lastPhotoFetchError w)
    (userLocation w) (innerWidth w) (innerHeight w) (backgroundImage w) (clock w) (trace w).
Definition set_lastCacheValid (x : JSValue) (w : World) : World :=
  mkWorld (localStorage w) (currentWeather w) (currentPhotoUrl w) (debugInterval w) (creditTimeout w)
    (prefetchedPhoto w) (userSettings w) x (lastPhotoFetchError w)
    (userLocation w) (innerWidth w) (innerHeight w) (backgroundImage w) (clock w) (trace w).
Definition set_lastPhotoFetchError (x : JSValue) (w : World) : World :=
  mkWorld (localStorage w) (currentWeather w) (currentPhotoUrl w) (debugInterval w) (creditTimeout w)
    (prefetchedPhoto w) (userSettings w) (lastCacheValid w) x
    (userLocation w) (innerWidth w) (innerHeight w) (backgroundImage w) (clock w) (trace w).
Definition set_userLocation (x : JSValue) (w : World) : World :=
  mkWorld (localStorage w) (currentWeather w) (currentPhotoUrl w) (debugInterval w) (creditTimeout w)
    (prefetchedPhoto w) (userSettings w) (lastCacheValid w) (lastPhotoFetchError w)
    x (innerWidth w) (innerHeight w) (backgroundImage w) (clock w) (trace w).
Definition set_backgroundImage (x : JSValue) (w : World) : World :=
  mkWorld (localStorage w) (currentWeather w) (currentPhotoUrl w) (debugInterval w) (creditTimeout w)
    (prefetchedPhoto w) (userSettings w) (lastCacheValid w) (lastPhotoFetchError w)
    (userLocation w) (innerWidth w) (innerHeight w) x (clock w) (trace w).
Definition set_clock (x : Z) (w : World) : World :=
  mkWorld (localStorage w) (currentWeather w) (currentPhotoUrl w) (debugInterval w) (creditTimeout w)
    (prefetchedPhoto w) (userSettings w) (lastCacheValid w) (lastPhotoFetchError w)
    (userLocation w) (innerWidth w) (innerHeight w) (backgroundImage w) x (trace w).
Definition set_trace (x : list Event) (w : World) : World :=
  mkWorld (localStorage w) (currentWeather w) (currentPhotoUrl w) (debugInterval w) (creditTimeout w)
    (prefetchedPhoto w) (userSettings w) (lastCacheValid w) (lastPhotoFetchError w)
    (userLocation w) (innerWidth w) (innerHeight w) (backgroundImage w) (clock w) x.

Definition emit (e : Event) (w : World) : World := set_trace (trace w ++ [e])%list w.
Definition console (text : string) (w : World) : World := emit (EvConsole text) w.
Definition request (c : Call) (w : World) : World := emit (EvRequest c) w.

(** Wall-clock time passes while the program is suspended. *)
Definition pass (dt : N) (w : World) : World := set_clock (clock w + Z.of_N dt) w.

(** The wall clock is set: what [Date.now()] reads jumps by [dz], back
    when [dz] is negative. *)
Definition adjust (dz : Z) (w : World) : World := set_clock (clock w + dz) w.

(** ** Asynchronous programs *)

Inductive Prog : Type :=
| Ret (v : JSValue)                          (* the function returns *)
| Throw (e : JSValue)                        (* an exception propagates *)
| Read (k : World -> Prog)                   (* read the state, no suspension *)
| Upd (f : World -> World) (k : Prog)        (* a synchronous state change *)
| Await (c : Call) (k : Settled -> Prog)     (* call, suspend until it settles *)
| Fork (child : Prog) (k : Prog).            (* an async call that is not awaited *)

Fixpoint bind (m : Prog) (f : JSValue -> Prog) : Prog :=
  match m with
  | Ret v => f v
  | Throw e => Throw e
  | Read k => Read (fun w => bind (k w) f)
  | Upd g k => Upd g (bind k f)
  | Await c k => Await c (fun s => bind (k s) f)
  | Fork child k => Fork child (bind k f)
  end.

(** [try { body } catch (error) { handler }] *)
Fixpoint try_catch (body : Prog) (handler : JSValue -> Prog) : Prog :=
  match body with
  | Ret v => Ret v
  | Throw e => handler e
  | Read k => Read (fun w => try_catch (k w) handler)
  | Upd g k => Upd g (try_catch k handler)
  | Await c k => Await c (fun s => try_catch (k s) handler)
  | Fork child k => Fork child (try_catch k handler)
  end.

Declare Scope prog_scope.
Delimit Scope prog_scope with prog.
Bind Scope prog_scope with Prog.
Notation "x <- m ;; k" := (bind m (fun x => k))
  (at level 100, m at next level, right associativity) : prog_scope.
Notation "m ;; k" := (bind m (fun _ => k))
  (at level 100, right associativity) : prog_scope.
Local Open Scope prog_scope.

Definition lift (c : Completion JSValue) : Prog :=
  match c with
  | Normal v => Ret v
  | Abrupt e => Throw e
  end.

(** [await invoke(...)]: the value on success, the rejection is thrown. *)
Definition await (c : Call) : Prog :=
  Await c (fun s => match s with Resolved v => Ret v | Rejected e => Throw e end).

(** *** Running programs *)

(** [advance p w] runs [p] up to its next suspension point: the result is the
    state, the programs forked on the way (each suspended or finished) and
    what is left of [p]: [Ret], [Throw] or an [Await] whose call was issued. *)
Fixpoint advance (p : Prog) (w : World) : World * list Prog * Prog :=
  match p with
  | Ret _ | Throw _ => (w, [], p)
  | Read k => advance (k w) w
  | Upd f k => advance k (f w)
  | Await c k => (request c w, [], Await c k)
  | Fork child k =>
      let '(w1, forked1, child') := advance child w in
      let '(w2, forked2, p') := advance k w1 in
      (w2, (forked1 ++ child' :: forked2)%list, p')
  end.

(** The environment of a run: how the awaited call settles and how long it
    takes, as a function of the state at the call. *)
Definition Env : Type := World -> Call -> Settled * N.

Record Result : Type := mkResult {
  final : World;
  outcome : Completion JSValue;
  forked : list Prog
}.

(** [run env p w] runs [p] to its end with no other task interleaved; a
    forked child runs to its first suspension point and is set aside. *)
Fixpoint run (env : Env) (p : Prog) (w : World) : Result :=
  match p with
  | Ret v => mkResult w (Normal v) []
  | Throw e => mkResult w (Abrupt e) []
  | Read k => run env (k w) w
  | Upd f k => run env k (f w)
  | Await c k =>
      let w1 := request c w in
      let '(s, dt) := env w1 c in
      run env (k s) (pass dt w1)
  | Fork child k =>
      let '(w1, forked1, child') := advance child w in
      let r := run env k w1 in
      mkResult (final r) (outcome r) (forked1 ++ child' :: forked r)%list
  end.

(** Several tasks in flight on the one control thread.  A step of the pool
    is a trigger starting a program, the promise of a suspended task
    settling, time passing, or the wall clock being set. *)
Record Pool : Type := mkPool {
  world : World;
  tasks : list Prog
}.

Inductive Sched : Type :=
| Start (p : Prog)
| Settle (i : nat) (s : Settled)
| Pass (dt : N)
| Adjust (dz : Z).

Definition pool_step (ev : Sched) (pl : Pool) : Pool :=
  match ev with
  | Start p =>
      let '(w1, forked1, p') := advance p (world pl) in
      mkPool w1 (tasks pl ++ p' :: forked1)%list
  | Settle i s =>
      match tasks pl !! i with
      | Some (Await c k) =>
          let '(w1, forked1, p') := advance (k s) (world pl) in
          mkPool w1 (<[i := p']> (tasks pl) ++ forked1)%list
      | _ => pl
      end
  | Pass dt => mkPool (pass dt (world pl)) (tasks pl)
  | Adjust dz => mkPool (adjust dz (world pl)) (tasks pl)
  end.

Definition pool_run (evs : list Sched) (pl : Pool) : Pool :=
  fold_left (fun pl ev => pool_step ev pl) evs pl.

(** ** The functions of [src/main.js] *)

Section Program.
Context `{JSHost}.

Definition cache_key : string := "unsplash_photo_cache".

(** [retryWithBackoff(fn, maxRetries = 5, baseDelayMs = 2000)]: [attempt]
    counts up from 0, [remaining] is [maxRetries - attempt]. *)
Fixpoint retry_from (fn : Prog) (baseDelayMs : Z) (maxRetries : nat)
    (remaining : nat) (lastError : JSValue) : Prog :=
  match remaining with
  | O => Throw lastError
  | S remaining' =>
      try_catch fn (fun error =>
        let attempt := Z.of_nat (maxRetries - remaining) in
        let delay := baseDelayMs * 2 ^ attempt in
        Upd (console "Attempt failed, retrying...")
          (await (sleep delay) ;;
           retry_from fn baseDelayMs maxRetries remaining' error))
  end.

Definition retryWithBackoff (fn : Prog) : Prog :=
  retry_from fn 2000 5 5 JUndefined.

(** [function getCachedPhoto()], lines 202-209.  [getCachedPhoto_try] is the
    body of its [try] block. *)
Definition getCachedPhoto_try (w : World) : Completion JSValue :=
  match localStorage w !! cache_key with
  | Some cachedData =>
      if truthy (JStr cachedData) then JSON_parse cachedData else Normal JNull
  | None => Normal JNull
  end.

Definition getCachedPhoto (w : World) : Completion JSValue :=
  match getCachedPhoto_try w with
  | Normal v => Normal v
  | Abrupt error => Normal JNull
  end.

(** [function cachePhoto(photo, query)], lines 211-215. *)
Definition cache_entry (photo query : JSValue) (timestamp : Z) : JSValue :=
  JObj [("photo", photo); ("query", query); ("timestamp", JNum timestamp)].

Definition cachePhoto (photo query : JSValue) (w : World) : World :=
  emit (EvCommit photo query (clock w))
    (set_localStorage
       (<[cache_key := JSON_stringify (cache_entry photo query (clock w))]> (localStorage w)) w).

(** [function getRefreshIntervalMs()], lines 217-220. *)
Definition getRefreshIntervalMs (w : World) : JSValue :=
  js_mul (js_mul (js_or (opt_member (opt_member (userSettings w) "photos") "refresh_interval")
                        (JNum 30))
                 (JNum 60))
         (JNum 1000).

(** [function buildPhotoQueryParams()] *)
Definition buildPhotoQueryParams (w : World) : JSValue :=
  if negb (truthy (currentWeather w)) then JNull
  else JObj [("cloudcover", get_field (currentWeather w) "cloudcover");
             ("rain", get_field (currentWeather w) "rain");
             ("snowfall", get_field (currentWeather w) "snowfall");
             ("sunriseIso", get_field (currentWeather w) "sunrise");
             ("sunsetIso", get_field (currentWeather w) "sunset");
             ("enableFestive",
              js_coalesce (opt_member (opt_member (userSettings w) "photos")
                                      "enable_festive_queries")
                          (JBool true))].

(** [async function fetchPhotoWithQuery(query)] *)
Definition fetchPhotoWithQuery (query : JSValue) : Prog :=
  Read (fun w => await (get_unsplash_photo (innerWidth w) (innerHeight w) query)).

(** [renderDebug] of [displayPhoto]: reads the cache, asks the backend for
    the diagnostic fields and writes the debug panel; every failure is
    caught.  The text of the panel is not modelled. *)
Definition renderDebug : Prog :=
  try_catch
    (Read (fun w =>
       cached <- lift (getCachedPhoto w) ;;
       debugInfo <- await (get_debug_info
         (JObj [("cacheTimestamp", opt_member cached "timestamp");
                ("query", opt_member cached "query");
                ("sunriseIso", opt_member (currentWeather w) "sunrise");
                ("sunsetIso", opt_member (currentWeather w) "sunset");
                ("temperature", opt_member (currentWeather w) "temperature");
                ("rain", opt_member (currentWeather w) "rain");
                ("snowfall", opt_member (currentWeather w) "snowfall");
                ("cloudcover", opt_member (currentWeather w) "cloudcover")])) ;;
       _ <- lift (member debugInfo "photo_age") ;;
       Ret JUndefined))
    (fun e => Upd (console "Failed to render debug:") (Ret JUndefined)).

(** [async function displayPhoto(photo, timestamp, query)], lines 245-346;
    [timestamp] and [query] are not used by the body.  Of the DOM the
    background image is modelled; the elements the script looks up are taken
    to exist. *)
Definition displayPhoto (photo : JSValue) : Prog :=
  url <- lift (member photo "url") ;;
  Upd (set_currentPhotoUrl url)
  (Await (image_preload url) (fun s =>
     match s with
     | Resolved _ => Ret JUndefined
     | Rejected err => Upd (console "Failed to load photo:") (Ret JUndefined)
     end) ;;
   Upd (fun w => emit (EvPresent photo) (set_backgroundImage url w))
  (Upd (fun w => emit (EvTimer "hideCredit" 10000) (set_creditTimeout true w))
  (Upd (fun w =>
          if truthy (get_field photo "download_location")
          then request (trigger_unsplash_download (get_field photo "download_location")) w
          else w)
  (Upd (request (post_photo_current
          (JObj [("url", url); ("author", get_field photo "author");
                 ("author_url", get_field photo "author_url")])))
  (Read (fun w =>
     if truthy (opt_member (opt_member (userSettings w) "display") "show_debug")
     then renderDebug ;;
          Upd (fun w => emit (EvTimer "renderDebug" 1000) (set_debugInterval true w))
              (Ret JUndefined)
     else Ret JUndefined)))))).

(** The part of [fetchUnsplashPhoto]'s [try] block after the cache check,
    lines 361-386. *)
Definition fetch_after_cache_check (forceRefresh : bool) : Prog :=
  Read (fun w =>
    if negb (truthy (currentWeather w)) then
      Upd (console "Waiting for weather data before fetching photo...") (Ret JUndefined)
    else if truthy (prefetchedPhoto w) && negb forceRefresh then
      Upd (console "Using prefetched photo")
      (Upd (cachePhoto (get_field (prefetchedPhoto w) "photo")
                       (get_field (prefetchedPhoto w) "query"))
      (displayPhoto (get_field (prefetchedPhoto w) "photo") ;;
       Upd (set_prefetchedPhoto JNull)
      (Upd (set_lastPhotoFetchError JNull)
      (Ret JUndefined))))
    else if negb (truthy (buildPhotoQueryParams w)) then Ret JUndefined
    else
      queryResult <- await (build_photo_query (buildPhotoQueryParams w)) ;;
      query <- lift (member queryResult "query") ;;
      Upd (console "Fetching Photo")
      (photo <- fetchPhotoWithQuery query ;;
       _ <- lift (member photo "author") ;;
       Upd (console "Photo Ready")
      (Upd (cachePhoto photo query)
      (displayPhoto photo ;;
       Upd (set_lastPhotoFetchError JNull)
      (Ret JUndefined)))))%prog.

(** The [catch] block of [fetchUnsplashPhoto], lines 388-393. *)
Definition fetch_catch (error : JSValue) : Prog :=
  Upd (set_lastPhotoFetchError (error_text error))
  (Upd (console "Failed to fetch Unsplash photo:")
  (Read (fun w =>
     cached <- lift (getCachedPhoto w) ;;
     if truthy cached then displayPhoto (get_field cached "photo")
     else Ret JUndefined))).

(** The [try] block of [fetchUnsplashPhoto], lines 350-387. *)
Definition fetch_try (forceRefresh : bool) : Prog :=
  Read (fun w =>
    cached <- lift (getCachedPhoto w) ;;
    if negb forceRefresh && truthy cached then
      valid <- await (is_cache_valid (get_field cached "timestamp")) ;;
      Upd (set_lastCacheValid valid)
        (if truthy valid then displayPhoto (get_field cached "photo")
         else fetch_after_cache_check forceRefresh)
    else fetch_after_cache_check forceRefresh).

(** [async function fetchUnsplashPhoto(forceRefresh = false)], lines 349-394. *)
Definition fetchUnsplashPhoto (forceRefresh : bool) : Prog :=
  Upd (emit (EvEnter (FnFetchUnsplashPhoto forceRefresh)))
  (try_catch (fetch_try forceRefresh) fetch_catch).

(** [async function prefetchNextPhoto()], lines 397-412. *)
Definition prefetchNextPhoto : Prog :=
  Upd (emit (EvEnter FnPrefetchNextPhoto))
  (Read (fun w =>
    if negb (truthy (currentWeather w)) then Ret JUndefined
    else
      try_catch
        (Upd (console "Prefetching next photo...")
        (Read (fun w =>
           if negb (truthy (buildPhotoQueryParams w)) then Ret JUndefined
           else
             queryResult <- await (build_photo_query (buildPhotoQueryParams w)) ;;
             query <- lift (member queryResult "query") ;;
             photo <- fetchPhotoWithQuery query ;;
             Upd (set_prefetchedPhoto (JObj [("photo", photo); ("query", query)]))
            (Upd (console "Photo prefetched successfully")
            (Ret JUndefined)))))
        (fun error => Upd (console "Failed to prefetch photo:") (Ret JUndefined)))).

(** The condition of the prefetch branch of [checkPhotoContext], lines 420-424. *)
Definition prefetch_due (cached : JSValue) (w : World) : bool :=
  let cacheAge := js_sub (JNum (clock w)) (get_field cached "timestamp") in
  let refreshInterval := getRefreshIntervalMs w in
  let prefetchTime := js_sub refreshInterval (JNum (60 * 1000)) in
  js_ge cacheAge prefetchTime && js_lt cacheAge refreshInterval
    && negb (truthy (prefetchedPhoto w)).

(** [async function checkPhotoContext()], lines 415-436. *)
Definition checkPhotoContext : Prog :=
  Upd (emit (EvEnter FnCheckPhotoContext))
  (Read (fun w =>
    cached <- lift (getCachedPhoto w) ;;
    if negb (truthy cached) then Ret JUndefined
    else
      try_catch
        (Read (fun w =>
           (if prefetch_due cached w then prefetchNextPhoto else Ret JUndefined) ;;
           isValid <- await (is_cache_valid (get_field cached "timestamp")) ;;
           if negb (truthy isValid) then
             Upd (console "Cache expired, refreshing...") (fetchUnsplashPhoto true)
           else Ret JUndefined))
        (fun error => Upd (console "Failed to check photo context:") (Ret JUndefined)))).

(** [function updateWeatherDisplay(weather)], lines 25-62: the texts it
    writes are not modelled; it fails on a missing [weather], fires the
    precipitation lookup and records the weather. *)
Definition updateWeatherDisplay (weather : JSValue) : Prog :=
  _ <- lift (member weather "temperature_unit") ;;
  Upd (request (get_precipitation_display weather))
  (Upd (set_currentWeather weather)
  (Ret JUndefined)).

(** [async function updateWeather(location)], lines 97-110. *)
Definition updateWeather (location : JSValue) : Prog :=
  try_catch
    (weather <- retryWithBackoff
        (latitude <- lift (member location "latitude") ;;
         longitude <- lift (member location "longitude") ;;
         await (get_weather latitude longitude)) ;;
     updateWeatherDisplay weather ;;
     fetchUnsplashPhoto false)
    (fun error =>
       Upd (console "Failed to fetch weather after retries:")
      (Upd (emit (EvTimer "updateWeather" 30000))
      (Ret JUndefined))).

(** [location.city || `${location.latitude.toFixed(2)}, ...`]: [toFixed]
    exists on numbers only. *)
Definition locationText (location : JSValue) : Completion JSValue :=
  if nullish location then Abrupt (TypeError "city")
  else if truthy (get_field location "city") then Normal (get_field location "city")
  else
    match get_field location "latitude", get_field location "longitude" with
    | (JNum _ | JNaN), (JNum _ | JNaN) => Normal (JStr "coordinates")
    | _, _ => Abrupt (TypeError "toFixed")
    end.

(** [async function fetchLocation()], lines 81-94. *)
Definition fetchLocation : Prog :=
  try_catch
    (location <- retryWithBackoff (await get_location) ;;
     _ <- lift (locationText location) ;;
     Upd (set_userLocation location)
     (updateWeather location))
    (fun error =>
       Upd (console "Failed to fetch location after retries:")
      (Upd (emit (EvTimer "fetchLocation" 30000))
      (Ret JUndefined))).

(** [async function updateTimeAndDate()], lines 113-135: a backend call and
    DOM writes inside one [try]; nothing escapes and no variable is set. *)
Definition updateTimeAndDate : Prog :=
  Await get_current_time (fun s =>
    match s with
    | Resolved timeData =>
        try_catch (lift (member timeData "time"))
                  (fun error => Upd (console "Failed to update time:") (Ret JUndefined)) ;;
        Ret JUndefined
    | Rejected error => Upd (console "Failed to update time:") (Ret JUndefined)
    end).

(** [function applyDisplaySettings()], lines 165-199: shows and hides
    elements; it throws when [userSettings.display] is missing. *)
Definition applyDisplaySettings (w : World) : Completion JSValue :=
  if negb (truthy (userSettings w)) then Normal JUndefined
  else
    match member (get_field (userSettings w) "display") "show_sunrise_sunset" with
    | Normal _ => Normal JUndefined
    | Abrupt e => Abrupt e
    end.

Definition default_settings : JSValue :=
  JObj [("units", JObj [("temperature_unit", JStr "celsius"); ("time_format", JStr "24h");
                        ("date_format", JStr "mdy"); ("wind_speed_unit", JStr "kmh")]);
        ("display", JObj [("show_humidity_wind", JBool true);
                          ("show_precipitation_cloudiness", JBool true);
                          ("show_sunrise_sunset", JBool true);
                          ("show_debug", JBool false)]);
        ("photos", JObj [("refresh_interval", JNum 30); ("photo_quality", JStr "80");
                         ("enable_festive_queries", JBool true)])].

(** [async function loadSettings()], lines 138-151. *)
Definition loadSettings : Prog :=
  try_catch
    (settings <- await get_settings ;;
     Upd (set_userSettings settings)
    (Upd (console "Settings loaded:")
    (Read (fun w => lift (applyDisplaySettings w)))))
    (fun error =>
       Upd (console "Failed to load settings:")
      (Upd (set_userSettings default_settings)
      (Ret JUndefined))).

(** [async function reloadSettings()], lines 154-162. *)
Definition reloadSettings : Prog :=
  Upd (console "Reloading settings...")
  (loadSettings ;;
   Read (fun w =>
     if truthy (userLocation w) then updateWeather (userLocation w) else Ret JUndefined) ;;
   updateTimeAndDate ;;
   Upd (console "Settings reloaded and UI updated!") (Ret JUndefined)).

(** [(async function init() { ... })()], lines 439-476. *)
Definition init : Prog :=
  loadSettings ;;
  Read (fun w =>
    cached <- lift (getCachedPhoto w) ;;
    if truthy cached then
      Upd (console "Displaying cached photo...") (displayPhoto (get_field cached "photo"))
    else Ret JUndefined) ;;
  Fork updateTimeAndDate
  (Upd (emit (EvTimer "updateTimeAndDate" 1000))
  (Upd (set_userLocation JNull)
  (fetchLocation ;;
   Upd (emit (EvTimer "updateWeather" (15 * 60 * 1000)))
  (Fork checkPhotoContext
  (Upd (emit (EvTimer "checkPhotoContext" (5 * 60 * 1000)))
  (await (event_listen "settings-updated") ;;
   Upd (emit (EvTimer "applyDisplaySettings" 100))
  (Ret JUndefined))))))).

(** The two parts of [init].  Lines 440-447: the settings are loaded and the
    cached photo is displayed.  Lines 449-475: the clock, the location with
    the weather, and the scheduler. *)
Definition init_cached : Prog :=
  loadSettings ;;
  Read (fun w =>
    cached <- lift (getCachedPhoto w) ;;
    if truthy cached then
      Upd (console "Displaying cached photo...") (displayPhoto (get_field cached "photo"))
    else Ret JUndefined).

Definition init_scheduler : Prog :=
  Fork updateTimeAndDate
  (Upd (emit (EvTimer "updateTimeAndDate" 1000))
  (Upd (set_userLocation JNull)
  (fetchLocation ;;
   Upd (emit (EvTimer "updateWeather" (15 * 60 * 1000)))
  (Fork checkPhotoContext
  (Upd (emit (EvTimer "checkPhotoContext" (5 * 60 * 1000)))
  (await (event_listen "settings-updated") ;;
   Upd (emit (EvTimer "applyDisplaySettings" 100))
  (Ret JUndefined))))))).

(** [window.refreshPhoto], lines 479-486, also the handler of the
    [refresh-photo] event. *)
Definition refreshPhoto : Prog :=
  Upd (emit (EvEnter FnRefreshPhoto))
  (Upd (console "Manually refreshing photo...")
  (Read (fun w =>
     if negb (truthy (currentWeather w)) && truthy (userLocation w)
     then updateWeather (userLocation w) else Ret JUndefined) ;;
   fetchUnsplashPhoto true ;;
   Upd (console "Photo refreshed!") (Ret JUndefined))).

End Program.

(** ** A host for the examples

    [JSON.stringify] and [JSON.parse] on the texts this program writes:
    objects, arrays, strings without escapes, integers, [true], [false] and
    [null], with no white space.  Anything else is a SyntaxError here. *)

Module Demo.

Definition quote : Ascii.ascii := Ascii.ascii_of_nat 34.
Definition backslash : Ascii.ascii := Ascii.ascii_of_nat 92.

Definition print_Z (n : Z) : string := DecimalString.NilZero.string_of_int (Z.to_int n).

Fixpoint stringify (v : JSValue) : string :=
  let commas :=
    fix commas (items : list string) : string :=
      match items with
      | [] => ""
      | [s] => s
      | s :: rest => String.append s (String.append "," (commas rest))
      end in
  let quoted (s : string) : string :=
    String quote (String.append s (String quote "")) in
  match v with
  | JUndefined | JNull | JNaN => "null"
  | JBool true => "true"
  | JBool false => "false"
  | JNum n => print_Z n
  | JStr s => quoted s
  | JArr items =>
      String.append "[" (String.append
        (commas ((fix each (l : list JSValue) : list string :=
                    match l with
                    | [] => []
                    | x :: l' => stringify x :: each l'
                    end) items)) "]")
  | JObj fields =>
      String.append "{" (String.append
        (commas ((fix each (l : list (string * JSValue)) : list string :=
                    match l with
                    | [] => []
                    | (k, JUndefined) :: l' => each l'
                    | (k, x) :: l' =>
                        String.append (quoted k) (String.append ":" (stringify x)) :: each l'
                    end) fields)) "}")
  end.

Definition is_digit (c : Ascii.ascii) : bool :=
  let n := Ascii.nat_of_ascii c in (48 <=? n)%nat && (n <=? 57)%nat.

Fixpoint take_digits (s : list Ascii.ascii) : list Ascii.ascii * list Ascii.ascii :=
  match s with
  | c :: rest =>
      if is_digit c then let '(ds, rest') := take_digits rest in (c :: ds, rest')
      else ([], s)
  | [] => ([], [])
  end.

Fixpoint take_string (s : list Ascii.ascii) : option (string * list Ascii.ascii) :=
  match s with
  | [] => None
  | c :: rest =>
      if Ascii.eqb c quote then Some ("", rest)
      else if Ascii.eqb c backslash then None
      else match take_string rest with
           | Some (str, rest') => Some (String c str, rest')
           | None => None
           end
  end.

Definition parse_number (s : list Ascii.ascii) : option (JSValue * list Ascii.ascii) :=
  let '(neg, s') := match s with
                    | "-"%char :: s' => (true, s')
                    | _ => (false, s)
                    end in
  match take_digits s' with
  | ([], _) => None
  | (ds, rest) =>
      match DecimalString.NilZero.uint_of_string (string_of_list_ascii ds) with
      | Some u => Some (JNum (if neg then - Z.of_uint u else Z.of_uint u), rest)
      | None => None
      end
  end.

Fixpoint parse_value (fuel : nat) (s : list Ascii.ascii)
    : option (JSValue * list Ascii.ascii) :=
  match fuel with
  | O => None
  | S fuel' =>
      match s with
      | "n"%char :: "u"%char :: "l"%char :: "l"%char :: rest => Some (JNull, rest)
      | "t"%char :: "r"%char :: "u"%char :: "e"%char :: rest => Some (JBool true, rest)
      | "f"%char :: "a"%char :: "l"%char :: "s"%char :: "e"%char :: rest =>
          Some (JBool false, rest)
      | "["%char :: "]"%char :: rest => Some (JArr [], rest)
      | "["%char :: rest =>
          match parse_items fuel' rest with
          | Some (items, rest') => Some (JArr items, rest')
          | None => None
          end
      | "{"%char :: "}"%char :: rest => Some (JObj [], rest)
      | "{"%char :: rest =>
          match parse_fields fuel' rest with
          | Some (fields, rest') => Some (JObj fields, rest')
          | None => None
          end
      | c :: rest =>
          if Ascii.eqb c quote then
            match take_string rest with
            | Some (str, rest') => Some (JStr str, rest')
            | None => None
            end
          else parse_number s
      | [] => None
      end
  end
with parse_items (fuel : nat) (s : list Ascii.ascii)
    : option (list JSValue * list Ascii.ascii) :=
  match fuel with
  | O => None
  | S fuel' =>
      match parse_value fuel' s with
      | Some (v, ","%char :: rest) =>
          match parse_items fuel' rest with
          | Some (vs, rest') => Some (v :: vs, rest')
          | None => None
          end
      | Some (v, "]"%char :: rest) => Some ([v], rest)
      | _ => None
      end
  end
with parse_fields (fuel : nat) (s : list Ascii.ascii)
    : option (list (string * JSValue) * list Ascii.ascii) :=
  match fuel with
  | O => None
  | S fuel' =>
      match s with
      | c :: s1 =>
          if Ascii.eqb c quote then
            match take_string s1 with
            | Some (key, ":"%char :: s2) =>
                match parse_value fuel' s2 with
                | Some (v, ","%char :: rest) =>
                    match parse_fields fuel' rest with
                    | Some (fs, rest') => Some ((key, v) :: fs, rest')
                    | None => None
                    end
                | Some (v, "}"%char :: rest) => Some ([(key, v)], rest)
                | _ => None
                end
            | _ => None
            end
          else None
      | [] => None
      end
  end.

Definition SyntaxError : JSValue :=
  JObj [("name", JStr "SyntaxError"); ("message", JStr "Unexpected token in JSON")].

Definition parse (text : string) : Completion JSValue :=
  match parse_value (S (String.length text)) (list_ascii_of_string text) with
  | Some (v, []) => Normal v
  | _ => Abrupt SyntaxError
  end.

Definition host : JSHost := {|
  JSON_parse := parse;
  JSON_stringify := stringify;
  ToNumber_host := fun _ => JNaN;
  toString_host := fun _ => JStr "[object Object]"
|}.

End Demo.

(** ** Example states and environments *)

Module Example.
Import Demo.
#[local] Existing Instance host.

Definition photoA : JSValue :=
  JObj [("url", JStr "https://images.example/a.jpg"); ("author", JStr "Ann");
        ("author_url", JStr "https://example/ann")].
Definition photoB : JSValue :=
  JObj [("url", JStr "https://images.example/b.jpg"); ("author", JStr "Bob");
        ("author_url", JStr "https://example/bob")].
Definition photoC : JSValue :=
  JObj [("url", JStr "https://images.example/c.jpg"); ("author", JStr "Cy");
        ("author_url", JStr "https://example/cy")].

Definition weather : JSValue :=
  JObj [("temperature", JNum 21); ("temperature_unit", JStr "celsius");
        ("cloudcover", JNum 10); ("rain", JNum 0); ("snowfall", JNum 0);
        ("sunrise", JStr "2024-05-01T06:00"); ("sunset", JStr "2024-05-01T20:00")].
Definition location : JSValue :=
  JObj [("city", JStr "Cluj"); ("latitude", JNum 46); ("longitude", JNum 23)].
Definition settings (minutes : Z) : JSValue :=
  JObj [("display", JObj [("show_sunrise_sunset", JBool true); ("show_debug", JBool false)]);
        ("photos", JObj [("refresh_interval", JNum minutes);
                         ("enable_festive_queries", JBool true)])].
Definition prefetched : JSValue := JObj [("photo", photoC); ("query", JStr "misty")].

(** [localStorage] holding the entry [photoA], committed at time 0. *)
Definition stored : gmap string string :=
  {[ cache_key := stringify (cache_entry photoA (JStr "calm") 0) ]}.

(** The page just loaded: nothing in the variables, an entry persisted. *)
Definition at_start (now : Z) : World :=
  mkWorld stored JNull JNull false false JNull JNull JNull JNull JUndefined
          1920 1080 JUndefined now [].

(** The page running: weather and settings loaded, [photoA] cached at time 0
    and displayed. *)
Definition running (now : Z) : World :=
  mkWorld stored weather (JStr "https://images.example/a.jpg") false true JNull (settings 30)
          (JBool true) JNull location 1920 1080 (JStr "https://images.example/a.jpg") now [].

(** The same with nothing persisted and nothing displayed. *)
Definition empty (now : Z) : World :=
  mkWorld ∅ weather JNull false false JNull (settings 30) JNull JNull location
          1920 1080 JUndefined now [].

(** An environment: the answer of the validity oracle and of the photo
    provider; everything else succeeds.  Every call takes one second. *)
Definition env_with (validity fetch : Settled) : Env := fun _ c =>
  (match c with
   | is_cache_valid _ => validity
   | build_photo_query _ => Resolved (JObj [("query", JStr "sunny")])
   | get_unsplash_photo _ _ _ => fetch
   | get_settings => Resolved (settings 30)
   | get_location => Resolved location
   | get_weather _ _ => Resolved weather
   | _ => Resolved JUndefined
   end, 1000%N).

Definition minute : Z := 60000.

(** Scenario D: the scheduler tick finds the entry expired and starts a
    forced refresh; the manual command starts another while the first is
    waiting; both fetches complete. *)
Definition overlapping_triggers : list Sched :=
  [Start checkPhotoContext; Pass 5; Settle 0 (Resolved (JBool false));
   Start refreshPhoto; Pass 5;
   Settle 0 (Resolved (JObj [("query", JStr "sunny")]));
   Settle 1 (Resolved (JObj [("query", JStr "windy")])); Pass 100;
   Settle 0 (Resolved photoB); Pass 3;
   Settle 1 (Resolved photoC)].

(** Scenario D with the wall clock set back a second between the two
    fetches completing. *)
Definition clock_set_back : list Sched :=
  [Start checkPhotoContext; Pass 5; Settle 0 (Resolved (JBool false));
   Start refreshPhoto; Pass 5;
   Settle 0 (Resolved (JObj [("query", JStr "sunny")]));
   Settle 1 (Resolved (JObj [("query", JStr "windy")])); Pass 100;
   Settle 0 (Resolved photoB); Adjust (-1000);
   Settle 1 (Resolved photoC)].

Definition expired : Settled := Resolved (JBool false).
Definition valid : Settled := Resolved (JBool true).
Definition oracle_down : Settled := Rejected (JStr "backend unavailable").
Definition provider_down : Settled := Rejected (JStr "rate limit exceeded").

End Example.

(** ** What a run leaves in the trace *)

Definition commit_of (e : Event) : option (JSValue * JSValue * Z) :=
  match e with
  | EvCommit photo query timestamp => Some (photo, query, timestamp)
  | _ => None
  end.

Definition fetch_of (e : Event) : option JSValue :=
  match e with
  | EvRequest (get_unsplash_photo _ _ query) => Some query
  | _ => None
  end.

Definition validity_check_of (e : Event) : option JSValue :=
  match e with
  | EvRequest (is_cache_valid cacheTimestamp) => Some cacheTimestamp
  | _ => None
  end.

Definition refresh_of (e : Event) : option bool :=
  match e with
  | EvEnter (FnFetchUnsplashPhoto forceRefresh) => Some forceRefresh
  | _ => None
  end.

Definition prefetch_of (e : Event) : option unit :=
  match e with
  | EvEnter FnPrefetchNextPhoto => Some tt
  | _ => None
  end.

Definition tick_of (e : Event) : option unit :=
  match e with
  | EvEnter FnCheckPhotoContext => Some tt
  | _ => None
  end.

Definition present_of (e : Event) : option JSValue :=
  match e with
  | EvPresent photo => Some photo
  | _ => None
  end.

(** The entries committed, the queries fetched, the timestamps submitted to
    the validity oracle, the photos presented, the refreshes entered (with
    their [forceRefresh]), the prefetches and the scheduler ticks entered, in
    the order of the trace. *)
Definition commits (tr : list Event) : list (JSValue * JSValue * Z) := omap commit_of tr.
Definition commit_times (tr : list Event) : list Z := snd <$> commits tr.
Definition fetches (tr : list Event) : list JSValue := omap fetch_of tr.
Definition validity_checks (tr : list Event) : list JSValue := omap validity_check_of tr.
Definition presents (tr : list Event) : list JSValue := omap present_of tr.
Definition refreshes (tr : list Event) : list bool := omap refresh_of tr.
Definition prefetches (tr : list Event) : list unit := omap prefetch_of tr.
Definition ticks (tr : list Event) : list unit := omap tick_of tr.

Arguments commits : simpl never.
Arguments commit_times : simpl never.
Arguments fetches : simpl never.
Arguments validity_checks : simpl never.
Arguments presents : simpl never.
Arguments refreshes : simpl never.
Arguments prefetches : simpl never.
Arguments ticks : simpl never.

(** ** Invariants of programs *)

(** [Keeps I p]: every synchronous state change of [p] and every call it
    issues preserves [I]. *)
Inductive Keeps (I : World -> Prop) : Prog -> Prop :=
| Keeps_Ret v : Keeps I (Ret v)
| Keeps_Throw e : Keeps I (Throw e)
| Keeps_Read k : (forall w, Keeps I (k w)) -> Keeps I (Read k)
| Keeps_Upd f k : (forall w, I w -> I (f w)) -> Keeps I k -> Keeps I (Upd f k)
| Keeps_Await c k :
    (forall w, I w -> I (request c w)) -> (forall s, Keeps I (k s)) -> Keeps I (Await c k)
| Keeps_Fork child k : Keeps I child -> Keeps I k -> Keeps I (Fork child k).

(** [Ends Q E p]: whenever [p] returns, the value satisfies [Q]; whenever it
    throws, the exception satisfies [E]. *)
Inductive Ends (Q E : JSValue -> Prop) : Prog -> Prop :=
| Ends_Ret v : Q v -> Ends Q E (Ret v)
| Ends_Throw e : E e -> Ends Q E (Throw e)
| Ends_Read k : (forall w, Ends Q E (k w)) -> Ends Q E (Read k)
| Ends_Upd f k : Ends Q E k -> Ends Q E (Upd f k)
| Ends_Await c k : (forall s, Ends Q E (k s)) -> Ends Q E (Await c k)
| Ends_Fork child k : Ends Q E k -> Ends Q E (Fork child k).

Definition any_value : JSValue -> Prop := fun _ => True.
Definition no_value : JSValue -> Prop := fun _ => False.
Definition is_undefined : JSValue -> Prop := fun v => v = JUndefined.

(** The programs a trigger of [src/main.js] starts: the start-up sequence,
    the timers, the event listeners and the console commands. *)
Inductive Trigger `{JSHost} : Prog -> Prop :=
| Trigger_init : Trigger init
| Trigger_tick : Trigger checkPhotoContext
| Trigger_refresh_event : Trigger refreshPhoto
| Trigger_settings_event : Trigger reloadSettings
| Trigger_weather_timer location : Trigger (updateWeather location)
| Trigger_location_retry : Trigger fetchLocation
| Trigger_render_debug : Trigger renderDebug
| Trigger_time : Trigger updateTimeAndDate.

Definition from_source `{JSHost} (ev : Sched) : Prop :=
  match ev with
  | Start p => Trigger p
  | _ => True
  end.

(** The wall clock is never set back. *)
Definition clock_forward (ev : Sched) : Prop :=
  match ev with
  | Adjust dz => 0 <= dz
  | _ => True
  end.

(** ** Invariants of the source and of the pool *)

(** [src/main.js] function by function: the invariants every function keeps. *)
Record SourceKeeps `{JSHost} (I : World -> Prop) : Prop := {
  keeps_renderDebug : Keeps I renderDebug;
  keeps_displayPhoto : forall photo, Keeps I (displayPhoto photo);
  keeps_fetch_after_cache_check : forall forceRefresh, Keeps I (fetch_after_cache_check forceRefresh);
  keeps_fetch_catch : forall error, Keeps I (fetch_catch error);
  keeps_fetchUnsplashPhoto : forall forceRefresh, Keeps I (fetchUnsplashPhoto forceRefresh);
  keeps_prefetchNextPhoto : Keeps I prefetchNextPhoto;
  keeps_checkPhotoContext : Keeps I checkPhotoContext;
  keeps_updateWeatherDisplay : forall weather, Keeps I (updateWeatherDisplay weather);
  keeps_updateWeather : forall location, Keeps I (updateWeather location);
  keeps_fetchLocation : Keeps I fetchLocation;
  keeps_updateTimeAndDate : Keeps I updateTimeAndDate;
  keeps_loadSettings : Keeps I loadSettings;
  keeps_reloadSettings : Keeps I reloadSettings;
  keeps_init : Keeps I init;
  keeps_refreshPhoto : Keeps I refreshPhoto
}.


(** ** What the claims speak of *)

(** What the environment answers to a kind of call, whatever the state. *)
Definition oracle_reply (env : Env) (s : Settled) : Prop :=
  forall w cacheTimestamp, (env w (is_cache_valid cacheTimestamp)).1 = s.
Definition query_reply (env : Env) (s : Settled) : Prop :=
  forall w queryParams, (env w (build_photo_query queryParams)).1 = s.
Definition fetch_reply (env : Env) (s : Settled) : Prop :=
  forall w width height query, (env w (get_unsplash_photo width height query)).1 = s.

(** No entry to reuse: nothing cached, or the oracle reports it invalid. *)
Definition no_reuse (env : Env) (cached : JSValue) : Prop :=
  truthy cached = false
  \/ exists answer, oracle_reply env (Resolved answer) /\ truthy answer = false.

(** No oracle call, no commit, no fetch and no presentation. *)
Definition quiet (tr : list Event) : Prop :=
  validity_checks tr = [] /\ commits tr = [] /\ fetches tr = [] /\ presents tr = [].

Section Vocabulary.
Context `{JSHost}.




(** Everything but the Prefetch Buffer, the clock and the log of console
    lines and requests: the Cache Store, the displayed surface and the other
    variables. *)
Definition outside_prefetch (w : World) :=
  (localStorage w, commits (trace w), backgroundImage w, currentPhotoUrl w,
   presents (trace w), currentWeather w, userSettings w, lastCacheValid w,
   lastPhotoFetchError w, userLocation w, debugInterval w, creditTimeout w,
   refreshes (trace w), validity_checks (trace w)).

(** The Cache Store, the displayed surface, the refreshes entered and the
    diagnostics of the refresh. *)
Definition cache_and_surface (w : World) :=
  (localStorage w, commits (trace w), backgroundImage w, currentPhotoUrl w,
   presents (trace w), refreshes (trace w), lastPhotoFetchError w, lastCacheValid w).

(** What [displayPhoto] leaves alone: the Cache Store, the Prefetch Buffer,
    the context, the diagnostics and the record of commits, fetches, oracle
    calls, refreshes and prefetches. *)
Definition outside_display (w : World) :=
  (localStorage w, commits (trace w), fetches (trace w), validity_checks (trace w),
   refreshes (trace w), prefetches (trace w), prefetchedPhoto w, currentWeather w,
   userSettings w, lastCacheValid w, lastPhotoFetchError w, userLocation w,
   innerWidth w, innerHeight w).

(** The Cache Store and the displayed surface. *)
Definition store_and_surface (w : World) :=
  (localStorage w, commits (trace w), presents (trace w), backgroundImage w).

(** Scenario D as a schedule: the scheduler tick starts, its oracle call
    settles with [answer] and the tick's forced refresh asks for a query;
    the manual refresh starts while that is in flight; the two queries and
    then the two fetches settle, time passing in between. *)
Definition overlap (answer queryResult1 queryResult2 photo1 photo2 : JSValue)
    (dt1 dt2 dt3 dt4 : N) : list Sched :=
  [Start checkPhotoContext; Pass dt1; Settle 0 (Resolved answer);
   Start refreshPhoto; Pass dt2;
   Settle 0 (Resolved queryResult1); Settle 1 (Resolved queryResult2); Pass dt3;
   Settle 0 (Resolved photo1); Pass dt4;
   Settle 1 (Resolved photo2)].

(** [Follows script p]: [p] is suspended, and resumed with the first reply
    of the script in a state that meets the guard it changes the state as
    the script says, forks nothing and is then ready for the rest. *)
Fixpoint Follows (script : list (Settled * (World -> Prop) * (World -> World))) (p : Prog)
    : Prop :=
  match script with
  | [] => exists c k, p = Await c k
  | (s, guard, f) :: rest =>
      exists c k, p = Await c k
        /\ forall w, guard w ->
             exists p', advance (k s) w = (f w, [], p') /\ Follows rest p'
  end.

(** The states a forced refresh leaves at its three suspension points: the
    query requested, the photo requested, the photo committed and its
    preload requested. *)
Definition refresh_started (w : World) : World :=
  request (build_photo_query
             (buildPhotoQueryParams (emit (EvEnter (FnFetchUnsplashPhoto true)) w)))
          (emit (EvEnter (FnFetchUnsplashPhoto true)) w).
Definition query_answered (queryResult : JSValue) (w : World) : World :=
  request (get_unsplash_photo (innerWidth w) (innerHeight w) (get_field queryResult "query"))
          (console "Fetching Photo" w).
Definition photo_fetched (photo query : JSValue) (w : World) : World :=
  request (image_preload (get_field photo "url"))
          (set_currentPhotoUrl (get_field photo "url")
             (cachePhoto photo query (console "Photo Ready" w))).

Definition weather_known (w : World) : Prop := truthy (currentWeather w) = true.
Definition always (w : World) : Prop := True.

Definition refresh_script (queryResult photo : JSValue)
    : list (Settled * (World -> Prop) * (World -> World)) :=
  [(Resolved queryResult, always, query_answered queryResult);
   (Resolved photo, always, photo_fetched photo (get_field queryResult "query"))].

End Vocabulary.

(** ** The claims the code does not meet, as the design document states them *)

(** The claim as the design document states it, for the forced refresh
    [fetchUnsplashPhoto(true)] that the scheduler tick and the manual command
    both call: it commits the pending photo and issues no fetch. *)
Definition forced_refresh_consumes_prefetch : Prop :=
  forall (host : JSHost) (env : Env) (w : World) (photo query : JSValue),
    prefetchedPhoto w = JObj [("photo", photo); ("query", query)] ->
    nullish photo = false ->
    truthy (currentWeather w) = true ->
    prefetchedPhoto (final (run env (fetchUnsplashPhoto true) w)) = JNull
    /\ fetches (trace (final (run env (fetchUnsplashPhoto true) w))) = fetches (trace w)
    /\ exists now,
         commits (trace (final (run env (fetchUnsplashPhoto true) w)))
         = commits (trace w) ++ [(photo, query, now)].

(** The claim as the design document states it: a tick on which the oracle
    raises behaves as on the answer [false] and starts a forced refresh. *)
Definition oracle_error_treated_as_invalid : Prop :=
  forall (host : JSHost) (env : Env) (w : World) (cached e : JSValue),
    getCachedPhoto w = Normal cached -> truthy cached = true ->
    oracle_reply env (Rejected e) ->
    refreshes (trace (final (run env checkPhotoContext w))) = refreshes (trace w) ++ [true].

(** The claim as the design document states it, on Scenario D: the second
    trigger is dropped and one commit occurs. *)
Definition overlapping_trigger_dropped : Prop :=
  forall (host : JSHost) (w : World)
         (cached answer queryResult1 queryResult2 photo1 photo2 : JSValue)
         (dt1 dt2 dt3 dt4 : N),
    getCachedPhoto w = Normal cached -> truthy cached = true ->
    prefetch_due cached w = false ->
    truthy (currentWeather w) = true ->
    truthy answer = false ->
    nullish queryResult1 = false -> nullish queryResult2 = false ->
    nullish photo1 = false -> nullish photo2 = false ->
    length (commits (trace (world
      (pool_run (overlap answer queryResult1 queryResult2 photo1 photo2 dt1 dt2 dt3 dt4)
                (mkPool w [])))))
    = S (length (commits (trace w))).

(** The claim as the design document states it: up to the first scheduler
    tick nothing is committed and nothing but the cached photo is
    presented. *)
Definition cached_entry_stays_until_first_tick : Prop :=
  forall (host : JSHost) (env : Env) (w : World) (cached : JSValue)
         (before after : list Event),
    getCachedPhoto w = Normal cached -> truthy cached = true ->
    nullish (get_field cached "photo") = false ->
    trace (final (run env init w)) = trace w ++ before ++ EvEnter FnCheckPhotoContext :: after ->
    ticks before = [] ->
    commits before = [] /\ Forall (fun photo => photo = get_field cached "photo") (presents before).

(** ** What the further properties speak of *)

Definition call_of (e : Event) : option Call :=
  match e with
  | EvRequest c => Some c
  | _ => None
  end.

Definition timer_of (e : Event) : option (string * Z) :=
  match e with
  | EvTimer callback ms => Some (callback, ms)
  | _ => None
  end.

(** The external calls issued and the timers registered, in the order of
    the trace. *)
Definition calls (tr : list Event) : list Call := omap call_of tr.
Definition timers (tr : list Event) : list (string * Z) := omap timer_of tr.

Arguments calls : simpl never.
Arguments timers : simpl never.

(** The module-level variables, [window.userLocation], the persisted store
    and the background: the state apart from the clock and the trace. *)
Definition variables (w : World) :=
  (localStorage w, currentWeather w, currentPhotoUrl w, debugInterval w, creditTimeout w,
   prefetchedPhoto w, userSettings w, lastCacheValid w, lastPhotoFetchError w,
   userLocation w, backgroundImage w).

(** The promise of [setTimeout] in [retryWithBackoff] resolves; it cannot
    reject. *)
Definition sleep_resolves (env : Env) : Prop :=
  forall w ms, exists v, (env w (sleep ms)).1 = Resolved v.

Definition location_reply (env : Env) (s : Settled) : Prop :=
  forall w, (env w get_location).1 = s.
Definition weather_reply (env : Env) (s : Settled) : Prop :=
  forall w latitude longitude, (env w (get_weather latitude longitude)).1 = s.

(** [fn] throws [e] whatever the state and issues the calls [cs] on the way. *)
Definition fails_with (env : Env) (fn : Prog) (e : JSValue) (cs : list Call) : Prop :=
  forall w, outcome (run env fn w) = Abrupt e
            /\ calls (trace (final (run env fn w))) = calls (trace w) ++ cs.

(** The calls of [attempts] failed attempts from attempt number [first]:
    the calls of [fn], then the back-off sleep, doubling each time. *)
Definition failed_attempts (cs : list Call) (baseDelayMs : Z) (first attempts : nat)
    : list Call :=
  concat (map (fun attempt => cs ++ [sleep (baseDelayMs * 2 ^ Z.of_nat attempt)])
              (seq first attempts)).

(** What a retry loop around a backend call leaves alone. *)
Definition quiet_retry (w0 w : World) : Prop :=
  variables w = variables w0 /\ timers (trace w) = timers (trace w0)
  /\ refreshes (trace w) = refreshes (trace w0).

(** ** Further example states and environments *)

Module Edge.
Import Demo.
#[local] Existing Instance host.

(** A persisted entry that parses but has no [photo]. *)
Definition entry_without_photo : JSValue :=
  JObj [("query", JStr "calm"); ("timestamp", JNum 0)].

Definition broken_store : gmap string string :=
  {[ cache_key := stringify entry_without_photo ]}.

(** The page running and the page just loaded, with that entry persisted. *)
Definition broken (now : Z) : World :=
  mkWorld broken_store Example.weather JNull false false JNull (Example.settings 30)
          JNull JNull Example.location 1920 1080 JUndefined now [].

Definition broken_at_start (now : Z) : World :=
  mkWorld broken_store JNull JNull false false JNull JNull JNull JNull JUndefined
          1920 1080 JUndefined now [].

(** The page before weather and location are known. *)
Definition waiting (now : Z) : World :=
  mkWorld Example.stored JNull JNull false false JNull (Example.settings 30) JNull JNull
          JNull 1920 1080 JUndefined now [].

(** The location lookup fails, the weather lookup fails; everything else
    answers as in [Example.env_with]. *)
Definition location_down : Env := fun w c =>
  match c with
  | get_location => (Rejected (JStr "offline"), 1000%N)
  | _ => Example.env_with Example.valid (Resolved Example.photoB) w c
  end.

Definition weather_down : Env := fun w c =>
  match c with
  | get_weather _ _ => (Rejected (JStr "offline"), 1000%N)
  | _ => Example.env_with Example.valid (Resolved Example.photoB) w c
  end.

End Edge.

(** ** Laws of [run], [Keeps] and [Ends] *)

Lemma result_eta r : mkResult (final r) (outcome r) (forked r) = r.
Proof. by destruct r. Qed.

Lemma run_bind env m f w :
  run env (bind m f) w =
    match outcome (run env m w) with
    | Normal v =>
        mkResult (final (run env (f v) (final (run env m w))))
                 (outcome (run env (f v) (final (run env m w))))
                 (forked (run env m w) ++ forked (run env (f v) (final (run env m w))))
    | Abrupt e => run env m w
    end.
Proof.
  revert w. induction m as [v|e|k IH|g k IH|c k IH|child _ k IH]; intros w; cbn.
  - by rewrite result_eta.
  - done.
  - apply IH.
  - apply IH.
  - destruct (env (request c w) c) as [s dt]. apply IH.
  - destruct (advance child w) as [[w1 forked1] child']. rewrite IH.
    destruct (outcome (run env k w1)) eqn:E; cbn; rewrite ?E; cbn; [|done].
    by rewrite <- app_assoc.
Qed.

Lemma run_try_catch env body handler w :
  run env (try_catch body handler) w =
    match outcome (run env body w) with
    | Normal v => run env body w
    | Abrupt e =>
        mkResult (final (run env (handler e) (final (run env body w))))
                 (outcome (run env (handler e) (final (run env body w))))
                 (forked (run env body w) ++ forked (run env (handler e) (final (run env body w))))
    end.
Proof.
  revert w. induction body as [v|e|k IH|g k IH|c k IH|child _ k IH]; intros w; cbn.
  - done.
  - by rewrite result_eta.
  - apply IH.
  - apply IH.
  - destruct (env (request c w) c) as [s dt]. apply IH.
  - destruct (advance child w) as [[w1 forked1] child']. rewrite IH.
    destruct (outcome (run env k w1)) eqn:E; cbn; rewrite ?E; cbn; [done|].
    by rewrite <- app_assoc.
Qed.

Section KeepsLaws.
Variable I : World -> Prop.

Lemma Keeps_bind m f : Keeps I m -> (forall v, Keeps I (f v)) -> Keeps I (bind m f).
Proof. induction 1; intros Hf; cbn; try constructor; auto. Qed.

Lemma Keeps_try_catch body handler :
  Keeps I body -> (forall e, Keeps I (handler e)) -> Keeps I (try_catch body handler).
Proof. induction 1; intros Hf; cbn; try constructor; auto. Qed.

Lemma Keeps_lift c : Keeps I (lift c).
Proof. destruct c; constructor. Qed.

Lemma Keeps_await c : (forall w, I w -> I (request c w)) -> Keeps I (await c).
Proof. intros Hc. constructor; [done|]. intros []; constructor. Qed.

Lemma Keeps_advance p w :
  Keeps I p -> I w ->
  I (advance p w).1.1 /\ Forall (Keeps I) (advance p w).1.2 /\ Keeps I (advance p w).2.
Proof.
  intros Hp. revert w.
  induction Hp as [v|e|k Hk IH|f k Hf Hk IH|c k Hc Hk IH|child k Hchild IHc Hk IHk];
    intros w Hw; cbn.
  - repeat split; auto. constructor.
  - repeat split; auto. constructor.
  - by apply IH.
  - apply IH. by apply Hf.
  - repeat split; auto. by constructor.
  - destruct (IHc w Hw) as (H1 & H2 & H3).
    destruct (advance child w) as [[w1 forked1] child']; cbn in *.
    destruct (IHk w1 H1) as (H4 & H5 & H6).
    destruct (advance k w1) as [[w2 forked2] p']; cbn in *.
    repeat split; auto. apply Forall_app. split; auto.
Qed.

(** Time passing preserves the invariant. *)
Hypothesis I_pass : forall dt w, I w -> I (pass dt w).

Lemma Keeps_run env p w : Keeps I p -> I w -> I (final (run env p w)).
Proof.
  intros Hp. revert w.
  induction Hp as [v|e|k Hk IH|f k Hf Hk IH|c k Hc Hk IH|child k Hchild IHc Hk IHk];
    intros w Hw; cbn; auto.
  - destruct (env (request c w) c) as [s dt]. apply IH. apply I_pass. by apply Hc.
  - pose proof (Keeps_advance child w Hchild Hw) as (H1 & _).
    destruct (advance child w) as [[w1 forked1] child']; cbn in *. by apply IHk.
Qed.

Lemma Keeps_run_bind env m f w :
  I (final (run env m w)) -> (forall v, Keeps I (f v)) -> I (final (run env (bind m f) w)).
Proof.
  intros Hm Hf. rewrite run_bind. destruct (outcome (run env m w)); cbn; [|done].
  by apply Keeps_run.
Qed.

Lemma Keeps_run_try_catch env body handler w :
  I (final (run env body w)) -> (forall e, Keeps I (handler e)) ->
  I (final (run env (try_catch body handler) w)).
Proof.
  intros Hm Hf. rewrite run_try_catch. destruct (outcome (run env body w)); cbn; [done|].
  by apply Keeps_run.
Qed.



End KeepsLaws.

Section EndsLaws.

Lemma Ends_weaken (Q E Q' E' : JSValue -> Prop) p :
  Ends Q E p -> (forall v, Q v -> Q' v) -> (forall e, E e -> E' e) -> Ends Q' E' p.
Proof. induction 1; intros HQ HE; constructor; auto. Qed.

Lemma Ends_any p : Ends any_value any_value p.
Proof. induction p; constructor; unfold any_value; auto. Qed.

Lemma Ends_bind (Q1 Q E : JSValue -> Prop) m f :
  Ends Q1 E m -> (forall v, Q1 v -> Ends Q E (f v)) -> Ends Q E (bind m f).
Proof. induction 1; intros Hf; cbn; try constructor; auto. Qed.

Lemma Ends_try_catch (Q E1 E : JSValue -> Prop) body handler :
  Ends Q E1 body -> (forall e, E1 e -> Ends Q E (handler e)) ->
  Ends Q E (try_catch body handler).
Proof. induction 1; intros Hf; cbn; try constructor; auto. Qed.

Lemma Ends_run (Q E : JSValue -> Prop) env p w :
  Ends Q E p ->
  match outcome (run env p w) with
  | Normal v => Q v
  | Abrupt e => E e
  end.
Proof.
  intros Hp. revert w.
  induction Hp as [v Hv|e He|k Hk IH|f k Hk IH|c k Hk IH|child k Hk IH]; intros w; cbn.
  - done.
  - done.
  - apply IH.
  - apply IH.
  - destruct (env (request c w) c) as [s dt]. apply IH.
  - destruct (advance child w) as [[w1 forked1] child']. cbn. apply IH.
Qed.

Lemma Ends_returns_undefined env p w :
  Ends is_undefined no_value p -> outcome (run env p w) = Normal JUndefined.
Proof.
  intros Hp. pose proof (Ends_run _ _ env p w Hp) as Hr.
  destruct (outcome (run env p w)); [by rewrite Hr | done].
Qed.

End EndsLaws.

(** ** Proof automation *)

Ltac head_of p :=
  lazymatch p with
  | ?f _ => head_of f
  | _ => p
  end.

(** One step of a proof of [Keeps I p]; [side] proves that a state change
    preserves [I].  A callee already treated is taken from the context. *)
Ltac keeps_step side :=
  lazymatch goal with
  | |- Keeps _ (Ret _) => apply Keeps_Ret
  | |- Keeps _ (Throw _) => apply Keeps_Throw
  | |- Keeps _ (Read _) => apply Keeps_Read; intros ?
  | |- Keeps _ (Upd _ _) => apply Keeps_Upd; [side|]
  | |- Keeps _ (Await _ _) => apply Keeps_Await; [side|intros []]
  | |- Keeps _ (Fork _ _) => apply Keeps_Fork
  | |- Keeps _ (bind _ _) => apply Keeps_bind; [|intros ?]
  | |- Keeps _ (try_catch _ _) => apply Keeps_try_catch; [|intros ?]
  | |- Keeps _ (lift _) => apply Keeps_lift
  | |- Keeps _ (await _) => apply Keeps_await; side
  | |- Keeps _ (if _ && negb true then _ else _) => rewrite andb_false_r
  | |- Keeps _ (if ?b then _ else _) => destruct b
  | |- Keeps _ (match ?x with _ => _ end) => destruct x
  | |- Keeps _ ?p =>
      first [ assumption
            | match goal with K : forall _, Keeps _ _ |- _ => apply K end
            | let h := head_of p in unfold h; cbn [retry_from] ]
  end.

Ltac keeps side := repeat keeps_step side.

(** The same for [Ends Q E p]; [leaf] proves [Q v] and [E e]. *)
Ltac ends_step leaf :=
  lazymatch goal with
  | |- Ends _ _ (Ret _) => apply Ends_Ret; leaf
  | |- Ends _ _ (Throw _) => apply Ends_Throw; leaf
  | |- Ends _ _ (Read _) => apply Ends_Read; intros ?
  | |- Ends _ _ (Upd _ _) => apply Ends_Upd
  | |- Ends _ _ (Await _ _) => apply Ends_Await; intros []
  | |- Ends _ _ (Fork _ _) => apply Ends_Fork
  | |- Ends _ _ (if ?b then _ else _) => destruct b
  | |- Ends _ _ (match ?x with _ => _ end) => destruct x
  end.

Ltac source_keeps side :=
  lazymatch goal with
  | |- SourceKeeps ?I =>
      assert (K1 : Keeps I renderDebug) by keeps side;
      assert (K2 : forall photo, Keeps I (displayPhoto photo)) by (intros; keeps side);
      assert (K3 : forall b, Keeps I (fetch_after_cache_check b)) by (intros; keeps side);
      assert (K4 : forall error, Keeps I (fetch_catch error)) by (intros; keeps side);
      assert (K5 : forall b, Keeps I (fetchUnsplashPhoto b)) by (intros; keeps side);
      assert (K6 : Keeps I prefetchNextPhoto) by keeps side;
      assert (K7 : Keeps I checkPhotoContext) by keeps side;
      assert (K8 : forall weather, Keeps I (updateWeatherDisplay weather)) by (intros; keeps side);
      assert (K9 : forall location, Keeps I (updateWeather location)) by (intros; keeps side);
      assert (K10 : Keeps I fetchLocation) by keeps side;
      assert (K11 : Keeps I updateTimeAndDate) by keeps side;
      assert (K12 : Keeps I loadSettings) by keeps side;
      assert (K13 : Keeps I reloadSettings) by keeps side;
      assert (K14 : Keeps I init) by keeps side;
      assert (K15 : Keeps I refreshPhoto) by keeps side;
      constructor; assumption
  end.


(** ** The trace of a state change *)

Lemma commit_times_snoc tr e :
  commit_times (tr ++ [e]) =
  commit_times tr ++ match commit_of e with Some c => [c.2] | None => [] end.
Proof.
  unfold commit_times, commits. rewrite omap_app, fmap_app. cbn.
  by destruct (commit_of e).
Qed.

Lemma omap_snoc {A B} (f : A -> option B) l x :
  omap f (l ++ [x]) = omap f l ++ match f x with Some y => [y] | None => [] end.
Proof. rewrite omap_app. cbn. by destruct (f x). Qed.

Lemma commits_snoc tr e :
  commits (tr ++ [e]) = commits tr ++ match commit_of e with Some c => [c] | None => [] end.
Proof. apply omap_snoc. Qed.
Lemma fetches_snoc tr e :
  fetches (tr ++ [e]) = fetches tr ++ match fetch_of e with Some c => [c] | None => [] end.
Proof. apply omap_snoc. Qed.
Lemma validity_checks_snoc tr e :
  validity_checks (tr ++ [e]) =
  validity_checks tr ++ match validity_check_of e with Some c => [c] | None => [] end.
Proof. apply omap_snoc. Qed.
Lemma presents_snoc tr e :
  presents (tr ++ [e]) = presents tr ++ match present_of e with Some c => [c] | None => [] end.
Proof. apply omap_snoc. Qed.
Lemma refreshes_snoc tr e :
  refreshes (tr ++ [e]) = refreshes tr ++ match refresh_of e with Some c => [c] | None => [] end.
Proof. apply omap_snoc. Qed.
Lemma prefetches_snoc tr e :
  prefetches (tr ++ [e]) = prefetches tr ++ match prefetch_of e with Some c => [c] | None => [] end.
Proof. apply omap_snoc. Qed.
Lemma ticks_snoc tr e :
  ticks (tr ++ [e]) = ticks tr ++ match tick_of e with Some c => [c] | None => [] end.
Proof. apply omap_snoc. Qed.

Ltac trace_simpl :=
  cbn; repeat case_match; cbn;
  rewrite ?commit_times_snoc, ?commits_snoc, ?fetches_snoc, ?validity_checks_snoc,
    ?presents_snoc, ?refreshes_snoc, ?prefetches_snoc, ?ticks_snoc;
  cbn; rewrite ?app_nil_r.

(** ** Commit timestamps (C6) *)

Section CommitTimestamps.
Context `{JSHost}.


















End CommitTimestamps.

Section CommitTimestampsExamples.
#[local] Existing Instance Demo.host.


(** Scenario D on the example state: two commits, each stamped with the
    time its fetch completed, and the store holds the second. *)
Example overlapping_triggers_commit_times :
  let w := world (pool_run Example.overlapping_triggers
                    (mkPool (Example.running (31 * Example.minute)) [])) in
  commit_times (trace w) = [1860110; 1860113]
  /\ localStorage w !! cache_key
     = Some (Demo.stringify (cache_entry Example.photoC (JStr "windy") 1860113)).
Proof. vm_compute. done. Qed.

(** The order of the timestamps is the order of the wall clock and no more:
    when the clock is set back between two commits, [Date.now()] stamps the
    later one with the earlier time.  Each is still the reading at its own
    commit, and the store holds the later one. *)
Example clock_set_back_commit_times :
  let w := world (pool_run Example.clock_set_back
                    (mkPool (Example.running (31 * Example.minute)) [])) in
  Forall from_source Example.clock_set_back
  /\ ~ Forall clock_forward Example.clock_set_back
  /\ commit_times (trace w) = [1860110; 1859110]
  /\ ~ Sorted Z.le (commit_times (trace w))
  /\ localStorage w !! cache_key
     = Some (Demo.stringify (cache_entry Example.photoC (JStr "windy") 1859110)).
Proof.
  assert (Htimes : commit_times
            (trace (world (pool_run Example.clock_set_back
                             (mkPool (Example.running (31 * Example.minute)) []))))
          = [1860110; 1859110]) by (vm_compute; reflexivity).
  cbv zeta. rewrite Htimes.
  split; [repeat (constructor; cbn)|].
  split.
  { intros Hall. rewrite Forall_forall in Hall.
    assert (Hback : clock_forward (Adjust (-1000))).
    { apply Hall. unfold Example.clock_set_back. repeat constructor. }
    cbn in Hback. lia. }
  split; [reflexivity|].
  split; [|vm_compute; reflexivity].
  intros Hsorted. apply Sorted_inv in Hsorted as [_ Hhd].
  apply HdRel_inv in Hhd. lia.
Qed.

End CommitTimestampsExamples.

(** ** The Cache Store read (C5) *)

Section CacheStore.
Context `{JSHost}.

Lemma getCachedPhoto_normal w : exists v, getCachedPhoto w = Normal v.
Proof. unfold getCachedPhoto. destruct (getCachedPhoto_try w); eauto. Qed.

(** C5.  Whatever is persisted under the cache key, [getCachedPhoto] returns
    and does not throw: [null] when the key is absent, when the text is empty
    and when [JSON.parse] throws on it, the parsed value otherwise. *)
Theorem getCachedPhoto_never_throws w :
  exists v,
    getCachedPhoto w = Normal v
    /\ v = match localStorage w !! cache_key with
           | None => JNull
           | Some text =>
               if String.eqb text "" then JNull
               else match JSON_parse text with
                    | Normal parsed => parsed
                    | Abrupt _ => JNull
                    end
           end.
Proof.
  unfold getCachedPhoto, getCachedPhoto_try.
  destruct (localStorage w !! cache_key) as [text|]; cbn; [|eauto].
  destruct (String.eqb text ""); cbn; [eauto|].
  destruct (JSON_parse text); eauto.
Qed.

End CacheStore.

Section CacheStoreExamples.
#[local] Existing Instance Demo.host.

(** A truncated record reads as absent; an intact one reads as the entry. *)
Example getCachedPhoto_corrupt :
  getCachedPhoto (set_localStorage {[ cache_key := "{photo:" ]} (Example.empty 0))
  = Normal JNull.
Proof. vm_compute. reflexivity. Qed.

Example getCachedPhoto_intact :
  getCachedPhoto (Example.running 0)
  = Normal (cache_entry Example.photoA (JStr "calm") 0).
Proof. vm_compute. reflexivity. Qed.

End CacheStoreExamples.

(** ** The refresh interval (C9) *)

Section RefreshInterval.
Context `{JSHost}.

(** C9.  [getRefreshIntervalMs] is 30 minutes in milliseconds when
    [settings.photos.refresh_interval] is missing (also when the settings or
    their [photos] part are), [null] or zero, and [refresh_interval * 60000]
    when it is another number. *)
Theorem getRefreshIntervalMs_default w :
  let interval := opt_member (opt_member (userSettings w) "photos") "refresh_interval" in
  (interval = JUndefined \/ interval = JNull \/ interval = JNum 0 ->
   getRefreshIntervalMs w = JNum (30 * 60000))
  /\ (forall n, interval = JNum n -> n <> 0 -> getRefreshIntervalMs w = JNum (n * 60000)).
Proof.
  cbn zeta. unfold getRefreshIntervalMs. split.
  - intros [-> | [-> | ->]]; reflexivity.
  - intros n -> Hn. unfold js_or. cbn.
    destruct (Z.eqb_spec n 0) as [|_]; [done|]. cbn.
    f_equal. lia.
Qed.

(** The interval of the prefetch decision is this one. *)
Lemma prefetch_due_interval cached w t ttl :
  get_field cached "timestamp" = JNum t -> getRefreshIntervalMs w = JNum ttl ->
  prefetch_due cached w =
  (ttl - 60000 <=? clock w - t) && (clock w - t <? ttl) && negb (truthy (prefetchedPhoto w)).
Proof.
  intros Ht Httl. unfold prefetch_due. rewrite Ht, Httl. cbn.
  f_equal. f_equal. apply Z.geb_leb.
Qed.

End RefreshInterval.

Section RefreshIntervalExamples.
#[local] Existing Instance Demo.host.

Lemma getRefreshIntervalMs_default_witness :
  getRefreshIntervalMs (Example.at_start 0) = JNum (30 * 60000)
  /\ getRefreshIntervalMs (set_userSettings (Example.settings 45) (Example.running 0))
     = JNum (45 * 60000).
Proof.
  split.
  - apply (proj1 (getRefreshIntervalMs_default (Example.at_start 0))).
    left. reflexivity.
  - apply (proj2 (getRefreshIntervalMs_default
                    (set_userSettings (Example.settings 45) (Example.running 0))) 45).
    + reflexivity.
    + discriminate.
Defined.

End RefreshIntervalExamples.

(** ** Stepping through a run *)

Ltac env_step env :=
  match goal with
  | Hr : oracle_reply env _ |- context [env ?W (is_cache_valid ?t)] =>
      let E := fresh "E" in
      pose proof (Hr W t) as E;
      destruct (env W (is_cache_valid t)) as [? ?dt]; cbn in E; subst
  | Hr : query_reply env _ |- context [env ?W (build_photo_query ?q)] =>
      let E := fresh "E" in
      pose proof (Hr W q) as E;
      destruct (env W (build_photo_query q)) as [? ?dt]; cbn in E; subst
  | Hr : fetch_reply env _ |- context [env ?W (get_unsplash_photo ?a ?b ?q)] =>
      let E := fresh "E" in
      pose proof (Hr W a b q) as E;
      destruct (env W (get_unsplash_photo a b q)) as [? ?dt]; cbn in E; subst
  | |- context [env ?W ?c] => destruct (env W c) as [[?v|?e] ?dt] eqn:?
  end.

(** ** The prefetch (C7) *)

Section Prefetch.
Context `{JSHost}.

Lemma prefetchNextPhoto_keeps_outside x :
  Keeps (fun w => outside_prefetch w = x) prefetchNextPhoto.
Proof.
  keeps ltac:(intros ? <-; unfold outside_prefetch; trace_simpl; reflexivity).
Qed.

Lemma prefetchNextPhoto_ends : Ends is_undefined no_value prefetchNextPhoto.
Proof.
  unfold prefetchNextPhoto. repeat ends_step ltac:(reflexivity).
  apply Ends_try_catch with (E1 := any_value).
  - repeat ends_step ltac:(reflexivity).
    apply Ends_bind with (Q1 := any_value); [apply Ends_any|intros queryResult _].
    apply Ends_bind with (Q1 := any_value); [apply Ends_any|intros query _].
    apply Ends_bind with (Q1 := any_value); [apply Ends_any|intros photo _].
    repeat ends_step ltac:(reflexivity).
  - intros e _. repeat ends_step ltac:(reflexivity).
Qed.

(** C7.  [prefetchNextPhoto] returns without throwing and leaves the Cache
    Store, the displayed surface and every variable other than the Prefetch
    Buffer as they were.  Without weather it does nothing at all; when the
    photo provider fails the buffer keeps its content (empty, when the
    scheduler started the prefetch); when query and fetch succeed the buffer
    holds exactly the fetched photo and its query. *)
Theorem prefetchNextPhoto_effects env w :
  outcome (run env prefetchNextPhoto w) = Normal JUndefined
  /\ outside_prefetch (final (run env prefetchNextPhoto w)) = outside_prefetch w
  /\ (truthy (currentWeather w) = false ->
      final (run env prefetchNextPhoto w) = emit (EvEnter FnPrefetchNextPhoto) w)
  /\ (forall e, fetch_reply env (Rejected e) ->
      prefetchedPhoto (final (run env prefetchNextPhoto w)) = prefetchedPhoto w)
  /\ (forall queryResult photo,
      truthy (currentWeather w) = true ->
      query_reply env (Resolved queryResult) -> nullish queryResult = false ->
      fetch_reply env (Resolved photo) ->
      prefetchedPhoto (final (run env prefetchNextPhoto w))
      = JObj [("photo", photo); ("query", get_field queryResult "query")]).
Proof.
  split; [apply Ends_returns_undefined, prefetchNextPhoto_ends|].
  split.
  { apply (Keeps_run (fun w' => outside_prefetch w' = outside_prefetch w));
      [done | apply prefetchNextPhoto_keeps_outside | done]. }
  split; [|split].
  - intros Hw. unfold prefetchNextPhoto. cbn. by rewrite Hw.
  - intros e He. unfold prefetchNextPhoto, buildPhotoQueryParams, fetchPhotoWithQuery, member.
    cbn. destruct (truthy (currentWeather w)) eqn:Hw; cbn; [|done].
    repeat (cbn; first [rewrite Hw | env_step env | case_match]); done.
  - intros queryResult photo Hw Hq Hn Hf.
    unfold prefetchNextPhoto, buildPhotoQueryParams, fetchPhotoWithQuery, member.
    repeat (cbn; first [rewrite Hw | rewrite Hn | env_step env]). done.
Qed.

End Prefetch.

Section PrefetchExamples.
#[local] Existing Instance Demo.host.

Lemma prefetchNextPhoto_effects_witness :
  prefetchedPhoto (final (run (Example.env_with Example.valid Example.provider_down)
                              prefetchNextPhoto (Example.running (29 * Example.minute))))
  = JNull
  /\ prefetchedPhoto (final (run (Example.env_with Example.valid (Resolved Example.photoB))
                                 prefetchNextPhoto (Example.running (29 * Example.minute))))
     = JObj [("photo", Example.photoB); ("query", JStr "sunny")]
  /\ final (run (Example.env_with Example.valid (Resolved Example.photoB))
                prefetchNextPhoto (Example.at_start 0))
     = emit (EvEnter FnPrefetchNextPhoto) (Example.at_start 0).
Proof.
  split; [|split].
  - apply (proj1 (proj2 (proj2 (proj2 (prefetchNextPhoto_effects
             (Example.env_with Example.valid Example.provider_down)
             (Example.running (29 * Example.minute))))))
           (JStr "rate limit exceeded")).
    intros w width height query. reflexivity.
  - apply (proj2 (proj2 (proj2 (proj2 (prefetchNextPhoto_effects
             (Example.env_with Example.valid (Resolved Example.photoB))
             (Example.running (29 * Example.minute))))))
           (JObj [("query", JStr "sunny")]) Example.photoB).
    + reflexivity.
    + intros w params. reflexivity.
    + reflexivity.
    + intros w width height query. reflexivity.
  - apply (proj1 (proj2 (proj2 (prefetchNextPhoto_effects
             (Example.env_with Example.valid (Resolved Example.photoB))
             (Example.at_start 0))))).
    reflexivity.
Defined.

End PrefetchExamples.

(** ** The prefetch decision of the scheduler (C4) *)

Section SchedulerPrefetch.
Context `{JSHost}.

Lemma trace_pass dt w : trace (pass dt w) = trace w.
Proof. reflexivity. Qed.

(** Only [prefetchNextPhoto] starts a prefetch: a refresh does not. *)
Lemma fetchUnsplashPhoto_keeps_prefetches forceRefresh x :
  Keeps (fun w => prefetches (trace w) = x) (fetchUnsplashPhoto forceRefresh).
Proof. keeps ltac:(intros ? <-; trace_simpl; reflexivity). Qed.

Lemma prefetchNextPhoto_prefetches env w :
  prefetches (trace (final (run env prefetchNextPhoto w))) = prefetches (trace w) ++ [tt].
Proof.
  unfold prefetchNextPhoto. cbn [run].
  apply (Keeps_run (fun w' => prefetches (trace w') = prefetches (trace w) ++ [tt])).
  - done.
  - keeps ltac:(intros ? <-; trace_simpl; reflexivity).
  - trace_simpl. reflexivity.
Qed.

(** C4.  On a scheduler tick that finds a cached entry (its timestamp [t],
    the refresh interval [ttl] milliseconds), a prefetch is started exactly
    when [ttl - 60000 <= age < ttl] for [age = now - t] and the Prefetch
    Buffer is empty; the tick starts no other prefetch. *)
Theorem checkPhotoContext_prefetch_iff env w cached t ttl :
  getCachedPhoto w = Normal cached -> truthy cached = true ->
  get_field cached "timestamp" = JNum t ->
  getRefreshIntervalMs w = JNum ttl ->
  prefetches (trace (final (run env checkPhotoContext w))) =
  prefetches (trace w)
    ++ (if (ttl - 60000 <=? clock w - t) && (clock w - t <? ttl)
           && negb (truthy (prefetchedPhoto w))
        then [tt] else []).
Proof.
  intros Hcached Htruthy Ht Httl.
  unfold checkPhotoContext. cbn [run].
  set (w1 := emit (EvEnter FnCheckPhotoContext) w).
  assert (Hc1 : getCachedPhoto w1 = Normal cached) by exact Hcached.
  rewrite Hc1. cbn [lift bind]. rewrite Htruthy. cbn [negb].
  set (due := (ttl - 60000 <=? clock w - t) && (clock w - t <? ttl)
              && negb (truthy (prefetchedPhoto w))).
  apply (Keeps_run_try_catch
           (fun w' => prefetches (trace w') = prefetches (trace w) ++ (if due then [tt] else []))).
  - done.
  - cbn [run]. apply Keeps_run_bind.
    + done.
    + rewrite (prefetch_due_interval cached w1 t ttl Ht Httl).
      change (clock w1) with (clock w). change (prefetchedPhoto w1) with (prefetchedPhoto w).
      fold due.
      destruct due; cbv iota.
      * rewrite prefetchNextPhoto_prefetches. unfold w1. trace_simpl. reflexivity.
      * cbn. unfold w1. trace_simpl. reflexivity.
    + intros _. apply Keeps_bind.
      * apply Keeps_await. intros ? <-. trace_simpl. reflexivity.
      * intros isValid. destruct (negb (truthy isValid)); [|constructor].
        constructor; [intros ? <-; trace_simpl; reflexivity|].
        apply fetchUnsplashPhoto_keeps_prefetches.
  - intros e. keeps ltac:(intros ? <-; trace_simpl; reflexivity).
Qed.

End SchedulerPrefetch.

Section SchedulerPrefetchExamples.
#[local] Existing Instance Demo.host.

(** Scenario A: interval 30 minutes, age 29 min 10 s: one prefetch, no
    forced refresh. *)
Lemma checkPhotoContext_prefetch_iff_witness :
  prefetches (trace (final (run (Example.env_with Example.valid (Resolved Example.photoB))
                                checkPhotoContext
                                (Example.running (29 * Example.minute + 10000)))))
  = [tt].
Proof.
  apply (checkPhotoContext_prefetch_iff
           (Example.env_with Example.valid (Resolved Example.photoB))
           (Example.running (29 * Example.minute + 10000))
           (cache_entry Example.photoA (JStr "calm") 0) 0 (30 * 60000)).
  - vm_compute. reflexivity.
  - reflexivity.
  - reflexivity.
  - reflexivity.
Defined.

Example scenario_A_no_forced_refresh :
  refreshes (trace (final (run (Example.env_with Example.valid (Resolved Example.photoB))
                               checkPhotoContext
                               (Example.running (29 * Example.minute + 10000)))))
  = [].
Proof. vm_compute. reflexivity. Qed.

(** With a prefetched photo pending the same tick starts none. *)
Example pending_prefetch_not_repeated :
  prefetches (trace (final (run (Example.env_with Example.valid (Resolved Example.photoB))
                                checkPhotoContext
                                (set_prefetchedPhoto Example.prefetched
                                   (Example.running (29 * Example.minute + 10000))))))
  = [].
Proof. vm_compute. reflexivity. Qed.

End SchedulerPrefetchExamples.

(** ** A failing validity oracle (C3) *)

Section OracleError.
Context `{JSHost}.

Lemma prefetchNextPhoto_keeps_cache_and_surface x :
  Keeps (fun w => cache_and_surface w = x) prefetchNextPhoto.
Proof.
  keeps ltac:(intros ? <-; unfold cache_and_surface; trace_simpl; reflexivity).
Qed.

(** C3, as the code has it.  When the validity oracle raises on a scheduler
    tick, [checkPhotoContext] catches the error, logs it and returns: no
    refresh is started, the Cache Store and the displayed surface stay as
    they are. *)
Theorem checkPhotoContext_oracle_error env w e :
  oracle_reply env (Rejected e) ->
  outcome (run env checkPhotoContext w) = Normal JUndefined
  /\ cache_and_surface (final (run env checkPhotoContext w)) = cache_and_surface w
  /\ (forall cached, getCachedPhoto w = Normal cached -> truthy cached = true ->
      last (trace (final (run env checkPhotoContext w)))
      = Some (EvConsole "Failed to check photo context:")).
Proof.
  intros Horacle.
  unfold checkPhotoContext. cbn [run].
  set (w1 := emit (EvEnter FnCheckPhotoContext) w).
  assert (Hw1 : cache_and_surface w1 = cache_and_surface w).
  { unfold w1, cache_and_surface. trace_simpl. reflexivity. }
  destruct (getCachedPhoto_normal w) as [cached Hcached].
  assert (Hc1 : getCachedPhoto w1 = Normal cached) by exact Hcached.
  rewrite Hc1. cbn [lift bind].
  destruct (truthy cached) eqn:Htruthy; cbn [negb]; cycle 1.
  { cbn [run final outcome]. split; [reflexivity|]. split; [exact Hw1|].
    intros c Hc. rewrite Hcached in Hc. injection Hc as <-. congruence. }
  rewrite run_try_catch. cbn [run]. rewrite run_bind.
  set (first_part := if prefetch_due cached w1 then prefetchNextPhoto else Ret JUndefined).
  assert (Hout : outcome (run env first_part w1) = Normal JUndefined).
  { apply Ends_returns_undefined. unfold first_part.
    destruct (prefetch_due cached w1); [apply prefetchNextPhoto_ends|by constructor]. }
  assert (Hframe : cache_and_surface (final (run env first_part w1)) = cache_and_surface w).
  { apply (Keeps_run (fun w' => cache_and_surface w' = cache_and_surface w)); [done| |done].
    unfold first_part. destruct (prefetch_due cached w1);
      [apply prefetchNextPhoto_keeps_cache_and_surface|constructor]. }
  rewrite Hout. cbn -[first_part].
  set (w2 := final (run env first_part w1)) in *.
  env_step env. cbn -[first_part].
  repeat split.
  - rewrite <- Hframe. unfold cache_and_surface. trace_simpl. reflexivity.
  - intros _ _ _. by rewrite last_snoc.
Qed.

End OracleError.

Section OracleErrorExamples.
#[local] Existing Instance Demo.host.

Lemma checkPhotoContext_oracle_error_witness :
  outcome (run (Example.env_with Example.oracle_down (Resolved Example.photoB))
               checkPhotoContext (Example.running (31 * Example.minute)))
  = Normal JUndefined.
Proof.
  apply (checkPhotoContext_oracle_error
           (Example.env_with Example.oracle_down (Resolved Example.photoB))
           (Example.running (31 * Example.minute))
           (JStr "backend unavailable")).
  intros w t. reflexivity.
Defined.

(** On the entry of [Example.running], 31 minutes old, a tick whose oracle
    is down starts no refresh; the answer [false] would have started one. *)
Lemma oracle_error_not_treated_as_invalid : ~ oracle_error_treated_as_invalid.
Proof.
  intros Hclaim.
  pose proof (Hclaim Demo.host
                (Example.env_with Example.oracle_down (Resolved Example.photoB))
                (Example.running (31 * Example.minute))
                (cache_entry Example.photoA (JStr "calm") 0)
                (JStr "backend unavailable")) as Hrun.
  assert (Hcached : getCachedPhoto (Example.running (31 * Example.minute))
                    = Normal (cache_entry Example.photoA (JStr "calm") 0))
    by (vm_compute; reflexivity).
  specialize (Hrun Hcached eq_refl (fun _ _ => eq_refl)).
  vm_compute in Hrun. discriminate Hrun.
Qed.

Example oracle_false_starts_refresh :
  refreshes (trace (final
    (run (Example.env_with Example.expired (Resolved Example.photoB))
         checkPhotoContext (Example.running (31 * Example.minute)))))
  = [true].
Proof. vm_compute. reflexivity. Qed.

End OracleErrorExamples.

(** ** The display *)

Section Display.
Context `{JSHost}.

Lemma displayPhoto_keeps_outside photo x :
  Keeps (fun w => outside_display w = x) (displayPhoto photo).
Proof.
  keeps ltac:(intros ? <-; unfold outside_display; trace_simpl; reflexivity).
Qed.

Lemma displayPhoto_outside env photo w :
  outside_display (final (run env (displayPhoto photo) w)) = outside_display w.
Proof.
  apply (Keeps_run (fun w' => outside_display w' = outside_display w));
    [done | apply displayPhoto_keeps_outside | done].
Qed.

Lemma displayPhoto_fetches env photo w :
  fetches (trace (final (run env (displayPhoto photo) w))) = fetches (trace w).
Proof.
  pose proof (displayPhoto_outside env photo w) as Hd.
  unfold outside_display in Hd. by injection Hd.
Qed.

Lemma renderDebug_ends : Ends is_undefined no_value renderDebug.
Proof.
  unfold renderDebug. apply Ends_try_catch with (E1 := any_value).
  - apply Ends_Read. intros w.
    apply Ends_bind with (Q1 := any_value); [apply Ends_any|intros cached _].
    apply Ends_bind with (Q1 := any_value); [apply Ends_any|intros info _].
    apply Ends_bind with (Q1 := any_value); [apply Ends_any|intros age _].
    by constructor.
  - intros e _. repeat ends_step ltac:(reflexivity).
Qed.

(** On a photo that is an object the display returns, having applied the
    photo's url as the background. *)
Lemma displayPhoto_presents env photo w :
  nullish photo = false ->
  outcome (run env (displayPhoto photo) w) = Normal JUndefined
  /\ presents (trace (final (run env (displayPhoto photo) w))) = presents (trace w) ++ [photo]
  /\ backgroundImage (final (run env (displayPhoto photo) w)) = get_field photo "url"
  /\ currentPhotoUrl (final (run env (displayPhoto photo) w)) = get_field photo "url".
Proof.
  intros Hphoto.
  set (Inv := fun w' : World =>
              presents (trace w') = presents (trace w) ++ [photo]
              /\ backgroundImage w' = get_field photo "url"
              /\ currentPhotoUrl w' = get_field photo "url").
  assert (Htail : forall k, Ends is_undefined no_value k ->
            Keeps Inv k -> forall w', Inv w' ->
            outcome (run env k w') = Normal JUndefined /\ Inv (final (run env k w'))).
  { intros k Hk HK w' Hw'. split; [by apply Ends_returns_undefined|].
    apply Keeps_run; [|done|done]. intros dt w0 Hw0. exact Hw0. }
  unfold displayPhoto, member. rewrite Hphoto. cbn [lift bind run].
  match goal with |- context [env ?W ?c] => destruct (env W c) as [[v|e] dt] end;
    cbn [bind run].
  all: apply Htail;
    [ repeat ends_step ltac:(reflexivity);
      (apply Ends_bind with (Q1 := is_undefined);
        [apply renderDebug_ends | intros ? _; repeat ends_step ltac:(reflexivity)])
    | keeps ltac:(intros ? (? & ? & ?); unfold Inv; trace_simpl; done)
    | unfold Inv; trace_simpl; done ].
Qed.

(** On [null] or [undefined] it throws at once. *)
Lemma displayPhoto_nullish env photo w :
  nullish photo = true ->
  run env (displayPhoto photo) w = mkResult w (Abrupt (TypeError "url")) [].
Proof. intros Hphoto. unfold displayPhoto, member. rewrite Hphoto. reflexivity. Qed.

End Display.

Arguments displayPhoto : simpl never.

(** ** A refresh whose fetch fails (C2) *)

Section FetchFailure.
Context `{JSHost}.

Lemma error_text_truthy e : truthy (error_text e) = true.
Proof.
  unfold error_text, js_or.
  repeat case_match; try done.
Qed.

(** What [error?.message || error?.toString() || 'Unknown error'] is: the
    message of an error that has one, a string thrown as it is, the fixed
    text for [null] and [undefined]. *)
Lemma error_text_reason e :
  (truthy (get_field e "message") = true -> error_text e = get_field e "message")
  /\ (forall s, e = JStr s -> s <> "" -> error_text e = JStr s)
  /\ (nullish e = true -> error_text e = JStr "Unknown error").
Proof.
  unfold error_text, js_or, opt_member. split; [|split].
  - intros Hmessage. destruct (nullish e) eqn:Hnull.
    + destruct e; cbn in Hnull, Hmessage; done.
    + rewrite Hmessage. cbv iota. by rewrite Hmessage.
  - intros s -> Hs. cbn. destruct (String.eqb_spec s "") as [->|_]; done.
  - intros Hnull. by rewrite Hnull.
Qed.

(** The [catch] block: the reason is recorded, the store is not touched, a
    cached photo is presented again. *)
Lemma fetch_catch_effects env e w :
  localStorage (final (run env (fetch_catch e) w)) = localStorage w
  /\ commits (trace (final (run env (fetch_catch e) w))) = commits (trace w)
  /\ fetches (trace (final (run env (fetch_catch e) w))) = fetches (trace w)
  /\ lastPhotoFetchError (final (run env (fetch_catch e) w)) = error_text e
  /\ (forall cached, getCachedPhoto w = Normal cached -> truthy cached = true ->
      nullish (get_field cached "photo") = false ->
      outcome (run env (fetch_catch e) w) = Normal JUndefined
      /\ presents (trace (final (run env (fetch_catch e) w)))
         = presents (trace w) ++ [get_field cached "photo"]
      /\ backgroundImage (final (run env (fetch_catch e) w))
         = get_field (get_field cached "photo") "url")
  /\ (forall cached, getCachedPhoto w = Normal cached -> truthy cached = false ->
      outcome (run env (fetch_catch e) w) = Normal JUndefined
      /\ presents (trace (final (run env (fetch_catch e) w))) = presents (trace w)
      /\ backgroundImage (final (run env (fetch_catch e) w)) = backgroundImage w).
Proof.
  unfold fetch_catch. cbn [run].
  set (w1 := console _ (set_lastPhotoFetchError _ w)).
  destruct (getCachedPhoto_normal w) as [cached Hcached].
  assert (Hc1 : getCachedPhoto w1 = Normal cached) by exact Hcached.
  rewrite Hc1. cbn [lift bind].
  assert (Hout : outside_display w1
                 = outside_display (set_lastPhotoFetchError (error_text e) w)).
  { unfold w1, outside_display. trace_simpl. reflexivity. }
  destruct (truthy cached) eqn:Htruthy.
  - pose proof (displayPhoto_outside env (get_field cached "photo") w1) as Hd.
    rewrite Hout in Hd. unfold outside_display in Hd. cbn in Hd.
    injection Hd as Hls Hcommits Hfetches _ _ _ _ _ _ _ Herr _ _ _.
    split; [exact Hls|]. split; [exact Hcommits|]. split; [exact Hfetches|].
    split; [exact Herr|]. split.
    + intros c Hc _ Hphoto. rewrite Hcached in Hc. injection Hc as <-.
      destruct (displayPhoto_presents env _ w1 Hphoto) as (Ho & Hp & Hb & _).
      split; [exact Ho|]. split; [|exact Hb].
      rewrite Hp. unfold w1. trace_simpl. reflexivity.
    + intros c Hc Hf. rewrite Hcached in Hc. injection Hc as <-. congruence.
  - cbn [run final outcome].
    split; [reflexivity|]. split; [unfold w1; trace_simpl; reflexivity|].
    split; [unfold w1; trace_simpl; reflexivity|]. split; [reflexivity|]. split.
    + intros c Hc Hf. rewrite Hcached in Hc. injection Hc as <-. congruence.
    + intros c Hc Hf. split; [reflexivity|].
      split; [unfold w1; trace_simpl; reflexivity | reflexivity].
Qed.

(** The [try] block against a failing photo provider: either it never
    called the provider, or it threw the provider's error with the Cache
    Store and the surface untouched. *)
Lemma fetch_try_failure env forceRefresh e w :
  fetch_reply env (Rejected e) ->
  fetches (trace (final (run env (fetch_try forceRefresh) w))) = fetches (trace w)
  \/ (outcome (run env (fetch_try forceRefresh) w) = Abrupt e
      /\ store_and_surface (final (run env (fetch_try forceRefresh) w)) = store_and_surface w).
Proof.
  intros Hfetch.
  assert (Hrest : forall w', store_and_surface w' = store_and_surface w ->
            fetches (trace w') = fetches (trace w) ->
            fetches (trace (final (run env (fetch_after_cache_check forceRefresh) w')))
              = fetches (trace w)
            \/ (outcome (run env (fetch_after_cache_check forceRefresh) w') = Abrupt e
                /\ store_and_surface (final (run env (fetch_after_cache_check forceRefresh) w'))
                   = store_and_surface w)).
  { intros w' Hs Hf. unfold fetch_after_cache_check. cbn [run].
    destruct (truthy (currentWeather w')) eqn:Hweather; cbn [negb].
    2: { left. cbn. trace_simpl. done. }
    destruct (truthy (prefetchedPhoto w') && negb forceRefresh).
    { left. apply (Keeps_run (fun w0 => fetches (trace w0) = fetches (trace w))); [done| |done].
      keeps ltac:(intros ? <-; trace_simpl; reflexivity). }
    destruct (truthy (buildPhotoQueryParams w')); cbn [negb].
    2: { left. done. }
    cbn [await bind run].
    env_step env; cbn [bind run].
    2: { left. cbn. trace_simpl. done. }
    unfold member. destruct (nullish v); cbn [lift bind run].
    { left. cbn. trace_simpl. done. }
    unfold fetchPhotoWithQuery. cbn [bind run await].
    env_step env. cbn [bind run]. right. split; [reflexivity|].
    rewrite <- Hs. unfold store_and_surface. trace_simpl. reflexivity. }
  unfold fetch_try. cbn [run].
  destruct (getCachedPhoto_normal w) as [cached Hcached]. rewrite Hcached.
  cbn [lift bind].
  destruct (negb forceRefresh && truthy cached); [|by apply Hrest].
  cbn [await bind run].
  env_step env; cbn [bind run].
  2: { left. cbn. trace_simpl. done. }
  destruct (truthy v).
  - left. rewrite displayPhoto_fetches. trace_simpl. reflexivity.
  - apply Hrest.
    + unfold store_and_surface. trace_simpl. reflexivity.
    + trace_simpl. reflexivity.
Qed.

(** C2.  When a refresh calls the photo provider and the provider fails:
    the persisted entry is untouched; the reason is recorded in
    [lastPhotoFetchError], which then holds the message of the error when it
    has one, the error itself when it is a string (what a failed [invoke]
    rejects with), and [Unknown error] when nothing was thrown with it; a
    cached entry's photo is presented again, and with no cached entry
    nothing is presented and the refresh returns without throwing. *)
Theorem fetchUnsplashPhoto_fetch_failure env forceRefresh e w :
  fetch_reply env (Rejected e) ->
  fetches (trace (final (run env (fetchUnsplashPhoto forceRefresh) w))) <> fetches (trace w) ->
  localStorage (final (run env (fetchUnsplashPhoto forceRefresh) w)) = localStorage w
  /\ commits (trace (final (run env (fetchUnsplashPhoto forceRefresh) w))) = commits (trace w)
  /\ lastPhotoFetchError (final (run env (fetchUnsplashPhoto forceRefresh) w)) = error_text e
  /\ truthy (error_text e) = true
  /\ (truthy (get_field e "message") = true ->
      lastPhotoFetchError (final (run env (fetchUnsplashPhoto forceRefresh) w))
      = get_field e "message")
  /\ (forall s, e = JStr s -> s <> "" ->
      lastPhotoFetchError (final (run env (fetchUnsplashPhoto forceRefresh) w)) = JStr s)
  /\ (nullish e = true ->
      lastPhotoFetchError (final (run env (fetchUnsplashPhoto forceRefresh) w))
      = JStr "Unknown error")
  /\ (forall cached, getCachedPhoto w = Normal cached -> truthy cached = true ->
      nullish (get_field cached "photo") = false ->
      outcome (run env (fetchUnsplashPhoto forceRefresh) w) = Normal JUndefined
      /\ presents (trace (final (run env (fetchUnsplashPhoto forceRefresh) w)))
         = presents (trace w) ++ [get_field cached "photo"]
      /\ backgroundImage (final (run env (fetchUnsplashPhoto forceRefresh) w))
         = get_field (get_field cached "photo") "url")
  /\ (forall cached, getCachedPhoto w = Normal cached -> truthy cached = false ->
      outcome (run env (fetchUnsplashPhoto forceRefresh) w) = Normal JUndefined
      /\ presents (trace (final (run env (fetchUnsplashPhoto forceRefresh) w)))
         = presents (trace w)
      /\ backgroundImage (final (run env (fetchUnsplashPhoto forceRefresh) w))
         = backgroundImage w).
Proof.
  intros Hfetch. unfold fetchUnsplashPhoto. cbn [run].
  set (w1 := emit (EvEnter (FnFetchUnsplashPhoto forceRefresh)) w).
  rewrite run_try_catch.
  destruct (fetch_try_failure env forceRefresh e w1 Hfetch) as [Hsame | [Hout Hframe]].
  - intros Hcalled. exfalso.
    destruct (outcome (run env (fetch_try forceRefresh) w1)) eqn:Hbody.
    + apply Hcalled. rewrite Hsame. unfold w1. trace_simpl. reflexivity.
    + apply Hcalled. cbn [final].
      destruct (fetch_catch_effects env e0 (final (run env (fetch_try forceRefresh) w1)))
        as (_ & _ & Hf & _).
      rewrite Hf, Hsame. unfold w1. trace_simpl. reflexivity.
  - intros _. rewrite Hout. cbn [final outcome].
    set (w2 := final (run env (fetch_try forceRefresh) w1)) in *.
    unfold store_and_surface in Hframe. injection Hframe as Hls Hcommits Hpresents Hbg.
    destruct (fetch_catch_effects env e w2) as (Hl & Hc & _ & Herr & Hyes & Hno).
    assert (Hcache : getCachedPhoto w2 = getCachedPhoto w).
    { unfold getCachedPhoto, getCachedPhoto_try. by rewrite Hls. }
    split; [by rewrite Hl, Hls|].
    split; [rewrite Hc, Hcommits; unfold w1; trace_simpl; reflexivity|].
    split; [done|]. split; [apply error_text_truthy|].
    destruct (error_text_reason e) as (Hmessage & Hstring & Hnone).
    split; [intros Hm; rewrite Herr; by apply Hmessage|].
    split; [intros s Hs Hne; rewrite Herr; by apply Hstring|].
    split; [intros Hn; rewrite Herr; by apply Hnone|].
    split.
    + intros cached Hcached Ht Hp. rewrite <- Hcache in Hcached.
      destruct (Hyes cached Hcached Ht Hp) as (H1 & H2 & H3).
      repeat split; [done| |done].
      rewrite H2, Hpresents. unfold w1. trace_simpl. reflexivity.
    + intros cached Hcached Ht. rewrite <- Hcache in Hcached.
      destruct (Hno cached Hcached Ht) as (H1 & H2 & H3).
      repeat split; [done| |by rewrite H3, Hbg].
      rewrite H2, Hpresents. unfold w1. trace_simpl. reflexivity.
Qed.

End FetchFailure.

Section FetchFailureExamples.
#[local] Existing Instance Demo.host.

(** Scenario C and P3 on the example states: the provider rejects with the
    string [rate limit exceeded], which is what is recorded. *)
Lemma fetchUnsplashPhoto_fetch_failure_witness :
  localStorage (final (run (Example.env_with Example.expired Example.provider_down)
                           (fetchUnsplashPhoto true) (Example.running (31 * Example.minute))))
  = Example.stored
  /\ lastPhotoFetchError
       (final (run (Example.env_with Example.expired Example.provider_down)
                   (fetchUnsplashPhoto true) (Example.running (31 * Example.minute))))
     = JStr "rate limit exceeded".
Proof.
  pose proof (fetchUnsplashPhoto_fetch_failure
                (Example.env_with Example.expired Example.provider_down) true
                (JStr "rate limit exceeded") (Example.running (31 * Example.minute))) as Hthm.
  assert (Hreply : fetch_reply (Example.env_with Example.expired Example.provider_down)
                               (Rejected (JStr "rate limit exceeded")))
    by (intros w width height query; reflexivity).
  assert (Hcalled : fetches (trace (final
            (run (Example.env_with Example.expired Example.provider_down)
                 (fetchUnsplashPhoto true) (Example.running (31 * Example.minute)))))
          <> fetches (trace (Example.running (31 * Example.minute))))
    by (vm_compute; discriminate).
  destruct (Hthm Hreply Hcalled) as (Hstore & _ & _ & _ & _ & Hstring & _).
  split; [exact Hstore | apply (Hstring "rate limit exceeded"); [reflexivity|discriminate]].
Defined.

Example fetch_failure_keeps_stale_photo :
  let r := run (Example.env_with Example.expired Example.provider_down)
               (fetchUnsplashPhoto true) (Example.running (31 * Example.minute)) in
  (outcome r, backgroundImage (final r), presents (trace (final r)),
   lastPhotoFetchError (final r))
  = (Normal JUndefined, JStr "https://images.example/a.jpg", [Example.photoA],
     JStr "rate limit exceeded").
Proof. vm_compute. reflexivity. Qed.

Example fetch_failure_without_cache :
  let r := run (Example.env_with Example.expired Example.provider_down)
               (fetchUnsplashPhoto true) (Example.empty (31 * Example.minute)) in
  (outcome r, backgroundImage (final r), presents (trace (final r)),
   commits (trace (final r)), lastPhotoFetchError (final r))
  = (Normal JUndefined, JUndefined, [], [], JStr "rate limit exceeded").
Proof. vm_compute. reflexivity. Qed.

End FetchFailureExamples.

(** ** A refresh while a prefetched photo is pending (C1) *)

Section PendingPrefetch.
Context `{JSHost}.

Lemma displayPhoto_clock env photo w :
  clock w <= clock (final (run env (displayPhoto photo) w)).
Proof.
  apply (Keeps_run (fun w' => clock w <= clock w')).
  - intros dt w' Hw'. cbn. lia.
  - keeps ltac:(intros ? ?; trace_simpl; done).
  - lia.
Qed.

(** The prefetch branch of the refresh, lines 366-373. *)
Lemma consume_prefetched env w photo query :
  prefetchedPhoto w = JObj [("photo", photo); ("query", query)] ->
  nullish photo = false ->
  truthy (currentWeather w) = true ->
  outcome (run env (fetch_after_cache_check false) w) = Normal JUndefined
  /\ prefetchedPhoto (final (run env (fetch_after_cache_check false) w)) = JNull
  /\ lastPhotoFetchError (final (run env (fetch_after_cache_check false) w)) = JNull
  /\ fetches (trace (final (run env (fetch_after_cache_check false) w))) = fetches (trace w)
  /\ commits (trace (final (run env (fetch_after_cache_check false) w)))
     = commits (trace w) ++ [(photo, query, clock w)]
  /\ localStorage (final (run env (fetch_after_cache_check false) w))
     = <[cache_key := JSON_stringify (cache_entry photo query (clock w))]> (localStorage w)
  /\ presents (trace (final (run env (fetch_after_cache_check false) w)))
     = presents (trace w) ++ [photo]
  /\ backgroundImage (final (run env (fetch_after_cache_check false) w))
     = get_field photo "url"
  /\ clock w <= clock (final (run env (fetch_after_cache_check false) w)).
Proof.
  intros Hpending Hphoto Hweather.
  unfold fetch_after_cache_check. cbn [run]. rewrite Hweather, Hpending. cbn [negb truthy andb].
  cbn [run get_field lookup_field String.eqb Ascii.eqb Bool.eqb].
  set (w1 := cachePhoto photo query (console "Using prefetched photo" w)).
  rewrite run_bind.
  destruct (displayPhoto_presents env photo w1 Hphoto) as (Hout & Hpresents & Hbg & _).
  pose proof (displayPhoto_outside env photo w1) as Hframe.
  pose proof (displayPhoto_clock env photo w1) as Hclock.
  unfold outside_display in Hframe.
  injection Hframe as Hls Hcommits Hfetches _ _ _ _ _ _ _ _ _ _ _.
  rewrite Hout. cbn [final outcome run].
  set (w2 := final (run env (displayPhoto photo) w1)) in *.
  repeat split; try reflexivity.
  - cbn. rewrite Hfetches. unfold w1. trace_simpl. reflexivity.
  - cbn. rewrite Hcommits. unfold w1. trace_simpl. reflexivity.
  - cbn. rewrite Hls. reflexivity.
  - cbn. rewrite Hpresents. unfold w1. trace_simpl. reflexivity.
  - cbn. exact Hbg.
  - cbn. exact Hclock.
Qed.

Lemma truthy_buildPhotoQueryParams w :
  truthy (currentWeather w) = true -> truthy (buildPhotoQueryParams w) = true.
Proof. intros Hw. unfold buildPhotoQueryParams. by rewrite Hw. Qed.

(** A forced refresh never touches the Prefetch Buffer. *)
Lemma forced_refresh_keeps_prefetched x :
  Keeps (fun w => prefetchedPhoto w = x) (fetchUnsplashPhoto true).
Proof. keeps ltac:(intros ? <-; trace_simpl; reflexivity). Qed.

(** With weather and an answer to the query it calls the photo provider. *)
Lemma forced_refresh_fetches env w queryResult :
  truthy (currentWeather w) = true ->
  query_reply env (Resolved queryResult) -> nullish queryResult = false ->
  fetches (trace (final (run env (fetchUnsplashPhoto true) w)))
  = fetches (trace w) ++ [get_field queryResult "query"].
Proof.
  intros Hweather Hquery Hresult.
  set (goal := fun w' : World =>
         fetches (trace w') = fetches (trace w) ++ [get_field queryResult "query"]).
  assert (Hpass : forall dt w', goal w' -> goal (pass dt w')) by (intros dt w' Hw'; exact Hw').
  unfold fetchUnsplashPhoto. cbn [run].
  apply (Keeps_run_try_catch goal); [exact Hpass| |].
  2: { intros e. keeps ltac:(intros ? Hg; unfold goal in *; rewrite <- Hg; trace_simpl; reflexivity). }
  unfold fetch_try. cbn [run].
  match goal with |- context [getCachedPhoto ?W] =>
    destruct (getCachedPhoto_normal W) as [cached ->] end.
  cbn [lift bind negb andb]. unfold fetch_after_cache_check. cbn [run].
  change (truthy (currentWeather w) = true) in Hweather.
  cbn [currentWeather emit set_trace]. rewrite Hweather. cbn [negb]. rewrite andb_false_r.
  match goal with |- context [buildPhotoQueryParams ?W] =>
    rewrite (truthy_buildPhotoQueryParams W Hweather) end.
  cbn [negb await bind run]. env_step env. cbn [bind run].
  unfold member. rewrite Hresult. cbn [lift bind run].
  unfold fetchPhotoWithQuery. cbn [bind run await].
  match goal with |- context [env ?W ?c] => destruct (env W c) as [s dt0] end.
  apply (Keeps_run goal); [exact Hpass| |].
  - keeps ltac:(intros ? Hg; unfold goal in *; rewrite <- Hg; trace_simpl; reflexivity).
  - unfold goal. trace_simpl. reflexivity.
Qed.

(** C1, as the code has it.  While a prefetched photo is pending and weather
    is known: a refresh that is not forced and finds no entry to reuse
    commits the pending photo with the current time as its timestamp, clears
    the Prefetch Buffer, presents the photo and calls the photo provider not
    at all; the manual refresh command leaves the Prefetch Buffer as it is
    and calls the photo provider for a new photo. *)
Theorem refresh_with_pending_prefetch env w photo query :
  prefetchedPhoto w = JObj [("photo", photo); ("query", query)] ->
  nullish photo = false ->
  truthy (currentWeather w) = true ->
  (forall cached, getCachedPhoto w = Normal cached -> no_reuse env cached ->
     outcome (run env (fetchUnsplashPhoto false) w) = Normal JUndefined
     /\ prefetchedPhoto (final (run env (fetchUnsplashPhoto false) w)) = JNull
     /\ fetches (trace (final (run env (fetchUnsplashPhoto false) w))) = fetches (trace w)
     /\ presents (trace (final (run env (fetchUnsplashPhoto false) w)))
        = presents (trace w) ++ [photo]
     /\ exists now,
          clock w <= now <= clock (final (run env (fetchUnsplashPhoto false) w))
          /\ (truthy cached = false -> now = clock w)
          /\ commits (trace (final (run env (fetchUnsplashPhoto false) w)))
             = commits (trace w) ++ [(photo, query, now)]
          /\ localStorage (final (run env (fetchUnsplashPhoto false) w))
             = <[cache_key := JSON_stringify (cache_entry photo query now)]> (localStorage w))
  /\ (prefetchedPhoto (final (run env refreshPhoto w)) = prefetchedPhoto w
      /\ forall queryResult,
           query_reply env (Resolved queryResult) -> nullish queryResult = false ->
           fetches (trace (final (run env refreshPhoto w)))
           = fetches (trace w) ++ [get_field queryResult "query"]).
Proof.
  intros Hpending Hphoto Hweather. split.
  - intros cached Hcached Hnone.
    unfold fetchUnsplashPhoto. cbn [run].
    set (w1 := emit (EvEnter (FnFetchUnsplashPhoto false)) w).
    rewrite run_try_catch. unfold fetch_try. cbn [run].
    assert (Hc1 : getCachedPhoto w1 = Normal cached) by exact Hcached.
    rewrite Hc1. cbn [lift bind negb andb].
    destruct (truthy cached) eqn:Htruthy.
    + destruct Hnone as [|(answer & Horacle & Hanswer)]; [congruence|].
      cbn [await bind run]. env_step env. cbn [bind run]. rewrite Hanswer.
      match goal with |- context [run env (fetch_after_cache_check false) ?W] =>
        set (w2 := W) end.
      destruct (consume_prefetched env w2 photo query Hpending Hphoto Hweather)
        as (Hout & Hpf & _ & Hf & Hc & Hls & Hp & _ & Hclock).
      rewrite Hout. split; [done|]. split; [done|].
      split; [rewrite Hf; unfold w2, w1; trace_simpl; reflexivity|].
      split; [rewrite Hp; unfold w2, w1; trace_simpl; reflexivity|].
      exists (clock w2). split; [|split; [done|split]].
      * split; [|exact Hclock]. unfold w2, w1. cbn. lia.
      * rewrite Hc. unfold w2, w1. trace_simpl. reflexivity.
      * rewrite Hls. reflexivity.
    + destruct (consume_prefetched env w1 photo query Hpending Hphoto Hweather)
        as (Hout & Hpf & _ & Hf & Hc & Hls & Hp & _ & Hclock).
      rewrite Hout. split; [done|]. split; [done|].
      split; [rewrite Hf; unfold w1; trace_simpl; reflexivity|].
      split; [rewrite Hp; unfold w1; trace_simpl; reflexivity|].
      exists (clock w). split; [|split; [done|split]].
      * split; [lia|exact Hclock].
      * rewrite Hc. unfold w1. trace_simpl. reflexivity.
      * rewrite Hls. reflexivity.
  - unfold refreshPhoto. cbn [run bind]. cbn [currentWeather emit console set_trace].
    rewrite Hweather. cbn [negb andb bind].
    rewrite run_bind.
    match goal with |- context [run env (fetchUnsplashPhoto true) ?W] => set (w1 := W) end.
    assert (Hkept : prefetchedPhoto (final (run env (fetchUnsplashPhoto true) w1))
                    = prefetchedPhoto w).
    { apply (Keeps_run (fun w' => prefetchedPhoto w' = prefetchedPhoto w));
        [done | apply forced_refresh_keeps_prefetched | done]. }
    split.
    + destruct (outcome (run env (fetchUnsplashPhoto true) w1)); cbn [final run];
        exact Hkept.
    + intros queryResult Hquery Hresult.
      pose proof (forced_refresh_fetches env w1 queryResult Hweather Hquery Hresult) as Hf.
      assert (Hw1 : fetches (trace w1) = fetches (trace w))
        by (unfold w1; trace_simpl; reflexivity).
      rewrite Hw1 in Hf.
      destruct (outcome (run env (fetchUnsplashPhoto true) w1)); cbn [final run];
        [|exact Hf].
      revert Hf. generalize (final (run env (fetchUnsplashPhoto true) w1)).
      intros w2 Hf. trace_simpl. exact Hf.
Qed.

End PendingPrefetch.

Section PendingPrefetchExamples.
#[local] Existing Instance Demo.host.

Lemma refresh_with_pending_prefetch_witness :
  prefetchedPhoto (final (run (Example.env_with Example.expired (Resolved Example.photoB))
                              (fetchUnsplashPhoto false)
                              (set_prefetchedPhoto Example.prefetched
                                 (Example.running (31 * Example.minute)))))
  = JNull
  /\ prefetchedPhoto (final (run (Example.env_with Example.expired (Resolved Example.photoB))
                                 refreshPhoto
                                 (set_prefetchedPhoto Example.prefetched
                                    (Example.running (31 * Example.minute)))))
     = Example.prefetched.
Proof.
  pose proof (refresh_with_pending_prefetch
                (Example.env_with Example.expired (Resolved Example.photoB))
                (set_prefetchedPhoto Example.prefetched (Example.running (31 * Example.minute)))
                Example.photoC (JStr "misty") eq_refl eq_refl eq_refl) as [Hsoft Hmanual].
  split.
  - assert (Hcached : getCachedPhoto (set_prefetchedPhoto Example.prefetched
                                        (Example.running (31 * Example.minute)))
                      = Normal (cache_entry Example.photoA (JStr "calm") 0))
      by (vm_compute; reflexivity).
    assert (Hnone : no_reuse (Example.env_with Example.expired (Resolved Example.photoB))
                             (cache_entry Example.photoA (JStr "calm") 0)).
    { right. exists (JBool false). split; [|reflexivity]. intros w t. reflexivity. }
    exact (proj1 (proj2 (Hsoft _ Hcached Hnone))).
  - exact (proj1 Hmanual).
Defined.

(** The manual refresh and the scheduler tick at expiry, with [photoC]
    prefetched: both fetch [photoB] and commit it; [photoC] stays pending. *)
Lemma forced_refresh_ignores_prefetch : ~ forced_refresh_consumes_prefetch.
Proof.
  intros Hclaim.
  destruct (Hclaim Demo.host
              (Example.env_with Example.expired (Resolved Example.photoB))
              (set_prefetchedPhoto Example.prefetched (Example.running (31 * Example.minute)))
              Example.photoC (JStr "misty") eq_refl eq_refl eq_refl) as (Hcleared & _).
  vm_compute in Hcleared. discriminate Hcleared.
Qed.

Example manual_refresh_fetches_again :
  let r := run (Example.env_with Example.expired (Resolved Example.photoB)) refreshPhoto
               (set_prefetchedPhoto Example.prefetched (Example.running (31 * Example.minute))) in
  (prefetchedPhoto (final r), fetches (trace (final r)), fst <$> commits (trace (final r)))
  = (Example.prefetched, [JStr "sunny"], [(Example.photoB, JStr "sunny")]).
Proof. vm_compute. reflexivity. Qed.

Example expiry_tick_fetches_again :
  let r := run (Example.env_with Example.expired (Resolved Example.photoB)) checkPhotoContext
               (set_prefetchedPhoto Example.prefetched (Example.running (31 * Example.minute))) in
  (prefetchedPhoto (final r), fetches (trace (final r)), fst <$> commits (trace (final r)))
  = (Example.prefetched, [JStr "sunny"], [(Example.photoB, JStr "sunny")]).
Proof. vm_compute. reflexivity. Qed.

End PendingPrefetchExamples.

(** ** Overlapping refresh triggers (C8) *)

Section Overlap.
Context `{JSHost}.

Lemma getCachedPhoto_ext w w' :
  localStorage w' = localStorage w -> getCachedPhoto w' = getCachedPhoto w.
Proof. intros Hls. unfold getCachedPhoto, getCachedPhoto_try. by rewrite Hls. Qed.

Lemma prefetch_due_ext cached w w' :
  clock w' = clock w -> userSettings w' = userSettings w ->
  prefetchedPhoto w' = prefetchedPhoto w ->
  prefetch_due cached w' = prefetch_due cached w.
Proof.
  intros Hc Hs Hp. unfold prefetch_due, getRefreshIntervalMs. by rewrite Hc, Hs, Hp.
Qed.

End Overlap.

Arguments getCachedPhoto : simpl never.
Arguments prefetch_due : simpl never.
Arguments cachePhoto : simpl never.

Section Scripts.
Context `{JSHost}.

Lemma advance_bind m f w :
  advance (bind m f) w =
  match advance m w with
  | (w1, forked1, Ret v) =>
      let '(w2, forked2, r) := advance (f v) w1 in (w2, forked1 ++ forked2, r)
  | (w1, forked1, Throw e) => (w1, forked1, Throw e)
  | (w1, forked1, r) => (w1, forked1, bind r f)
  end.
Proof.
  revert w. induction m as [v|e|k IH|g k IH|c k IH|child IHc k IH]; intros w; cbn.
  - by destruct (advance (f v) w) as [[w2 forked2] r].
  - done.
  - apply IH.
  - apply IH.
  - done.
  - destruct (advance child w) as [[w1 forked1] child']. rewrite IH.
    destruct (advance k w1) as [[w2 forked2] [v|e|k'|g k'|c k'|ch k']]; try done.
    destruct (advance (f v) w2) as [[w3 forked3] r]. by rewrite <- app_assoc.
Qed.

Lemma advance_try_catch body handler w :
  advance (try_catch body handler) w =
  match advance body w with
  | (w1, forked1, Throw e) =>
      let '(w2, forked2, r) := advance (handler e) w1 in (w2, forked1 ++ forked2, r)
  | (w1, forked1, Ret v) => (w1, forked1, Ret v)
  | (w1, forked1, r) => (w1, forked1, try_catch r handler)
  end.
Proof.
  revert w. induction body as [v|e|k IH|g k IH|c k IH|child IHc k IH]; intros w; cbn.
  - done.
  - by destruct (advance (handler e) w) as [[w2 forked2] r].
  - apply IH.
  - apply IH.
  - done.
  - destruct (advance child w) as [[w1 forked1] child']. rewrite IH.
    destruct (advance k w1) as [[w2 forked2] [v|e|k'|g k'|c k'|ch k']]; try done.
    destruct (advance (handler e) w2) as [[w3 forked3] r]. by rewrite <- app_assoc.
Qed.

Lemma Follows_suspended script p : Follows script p -> exists c k, p = Await c k.
Proof. destruct script as [|[[s guard] f] rest]; cbn; [done|]. intros (c & k & -> & _). eauto. Qed.

Lemma Follows_bind script p f : Follows script p -> Follows script (bind p f).
Proof.
  revert p. induction script as [|[[s guard] g] rest IH]; intros p; cbn.
  - intros (c & k & ->). cbn. eauto.
  - intros (c & k & -> & Hstep). cbn. eexists _, _. split; [reflexivity|].
    intros w Hw. destruct (Hstep w Hw) as (p' & Hadv & Hrest).
    destruct (Follows_suspended _ _ Hrest) as (c' & k' & ->).
    rewrite advance_bind, Hadv. eexists. split; [reflexivity|]. by apply IH.
Qed.

Lemma Follows_try_catch script p handler :
  Follows script p -> Follows script (try_catch p handler).
Proof.
  revert p. induction script as [|[[s guard] g] rest IH]; intros p; cbn.
  - intros (c & k & ->). cbn. eauto.
  - intros (c & k & -> & Hstep). cbn. eexists _, _. split; [reflexivity|].
    intros w Hw. destruct (Hstep w Hw) as (p' & Hadv & Hrest).
    destruct (Follows_suspended _ _ Hrest) as (c' & k' & ->).
    rewrite advance_try_catch, Hadv. eexists. split; [reflexivity|]. by apply IH.
Qed.

(** Resuming task [i] of a pool along its script. *)
Lemma pool_step_Follows i s guard f rest pl p :
  tasks pl !! i = Some p -> Follows ((s, guard, f) :: rest) p -> guard (world pl) ->
  exists p',
    pool_step (Settle i s) pl = mkPool (f (world pl)) (<[i := p']> (tasks pl))
    /\ Follows rest p'.
Proof.
  intros Hi (c & k & -> & Hstep) Hguard.
  destruct (Hstep _ Hguard) as (p' & Hadv & Hrest).
  exists p'. split; [|done]. cbn. rewrite Hi, Hadv. by rewrite app_nil_r.
Qed.

End Scripts.

Section OverlapTheorem.
Context `{JSHost}.

Lemma forced_refresh_script w queryResult photo :
  truthy (currentWeather w) = true ->
  nullish queryResult = false -> nullish photo = false ->
  exists p,
    advance (fetchUnsplashPhoto true) w = (refresh_started w, [], p)
    /\ Follows (refresh_script queryResult photo) p.
Proof.
  intros Hweather Hquery Hphoto.
  unfold fetchUnsplashPhoto, fetch_try. cbn [advance try_catch].
  rewrite (getCachedPhoto_ext w) by reflexivity.
  destruct (getCachedPhoto_normal w) as [cached ->].
  cbn [lift bind negb andb]. unfold fetch_after_cache_check. cbn [advance try_catch].
  cbn [currentWeather prefetchedPhoto emit set_trace]. rewrite Hweather.
  cbn [negb]. rewrite andb_false_r.
  rewrite truthy_buildPhotoQueryParams by exact Hweather.
  cbn [negb await bind try_catch advance].
  eexists. split; [reflexivity|].
  eexists _, _. split; [reflexivity|]. intros w1 _.
  cbn [bind try_catch advance]. unfold member. rewrite Hquery.
  cbn [lift bind try_catch advance]. unfold fetchPhotoWithQuery.
  cbn [bind try_catch advance await].
  eexists. split; [reflexivity|].
  eexists _, _. split; [reflexivity|]. intros w2 _.
  cbn [bind try_catch advance lift]. rewrite Hphoto.
  cbn [bind try_catch advance lift]. unfold displayPhoto, member. rewrite Hphoto.
  cbn [bind try_catch advance lift].
  eexists. split; [reflexivity|].
  eexists _, _. reflexivity.
Qed.

(** The scheduler tick on an entry that the oracle then reports invalid. *)
Lemma tick_script w cached answer queryResult photo :
  getCachedPhoto w = Normal cached -> truthy cached = true ->
  prefetch_due cached w = false -> truthy answer = false ->
  nullish queryResult = false -> nullish photo = false ->
  exists p,
    advance checkPhotoContext w
    = (request (is_cache_valid (get_field cached "timestamp"))
               (emit (EvEnter FnCheckPhotoContext) w), [], p)
    /\ Follows ((Resolved answer, weather_known,
                 fun w' => refresh_started (console "Cache expired, refreshing..." w'))
                :: refresh_script queryResult photo) p.
Proof.
  intros Hcached Htruthy Hdue Hanswer Hquery Hphoto.
  unfold checkPhotoContext. cbn [advance].
  rewrite (getCachedPhoto_ext w) by reflexivity. rewrite Hcached.
  cbn [lift bind]. rewrite Htruthy. cbn [negb try_catch advance].
  rewrite (prefetch_due_ext cached w) by reflexivity. rewrite Hdue.
  cbn [bind await try_catch advance].
  eexists. split; [reflexivity|].
  eexists _, _. split; [reflexivity|]. intros w1 Hweather.
  cbn [bind try_catch advance]. rewrite Hanswer. cbn [negb try_catch advance].
  rewrite advance_try_catch.
  destruct (forced_refresh_script (console "Cache expired, refreshing..." w1)
              queryResult photo Hweather Hquery Hphoto) as (p & -> & Hp).
  destruct (Follows_suspended _ _ Hp) as (c & k & ->).
  eexists. split; [reflexivity|].
  by apply Follows_try_catch.
Qed.

(** The manual refresh command when weather is known. *)
Lemma manual_script w queryResult photo :
  truthy (currentWeather w) = true ->
  nullish queryResult = false -> nullish photo = false ->
  exists p,
    advance refreshPhoto w
    = (refresh_started (console "Manually refreshing photo..."
                          (emit (EvEnter FnRefreshPhoto) w)), [], p)
    /\ Follows (refresh_script queryResult photo) p.
Proof.
  intros Hweather Hquery Hphoto.
  unfold refreshPhoto. cbn [advance bind].
  cbn [currentWeather emit console set_trace]. rewrite Hweather.
  cbn [negb andb bind]. rewrite advance_bind.
  destruct (forced_refresh_script
              (console "Manually refreshing photo..." (emit (EvEnter FnRefreshPhoto) w))
              queryResult photo Hweather Hquery Hphoto) as (p & -> & Hp).
  destruct (Follows_suspended _ _ Hp) as (c & k & ->).
  eexists. split; [reflexivity|].
  by apply Follows_bind.
Qed.

Lemma pool_step_Start p w ts w1 p' :
  advance p w = (w1, [], p') -> pool_step (Start p) (mkPool w ts) = mkPool w1 (ts ++ [p']).
Proof. intros Hadv. cbn. by rewrite Hadv. Qed.

(** C8, as the code has it.  Nothing guards a refresh in flight.  When the
    scheduler tick has started a forced refresh and the manual command fires
    before that refresh has completed, both run on: each asks for its query,
    fetches its photo and commits it when its fetch completes.  The Cache
    Store then holds the entry committed last, whole. *)
Theorem overlapping_refreshes_both_commit
    w cached answer queryResult1 queryResult2 photo1 photo2 dt1 dt2 dt3 dt4 :
  getCachedPhoto w = Normal cached -> truthy cached = true ->
  prefetch_due cached w = false ->
  truthy (currentWeather w) = true ->
  truthy answer = false ->
  nullish queryResult1 = false -> nullish queryResult2 = false ->
  nullish photo1 = false -> nullish photo2 = false ->
  let pl := pool_run (overlap answer queryResult1 queryResult2 photo1 photo2 dt1 dt2 dt3 dt4)
                     (mkPool w []) in
  let t1 := clock w + Z.of_N dt1 + Z.of_N dt2 + Z.of_N dt3 in
  let t2 := t1 + Z.of_N dt4 in
  commits (trace (world pl))
  = commits (trace w) ++ [(photo1, get_field queryResult1 "query", t1);
                          (photo2, get_field queryResult2 "query", t2)]
  /\ localStorage (world pl)
     = <[cache_key := JSON_stringify (cache_entry photo2 (get_field queryResult2 "query") t2)]>
         (localStorage w).
Proof.
  intros Hcached Htruthy Hdue Hweather Hanswer Hq1 Hq2 Hp1 Hp2.
  unfold overlap, pool_run. cbn [fold_left].
  destruct (tick_script w cached answer queryResult1 photo1
              Hcached Htruthy Hdue Hanswer Hq1 Hp1) as (a0 & Ha0 & Hscript_a0).
  rewrite (pool_step_Start _ _ _ _ _ Ha0). cbn [app].
  change (pool_step (Pass dt1) ?pl) with (mkPool (pass dt1 (world pl)) (tasks pl)).
  cbn [world tasks].
  match goal with |- context [pool_step (Settle 0 (Resolved answer)) ?pl] =>
    destruct (pool_step_Follows 0 _ _ _ _ pl a0 eq_refl Hscript_a0 Hweather)
      as (a1 & -> & Hscript_a1)
  end.
  cbn [world tasks insert list_insert].
  match goal with |- context [pool_step (Start refreshPhoto) (mkPool ?w1 _)] =>
    destruct (manual_script w1 queryResult2 photo2 Hweather Hq2 Hp2)
      as (b0 & Hb0 & Hscript_b0)
  end.
  rewrite (pool_step_Start _ _ _ _ _ Hb0). cbn [app].
  change (pool_step (Pass dt2) ?pl) with (mkPool (pass dt2 (world pl)) (tasks pl)).
  cbn [world tasks].
  match goal with |- context [pool_step (Settle 0 (Resolved queryResult1)) ?pl] =>
    destruct (pool_step_Follows 0 _ _ _ _ pl a1 eq_refl Hscript_a1 Logic.I)
      as (a2 & -> & Hscript_a2)
  end.
  cbn [world tasks insert list_insert].
  match goal with |- context [pool_step (Settle 1 (Resolved queryResult2)) ?pl] =>
    destruct (pool_step_Follows 1 _ _ _ _ pl b0 eq_refl Hscript_b0 Logic.I)
      as (b1 & -> & Hscript_b1)
  end.
  cbn [world tasks insert list_insert].
  change (pool_step (Pass dt3) ?pl) with (mkPool (pass dt3 (world pl)) (tasks pl)).
  cbn [world tasks].
  match goal with |- context [pool_step (Settle 0 (Resolved photo1)) ?pl] =>
    destruct (pool_step_Follows 0 _ _ _ _ pl a2 eq_refl Hscript_a2 Logic.I)
      as (a3 & -> & _)
  end.
  cbn [world tasks insert list_insert].
  change (pool_step (Pass dt4) ?pl) with (mkPool (pass dt4 (world pl)) (tasks pl)).
  cbn [world tasks].
  match goal with |- context [pool_step (Settle 1 (Resolved photo2)) ?pl] =>
    destruct (pool_step_Follows 1 _ _ _ _ pl b1 eq_refl Hscript_b1 Logic.I)
      as (b2 & -> & _)
  end.
  cbn [world tasks].
  unfold photo_fetched, query_answered, refresh_started, cachePhoto.
  cbn [trace clock localStorage emit console request pass set_trace set_clock
       set_currentPhotoUrl set_localStorage].
  rewrite !commits_snoc. cbn [commit_of]. rewrite !app_nil_r, insert_insert_eq.
  rewrite <- app_assoc. cbn [app].
  split; reflexivity.
Qed.

End OverlapTheorem.

Section OverlapExamples.
#[local] Existing Instance Demo.host.

Lemma overlapping_refreshes_both_commit_witness :
  commits (trace (world
    (pool_run (overlap (JBool false) (JObj [("query", JStr "sunny")])
                       (JObj [("query", JStr "windy")]) Example.photoB Example.photoC
                       5 5 100 3)
              (mkPool (Example.running (31 * Example.minute)) []))))
  = [(Example.photoB, JStr "sunny", 31 * Example.minute + 110);
     (Example.photoC, JStr "windy", 31 * Example.minute + 113)].
Proof.
  apply (overlapping_refreshes_both_commit
           (Example.running (31 * Example.minute))
           (cache_entry Example.photoA (JStr "calm") 0) (JBool false)
           (JObj [("query", JStr "sunny")]) (JObj [("query", JStr "windy")])
           Example.photoB Example.photoC 5 5 100 3).
  - vm_compute. reflexivity.
  - reflexivity.
  - vm_compute. reflexivity.
  - reflexivity.
  - reflexivity.
  - reflexivity.
  - reflexivity.
  - reflexivity.
  - reflexivity.
Defined.

(** Scenario D on the example state: two commits, not one. *)
Lemma overlapping_trigger_not_dropped : ~ overlapping_trigger_dropped.
Proof.
  intros Hclaim.
  assert (Hcached : getCachedPhoto (Example.running (31 * Example.minute))
                    = Normal (cache_entry Example.photoA (JStr "calm") 0))
    by (vm_compute; reflexivity).
  assert (Hdue : prefetch_due (cache_entry Example.photoA (JStr "calm") 0)
                              (Example.running (31 * Example.minute)) = false)
    by (vm_compute; reflexivity).
  pose proof (Hclaim Demo.host (Example.running (31 * Example.minute))
                (cache_entry Example.photoA (JStr "calm") 0) (JBool false)
                (JObj [("query", JStr "sunny")]) (JObj [("query", JStr "windy")])
                Example.photoB Example.photoC 5%N 5%N 100%N 3%N
                Hcached eq_refl Hdue eq_refl eq_refl eq_refl eq_refl eq_refl eq_refl) as Hone.
  vm_compute in Hone. discriminate Hone.
Qed.

End OverlapExamples.

(** ** Start-up (C10) *)

Section StartUp.
Context `{JSHost}.

Lemma quiet_snoc tr e :
  quiet tr -> validity_check_of e = None -> commit_of e = None -> fetch_of e = None ->
  present_of e = None -> quiet (tr ++ [e]).
Proof.
  intros (H1 & H2 & H3 & H4) E1 E2 E3 E4. unfold quiet.
  rewrite validity_checks_snoc, commits_snoc, fetches_snoc, presents_snoc.
  rewrite H1, H2, H3, H4, E1, E2, E3, E4. done.
Qed.

Lemma loadSettings_ends : Ends any_value no_value loadSettings.
Proof.
  unfold loadSettings. apply Ends_try_catch with (E1 := any_value).
  - apply Ends_any.
  - intros e _. repeat ends_step ltac:(done).
Qed.

(** Loading the settings touches neither the store nor the surface. *)
Lemma loadSettings_quiet tr0 ls :
  Keeps (fun w => localStorage w = ls /\ exists more, trace w = tr0 ++ more /\ quiet more)
        loadSettings.
Proof.
  keeps ltac:(intros ? (? & more & Hmore & Hquiet); split; [done|]; cbn;
              first [ by exists more
                    | rewrite Hmore, <- app_assoc; eexists; split; [reflexivity|];
                      by apply quiet_snoc ]).
Qed.

(** Every function only adds to the trace. *)
Lemma source_keeps_trace_grows tr0 :
  SourceKeeps (fun w => exists more, trace w = tr0 ++ more).
Proof.
  source_keeps ltac:(intros ? [more Hmore]; unfold cachePhoto; cbn;
                     repeat case_match; cbn;
                     rewrite ?Hmore, <- ?app_assoc; eexists; reflexivity).
Qed.

Ltac grows :=
  intros ? [more' Hmore']; unfold cachePhoto; cbn;
  repeat case_match; cbn;
  rewrite ?Hmore', <- ?app_assoc; eexists; reflexivity.

(** In the trace of [init] the first photo presented is the persisted
    one, and nothing is checked, committed or fetched before it. *)
Lemma init_first_present env w cached :
  getCachedPhoto w = Normal cached -> truthy cached = true ->
  nullish (get_field cached "photo") = false ->
  exists before after,
    trace (final (run env init w))
    = trace w ++ before ++ EvPresent (get_field cached "photo") :: after
    /\ quiet before.
Proof.
  intros Hcached Htruthy Hphoto.
  unfold init. rewrite run_bind.
  pose proof (Ends_run _ _ env loadSettings w loadSettings_ends) as Hends.
  assert (Hload : localStorage (final (run env loadSettings w)) = localStorage w
                  /\ exists more, trace (final (run env loadSettings w)) = trace w ++ more
                                   /\ quiet more).
  { apply (Keeps_run (fun w' => localStorage w' = localStorage w
                        /\ exists more, trace w' = trace w ++ more /\ quiet more)).
    - intros dt w0 Hw0. exact Hw0.
    - apply loadSettings_quiet.
    - split; [done|]. exists []. split; [by rewrite app_nil_r|done]. }
  destruct Hload as (Hls & more & Hmore & Hquiet).
  destruct (outcome (run env loadSettings w)) as [v|e]; [|done].
  cbn [final]. set (w1 := final (run env loadSettings w)) in *.
  assert (Hc1 : getCachedPhoto w1 = Normal cached).
  { rewrite <- Hcached. by apply getCachedPhoto_ext. }
  clearbody w1. clear Hends.
  assert (Hgrow : forall before' extra w2 k,
            trace w2 = trace w ++ before' ++ EvPresent (get_field cached "photo") :: extra ->
            quiet before' ->
            Keeps (fun w' => exists more', trace w' = trace w2 ++ more') k ->
            exists before after,
              trace (final (run env k w2))
              = trace w ++ before ++ EvPresent (get_field cached "photo") :: after
              /\ quiet before).
  { intros before' extra w2 k Hw2 Hq Hk.
    assert (Hk2 : exists more', trace (final (run env k w2)) = trace w2 ++ more').
    { apply (Keeps_run (fun w' => exists more', trace w' = trace w2 ++ more')).
      - intros dt w0 Hw0. exact Hw0.
      - exact Hk.
      - exists []. by rewrite app_nil_r. }
    destruct Hk2 as [more' Hmore'].
    exists before', (extra ++ more'). split; [|done].
    rewrite Hmore', Hw2, <- !app_assoc. reflexivity. }
  pose proof (source_keeps_trace_grows) as Hsrc.
  cbn [run bind]. rewrite Hc1. cbn [lift bind]. rewrite Htruthy. cbn [bind run].
  unfold displayPhoto at 1. unfold member. rewrite Hphoto. cbn [lift bind run].
  assert (Hrest : forall before' extra w2 k,
            trace w2 = trace w1 ++ before' ++ EvPresent (get_field cached "photo") :: extra ->
            quiet before' ->
            (forall tr, Keeps (fun w' => exists more', trace w' = tr ++ more') k) ->
            exists before after,
              trace (final (run env k w2))
              = trace w ++ before ++ EvPresent (get_field cached "photo") :: after
              /\ quiet before).
  { intros before' extra w2 k Hw2 Hq Hk.
    apply (Hgrow (more ++ before') extra w2 k); [| |apply Hk].
    - rewrite Hw2, Hmore, <- !app_assoc. reflexivity.
    - destruct Hquiet as (Q1 & Q2 & Q3 & Q4), Hq as (R1 & R2 & R3 & R4).
      unfold quiet, validity_checks, commits, fetches, presents in *.
      rewrite !omap_app, Q1, Q2, Q3, Q4, R1, R2, R3, R4. done. }
  match goal with |- context [env ?W ?c] => destruct (env W c) as [[v0|e0] dt] end;
    cbn [bind run];
    destruct (truthy (get_field (get_field cached "photo") "download_location")).
  - eapply (Hrest [_; _] [_; _; _]);
      [cbn; rewrite <- !app_assoc; reflexivity | repeat split | intros tr; destruct (Hsrc tr); keeps ltac:(grows)].
  - eapply (Hrest [_; _] [_; _]);
      [cbn; rewrite <- !app_assoc; reflexivity | repeat split | intros tr; destruct (Hsrc tr); keeps ltac:(grows)].
  - eapply (Hrest [_; _; _] [_; _; _]);
      [cbn; rewrite <- !app_assoc; reflexivity | repeat split | intros tr; destruct (Hsrc tr); keeps ltac:(grows)].
  - eapply (Hrest [_; _; _] [_; _]);
      [cbn; rewrite <- !app_assoc; reflexivity | repeat split | intros tr; destruct (Hsrc tr); keeps ltac:(grows)].
Qed.

Lemma run_bind_assoc env m f g w :
  run env (bind (bind m f) g) w = run env (bind m (fun x => bind (f x) g)) w.
Proof.
  revert w. induction m as [v|e|k IH|h k IH|c k IH|child _ k IH]; intros w; cbn.
  - done.
  - done.
  - apply IH.
  - apply IH.
  - destruct (env (request c w) c) as [s dt]. apply IH.
  - destruct (advance child w) as [[w1 forked1] child']. by rewrite IH.
Qed.

(** [init] is its two parts, one after the other. *)
Lemma init_split env w : run env init w = run env (init_cached ;; init_scheduler) w.
Proof. symmetry. apply (run_bind_assoc env loadSettings). Qed.

(** [init_cached] on a persisted entry: the store is not touched, the
    oracle, the provider and [cachePhoto] are not called, the photo of the
    entry is presented. *)
Lemma init_cached_effects env w cached :
  getCachedPhoto w = Normal cached -> truthy cached = true ->
  nullish (get_field cached "photo") = false ->
  outcome (run env init_cached w) = Normal JUndefined
  /\ localStorage (final (run env init_cached w)) = localStorage w
  /\ commits (trace (final (run env init_cached w))) = commits (trace w)
  /\ validity_checks (trace (final (run env init_cached w))) = validity_checks (trace w)
  /\ fetches (trace (final (run env init_cached w))) = fetches (trace w)
  /\ presents (trace (final (run env init_cached w)))
     = presents (trace w) ++ [get_field cached "photo"]
  /\ backgroundImage (final (run env init_cached w))
     = get_field (get_field cached "photo") "url".
Proof.
  intros Hcached Htruthy Hphoto.
  unfold init_cached. rewrite run_bind.
  pose proof (Ends_run _ _ env loadSettings w loadSettings_ends) as Hends.
  assert (Hload : localStorage (final (run env loadSettings w)) = localStorage w
                  /\ exists more, trace (final (run env loadSettings w)) = trace w ++ more
                                   /\ quiet more).
  { apply (Keeps_run (fun w' => localStorage w' = localStorage w
                        /\ exists more, trace w' = trace w ++ more /\ quiet more)).
    - intros dt w0 Hw0. exact Hw0.
    - apply loadSettings_quiet.
    - split; [done|]. exists []. split; [by rewrite app_nil_r|done]. }
  destruct Hload as (Hls & more & Hmore & Hchecks & Hcommits & Hfetches & Hpresents).
  destruct (outcome (run env loadSettings w)) as [v|e]; [|done].
  cbn [final outcome forked run].
  set (w1 := final (run env loadSettings w)) in *.
  assert (Hc1 : getCachedPhoto w1 = Normal cached).
  { rewrite <- Hcached. by apply getCachedPhoto_ext. }
  assert (Hquiet : commits (trace w1) = commits (trace w)
                   /\ validity_checks (trace w1) = validity_checks (trace w)
                   /\ fetches (trace w1) = fetches (trace w)
                   /\ presents (trace w1) = presents (trace w)).
  { unfold commits, validity_checks, fetches, presents in *.
    rewrite Hmore, !omap_app, Hchecks, Hcommits, Hfetches, Hpresents, !app_nil_r. done. }
  destruct Hquiet as (Q1 & Q2 & Q3 & Q4).
  clearbody w1. rewrite Hc1. cbn [lift bind]. rewrite Htruthy. cbn [run].
  set (w2 := console "Displaying cached photo..." w1).
  assert (Hw2 : localStorage w2 = localStorage w1 /\ commits (trace w2) = commits (trace w1)
                /\ validity_checks (trace w2) = validity_checks (trace w1)
                /\ fetches (trace w2) = fetches (trace w1)
                /\ presents (trace w2) = presents (trace w1)).
  { unfold w2. trace_simpl. done. }
  destruct Hw2 as (P0 & P1 & P2 & P3 & P4).
  destruct (displayPhoto_presents env _ w2 Hphoto) as (Hout & Hshown & Hbg & _).
  pose proof (displayPhoto_outside env (get_field cached "photo") w2) as Hframe.
  clearbody w2. unfold outside_display in Hframe.
  injection Hframe as Hls2 Hcommits2 Hfetches2 Hchecks2 _ _ _ _ _ _ _ _ _ _.
  rewrite Hout, Hls2, Hcommits2, Hfetches2, Hchecks2, Hshown, Hbg.
  rewrite P0, P1, P2, P3, P4, Q1, Q2, Q3, Q4, Hls. done.
Qed.

(** C10, as the code has it.  At start-up, when an entry is persisted:
    [init] begins with [init_cached] and goes on with the clock, the location
    and the scheduler from the state that leaves.  In that state the photo
    of the entry has been presented and is the background, [localStorage] is
    as it was when the page loaded, and neither the validity oracle nor the
    photo provider has been called and nothing has been committed.  In the
    trace of the whole of [init] this presentation is the first, with no
    oracle call, commit or fetch before it.  An expired entry is presented
    like any other. *)
Theorem init_presents_cached_first env w cached :
  getCachedPhoto w = Normal cached -> truthy cached = true ->
  nullish (get_field cached "photo") = false ->
  run env init w = run env (init_cached ;; init_scheduler) w
  /\ outcome (run env init_cached w) = Normal JUndefined
  /\ localStorage (final (run env init_cached w)) = localStorage w
  /\ commits (trace (final (run env init_cached w))) = commits (trace w)
  /\ validity_checks (trace (final (run env init_cached w))) = validity_checks (trace w)
  /\ fetches (trace (final (run env init_cached w))) = fetches (trace w)
  /\ presents (trace (final (run env init_cached w)))
     = presents (trace w) ++ [get_field cached "photo"]
  /\ backgroundImage (final (run env init_cached w))
     = get_field (get_field cached "photo") "url"
  /\ exists before after,
       trace (final (run env init w))
       = trace w ++ before ++ EvPresent (get_field cached "photo") :: after
       /\ quiet before.
Proof.
  intros Hcached Htruthy Hphoto.
  split; [apply init_split|].
  destruct (init_cached_effects env w cached Hcached Htruthy Hphoto)
    as (H1 & H2 & H3 & H4 & H5 & H6 & H7).
  repeat (split; [assumption|]).
  by apply init_first_present.
Qed.

End StartUp.

Section StartUpExamples.
#[local] Existing Instance Demo.host.

(** The page loads 31 minutes after [photoA] was committed. *)
Lemma init_presents_cached_first_witness :
  let env := Example.env_with Example.expired (Resolved Example.photoB) in
  let w := Example.at_start (31 * Example.minute) in
  localStorage (final (run env init_cached w)) = Example.stored
  /\ presents (trace (final (run env init_cached w))) = [Example.photoA]
  /\ validity_checks (trace (final (run env init_cached w))) = [].
Proof.
  destruct (init_presents_cached_first
              (Example.env_with Example.expired (Resolved Example.photoB))
              (Example.at_start (31 * Example.minute))
              (cache_entry Example.photoA (JStr "calm") 0))
    as (_ & _ & Hstore & _ & Hchecks & _ & Hshown & _).
  - vm_compute. reflexivity.
  - reflexivity.
  - reflexivity.
  - split; [exact Hstore|]. split; [exact Hshown | exact Hchecks].
Defined.

(** With the entry expired, the refresh that follows the weather at start-up
    commits and presents [photoB] before the scheduler has ticked once. *)
Lemma expired_entry_replaced_before_first_tick :
  ~ cached_entry_stays_until_first_tick.
Proof.
  intros Hclaim.
  pose (tr := trace (final (run (Example.env_with Example.expired (Resolved Example.photoB))
                                init (Example.at_start (31 * Example.minute))))).
  destruct (Hclaim Demo.host
              (Example.env_with Example.expired (Resolved Example.photoB))
              (Example.at_start (31 * Example.minute))
              (cache_entry Example.photoA (JStr "calm") 0)
              (take 24 tr) (drop 25 tr)) as [Hcommits _].
  - vm_compute. reflexivity.
  - reflexivity.
  - reflexivity.
  - vm_compute. reflexivity.
  - vm_compute. reflexivity.
  - vm_compute in Hcommits. discriminate Hcommits.
Qed.

(** With the entry still valid the same refresh presents it again and the
    store is as it was when the scheduler first ticks. *)
Example valid_entry_kept_at_start :
  let r := run (Example.env_with Example.valid (Resolved Example.photoB)) init
               (Example.at_start (5 * Example.minute)) in
  commits (trace (final r)) = []
  /\ presents (trace (final r)) = [Example.photoA; Example.photoA]
  /\ localStorage (final r) = Example.stored.
Proof. vm_compute. done. Qed.

End StartUpExamples.
(** * The rest of [src/main.js] *)

Lemma calls_snoc tr e :
  calls (tr ++ [e]) = calls tr ++ match call_of e with Some c => [c] | None => [] end.
Proof. apply omap_snoc. Qed.
Lemma timers_snoc tr e :
  timers (tr ++ [e]) = timers tr ++ match timer_of e with Some c => [c] | None => [] end.
Proof. apply omap_snoc. Qed.

Ltac calls_simpl :=
  trace_simpl; rewrite ?calls_snoc, ?timers_snoc; cbn; rewrite ?app_nil_r.

(** ** The Cache Store: one slot *)

Section CacheSlot.
Context `{JSHost}.

(** X1.  What [cachePhoto] writes, [getCachedPhoto] reads back: when the
    host's [JSON.parse] inverts [JSON.stringify] on the entry, the read after
    a commit of [photo] and [query] is the entry [{photo, query, timestamp}]
    with the time of the commit as its timestamp. *)
Theorem cachePhoto_getCachedPhoto photo query w :
  JSON_stringify (cache_entry photo query (clock w)) <> "" ->
  JSON_parse (JSON_stringify (cache_entry photo query (clock w)))
  = Normal (cache_entry photo query (clock w)) ->
  getCachedPhoto (cachePhoto photo query w) = Normal (cache_entry photo query (clock w))
  /\ get_field (cache_entry photo query (clock w)) "photo" = photo
  /\ get_field (cache_entry photo query (clock w)) "query" = query
  /\ get_field (cache_entry photo query (clock w)) "timestamp" = JNum (clock w).
Proof.
  intros Hnonempty Hparse. split; [|done].
  unfold getCachedPhoto, getCachedPhoto_try, cachePhoto. cbn.
  rewrite lookup_insert_eq. cbn.
  destruct (String.eqb_spec (JSON_stringify (cache_entry photo query (clock w))) "") as [E|_];
    [done|]. cbn. by rewrite Hparse.
Qed.

(** X2.  The store has one slot.  A commit changes no other key of
    [localStorage]; a second commit replaces the first entry whole, so that
    the store and every later read are as if the first had not happened. *)
Theorem cachePhoto_single_slot photo1 query1 photo2 query2 w :
  (forall key, key <> cache_key ->
     localStorage (cachePhoto photo1 query1 w) !! key = localStorage w !! key)
  /\ localStorage (cachePhoto photo2 query2 (cachePhoto photo1 query1 w))
     = localStorage (cachePhoto photo2 query2 w)
  /\ getCachedPhoto (cachePhoto photo2 query2 (cachePhoto photo1 query1 w))
     = getCachedPhoto (cachePhoto photo2 query2 w).
Proof.
  assert (Hstore : localStorage (cachePhoto photo2 query2 (cachePhoto photo1 query1 w))
                   = localStorage (cachePhoto photo2 query2 w)).
  { unfold cachePhoto. cbn. by rewrite insert_insert_eq. }
  split; [|split; [exact Hstore|]].
  - intros key Hkey. unfold cachePhoto. cbn. by rewrite lookup_insert_ne.
  - by apply getCachedPhoto_ext.
Qed.

End CacheSlot.

Section CacheSlotExamples.
#[local] Existing Instance Demo.host.

Lemma cachePhoto_getCachedPhoto_witness :
  getCachedPhoto (cachePhoto Example.photoB (JStr "sunny") (Example.running 5000))
  = Normal (cache_entry Example.photoB (JStr "sunny") 5000)
  /\ get_field (cache_entry Example.photoB (JStr "sunny") 5000) "photo" = Example.photoB
  /\ get_field (cache_entry Example.photoB (JStr "sunny") 5000) "query" = JStr "sunny"
  /\ get_field (cache_entry Example.photoB (JStr "sunny") 5000) "timestamp" = JNum 5000.
Proof.
  apply (cachePhoto_getCachedPhoto Example.photoB (JStr "sunny") (Example.running 5000)).
  - vm_compute. discriminate.
  - vm_compute. reflexivity.
Defined.

End CacheSlotExamples.

(** ** [retryWithBackoff] *)

Section Retry.
Context `{JSHost}.

Lemma retry_from_exhausted env fn e cs baseDelayMs maxRetries remaining lastError w :
  sleep_resolves env -> fails_with env fn e cs ->
  (remaining <= maxRetries)%nat ->
  outcome (run env (retry_from fn baseDelayMs maxRetries remaining lastError) w)
  = Abrupt (match remaining with O => lastError | S _ => e end)
  /\ calls (trace (final (run env (retry_from fn baseDelayMs maxRetries remaining lastError) w)))
     = calls (trace w) ++ failed_attempts cs baseDelayMs (maxRetries - remaining) remaining.
Proof.
  intros Hsleep Hfn. revert lastError w.
  induction remaining as [|remaining IH]; intros lastError w Hle.
  - cbn. unfold failed_attempts. cbn. by rewrite app_nil_r.
  - cbn [retry_from]. rewrite run_try_catch.
    destruct (Hfn w) as [Hout Hcalls]. rewrite Hout. cbn [final outcome run bind await].
    set (w1 := request _ (console _ (final (run env fn w)))).
    destruct (Hsleep w1 (baseDelayMs * 2 ^ Z.of_nat (maxRetries - S remaining))) as [v Hv].
    destruct (env w1 (sleep (baseDelayMs * 2 ^ Z.of_nat (maxRetries - S remaining))))
      as [s dt]. cbn in Hv. subst s. cbn [bind].
    destruct (IH e (pass dt w1)) as [IHout IHcalls]; [lia|].
    split.
    + rewrite IHout. by destruct remaining.
    + rewrite IHcalls. unfold w1.
      cbn [trace pass set_clock request console emit set_trace].
      rewrite !calls_snoc. cbn [call_of]. rewrite app_nil_r, Hcalls.
      unfold failed_attempts. cbn [seq map concat].
      replace (maxRetries - remaining)%nat with (S (maxRetries - S remaining)) by lia.
      by rewrite <- !app_assoc.
Qed.

(** X3.  [retryWithBackoff(fn, maxRetries, baseDelayMs)] when every attempt
    fails: [fn] is called [maxRetries] times, each failure is followed by a
    sleep of [baseDelayMs * 2^attempt] milliseconds, the last one too, and
    then the error of [fn] is thrown.  With [maxRetries = 0] it throws
    [undefined] without calling [fn]. *)
Theorem retryWithBackoff_exhausted env fn e cs baseDelayMs maxRetries w :
  sleep_resolves env -> fails_with env fn e cs ->
  outcome (run env (retry_from fn baseDelayMs maxRetries maxRetries JUndefined) w)
  = Abrupt (match maxRetries with O => JUndefined | S _ => e end)
  /\ calls (trace (final (run env (retry_from fn baseDelayMs maxRetries maxRetries JUndefined) w)))
     = calls (trace w) ++ failed_attempts cs baseDelayMs 0 maxRetries.
Proof.
  intros Hsleep Hfn.
  destruct (retry_from_exhausted env fn e cs baseDelayMs maxRetries maxRetries JUndefined w
              Hsleep Hfn) as [Hout Hcalls]; [lia|].
  split; [exact Hout|]. rewrite Hcalls. by rewrite Nat.sub_diag.
Qed.

(** X4.  When the first attempt succeeds, [retryWithBackoff(fn)] is [fn]:
    the same result and state, no sleep and no warning. *)
Theorem retryWithBackoff_first_success env fn v w :
  outcome (run env fn w) = Normal v ->
  run env (retryWithBackoff fn) w = run env fn w.
Proof.
  intros Hout. unfold retryWithBackoff. cbn [retry_from].
  rewrite run_try_catch. by rewrite Hout.
Qed.

End Retry.

(** ** Location and weather *)

Section LocationWeather.
Context `{JSHost}.

Lemma retry_keeps_quiet w0 fn :
  Keeps (quiet_retry w0) fn -> Keeps (quiet_retry w0) (retryWithBackoff fn).
Proof.
  intros Hfn.
  keeps ltac:(intros ? (? & ? & ?); unfold quiet_retry; calls_simpl; done).
Qed.

Lemma retry_quiet env w fn :
  Keeps (quiet_retry w) fn -> quiet_retry w (final (run env (retryWithBackoff fn) w)).
Proof.
  intros Hfn. apply Keeps_run; [|by apply retry_keeps_quiet|done].
  intros dt w' Hw'. exact Hw'.
Qed.

Lemma location_down_fails env e :
  location_reply env (Rejected e) -> fails_with env (await get_location) e [get_location].
Proof.
  intros Hreply w. cbn.
  pose proof (Hreply (request get_location w)) as E.
  destruct (env (request get_location w) get_location) as [s dt]. cbn in E. subst s.
  cbn. by rewrite calls_snoc.
Qed.

(** X5.  [fetchLocation] while the location lookup keeps failing: five
    attempts, with sleeps of 2, 4, 8, 16 and 32 seconds after them, then the
    function gives up without throwing, having registered a new try in 30
    seconds.  No variable is set, the store and the surface are untouched
    and no weather lookup or photo refresh was started. *)
Theorem fetchLocation_backend_down env e w :
  sleep_resolves env -> location_reply env (Rejected e) ->
  outcome (run env fetchLocation w) = Normal JUndefined
  /\ calls (trace (final (run env fetchLocation w)))
     = calls (trace w) ++ [get_location; sleep 2000; get_location; sleep 4000;
                           get_location; sleep 8000; get_location; sleep 16000;
                           get_location; sleep 32000]
  /\ timers (trace (final (run env fetchLocation w)))
     = timers (trace w) ++ [("fetchLocation", 30000)]
  /\ variables (final (run env fetchLocation w)) = variables w
  /\ refreshes (trace (final (run env fetchLocation w))) = refreshes (trace w).
Proof.
  intros Hsleep Hreply.
  destruct (retry_from_exhausted env (await get_location) e [get_location] 2000 5 5
              JUndefined w Hsleep (location_down_fails env e Hreply)) as [Hout Hcalls]; [lia|].
  destruct (retry_quiet env w (await get_location)) as (Hvars & Htimers & Hrefreshes).
  { keeps ltac:(intros ? (? & ? & ?); unfold quiet_retry; calls_simpl; done). }
  unfold fetchLocation. rewrite run_try_catch, run_bind.
  unfold retryWithBackoff in *. rewrite Hout. cbn beta iota. rewrite Hout.
  cbn [outcome final run].
  set (w1 := final (run env (retry_from (await get_location) 2000 5 5 JUndefined) w)) in *.
  split; [reflexivity|]. split; [|split; [|split]].
  - calls_simpl. rewrite Hcalls. reflexivity.
  - calls_simpl. by rewrite Htimers.
  - exact Hvars.
  - trace_simpl. exact Hrefreshes.
Qed.

End LocationWeather.

(** ** What can throw and what cannot *)

Section Exceptions.
Context `{JSHost}.

Ltac returns_undefined := repeat ends_step ltac:(first [reflexivity | exact Logic.I]).

Lemma Ends_after (Q E : JSValue -> Prop) m f :
  (forall v, Ends Q E (f v)) -> Ends any_value E m -> Ends Q E (bind m f).
Proof. intros Hf Hm. apply Ends_bind with (Q1 := any_value); [exact Hm|auto]. Qed.

Lemma Ends_caught (Q : JSValue -> Prop) (E : JSValue -> Prop) body handler :
  Ends Q any_value body -> (forall e, Ends Q E (handler e)) ->
  Ends Q E (try_catch body handler).
Proof. intros Hb Hh. apply Ends_try_catch with (E1 := any_value); auto. Qed.

Lemma Ends_throws_any (Q : JSValue -> Prop) p : Ends Q no_value p -> Ends Q any_value p.
Proof. intros Hp. apply (Ends_weaken _ _ _ _ _ Hp); [auto|done]. Qed.

Lemma Ends_returns_any (Q E : JSValue -> Prop) p : Ends Q E p -> Ends any_value E p.
Proof. intros Hp. apply (Ends_weaken _ _ _ _ _ Hp); [done|auto]. Qed.

Lemma lift_ends (c : Completion JSValue) : Ends any_value any_value (lift c).
Proof. apply Ends_any. Qed.

Lemma displayPhoto_ends photo : Ends is_undefined any_value (displayPhoto photo).
Proof.
  unfold displayPhoto. apply Ends_after; [|apply Ends_any]. intros url.
  apply Ends_Upd. apply Ends_after; [|apply Ends_any]. intros _.
  returns_undefined.
  apply Ends_after; [|apply Ends_returns_any with (Q := is_undefined), Ends_throws_any,
                       renderDebug_ends].
  intros _. returns_undefined.
Qed.

Lemma fetch_after_cache_check_ends forceRefresh :
  Ends is_undefined any_value (fetch_after_cache_check forceRefresh).
Proof.
  unfold fetch_after_cache_check. returns_undefined.
  - apply Ends_after; [|apply Ends_returns_any with (Q := is_undefined), displayPhoto_ends].
    intros _. returns_undefined.
  - apply Ends_after; [|apply Ends_any]. intros queryResult.
    apply Ends_after; [|apply Ends_any]. intros query.
    apply Ends_Upd.
    apply Ends_after; [|apply Ends_any]. intros photo.
    apply Ends_after; [|apply Ends_any]. intros _.
    returns_undefined.
    apply Ends_after; [|apply Ends_returns_any with (Q := is_undefined), displayPhoto_ends].
    intros _. returns_undefined.
Qed.

Lemma fetchUnsplashPhoto_ends forceRefresh :
  Ends is_undefined any_value (fetchUnsplashPhoto forceRefresh).
Proof.
  unfold fetchUnsplashPhoto. apply Ends_Upd. apply Ends_caught.
  - unfold fetch_try. apply Ends_Read. intros w.
    apply Ends_bind with (Q1 := any_value); [apply Ends_any|]. intros cached _.
    destruct (negb forceRefresh && truthy cached); [|apply fetch_after_cache_check_ends].
    apply Ends_bind with (Q1 := any_value); [apply Ends_any|]. intros valid _.
    apply Ends_Upd. destruct (truthy valid);
      [apply displayPhoto_ends | apply fetch_after_cache_check_ends].
  - intros e. unfold fetch_catch. returns_undefined.
    apply Ends_bind with (Q1 := any_value); [apply Ends_any|]. intros cached _.
    destruct (truthy cached); [apply displayPhoto_ends | by constructor].
Qed.

Lemma checkPhotoContext_ends : Ends is_undefined no_value checkPhotoContext.
Proof.
  unfold checkPhotoContext. returns_undefined.
  apply Ends_bind with (Q1 := any_value).
  { destruct (getCachedPhoto_normal w) as [cached ->]. by constructor. }
  intros cached _. destruct (negb (truthy cached)); [by constructor|].
  apply Ends_caught.
  - apply Ends_Read. intros w'.
    apply Ends_after; [|apply Ends_any]. intros _.
    apply Ends_after; [|apply Ends_any]. intros isValid.
    destruct (negb (truthy isValid)); [|by constructor].
    apply Ends_Upd, fetchUnsplashPhoto_ends.
  - intros e. returns_undefined.
Qed.

Lemma updateWeather_ends location : Ends is_undefined no_value (updateWeather location).
Proof.
  unfold updateWeather. apply Ends_caught.
  - apply Ends_after; [|apply Ends_any]. intros weather.
    apply Ends_after; [|apply Ends_any]. intros _.
    apply fetchUnsplashPhoto_ends.
  - intros e. returns_undefined.
Qed.

Lemma fetchLocation_ends : Ends is_undefined no_value fetchLocation.
Proof.
  unfold fetchLocation. apply Ends_caught.
  - apply Ends_after; [|apply Ends_any]. intros location.
    apply Ends_after; [|apply Ends_any]. intros _.
    apply Ends_Upd, Ends_throws_any, updateWeather_ends.
  - intros e. returns_undefined.
Qed.

Lemma updateTimeAndDate_ends : Ends is_undefined no_value updateTimeAndDate.
Proof.
  unfold updateTimeAndDate. apply Ends_Await. intros [timeData|error].
  - apply Ends_bind with (Q1 := any_value); [|intros; by constructor].
    apply Ends_try_catch with (E1 := any_value); [apply Ends_any|].
    intros e _. returns_undefined.
  - returns_undefined.
Qed.

Lemma loadSettings_returns : Ends is_undefined no_value loadSettings.
Proof.
  unfold loadSettings. apply Ends_caught.
  - apply Ends_after; [|apply Ends_any]. intros settings.
    returns_undefined. unfold applyDisplaySettings.
    repeat case_match; by constructor.
  - intros e. returns_undefined.
Qed.

Lemma reloadSettings_ends : Ends is_undefined no_value reloadSettings.
Proof.
  unfold reloadSettings. apply Ends_Upd.
  apply Ends_after; [|apply Ends_returns_any with (Q := is_undefined), loadSettings_returns].
  intros _. apply Ends_bind with (Q1 := any_value).
  { apply Ends_Read. intros w. destruct (truthy (userLocation w)).
    - apply Ends_returns_any with (Q := is_undefined), updateWeather_ends.
    - by constructor. }
  intros _ _.
  apply Ends_after;
    [|apply Ends_returns_any with (Q := is_undefined), updateTimeAndDate_ends].
  intros _. returns_undefined.
Qed.

(** X6.  The callbacks of the timers and of the settings event never throw,
    whatever the backend answers and whatever the state: the scheduler tick
    [checkPhotoContext], [updateWeather], [fetchLocation],
    [updateTimeAndDate], [loadSettings], [reloadSettings] and the debug
    reporter each return [undefined]. *)
Theorem callbacks_never_throw env w :
  outcome (run env checkPhotoContext w) = Normal JUndefined
  /\ (forall location, outcome (run env (updateWeather location) w) = Normal JUndefined)
  /\ outcome (run env fetchLocation w) = Normal JUndefined
  /\ outcome (run env updateTimeAndDate w) = Normal JUndefined
  /\ outcome (run env loadSettings w) = Normal JUndefined
  /\ outcome (run env reloadSettings w) = Normal JUndefined
  /\ outcome (run env renderDebug w) = Normal JUndefined.
Proof.
  repeat split; intros; apply Ends_returns_undefined;
    auto using checkPhotoContext_ends, updateWeather_ends, fetchLocation_ends,
      updateTimeAndDate_ends, loadSettings_returns, reloadSettings_ends, renderDebug_ends.
Qed.

End Exceptions.

Section Weather.
Context `{JSHost}.

(** The call [updateWeather] retries. *)
Lemma weather_down_fails env location e :
  weather_reply env (Rejected e) ->
  fails_with env
    (latitude <- lift (member location "latitude") ;;
     longitude <- lift (member location "longitude") ;;
     await (get_weather latitude longitude))
    (if nullish location then TypeError "latitude" else e)
    (if nullish location then []
     else [get_weather (get_field location "latitude") (get_field location "longitude")]).
Proof.
  intros Hreply w. unfold member. destruct (nullish location); cbn.
  - by rewrite app_nil_r.
  - match goal with |- context [env ?W (get_weather ?a ?b)] =>
      pose proof (Hreply W a b) as E; destruct (env W (get_weather a b)) as [s dt] end.
    cbn in E. subst s. cbn. by rewrite calls_snoc.
Qed.

(** X7.  [updateWeather(location)] while the weather lookup keeps failing:
    five attempts with the sleeps 2, 4, 8, 16 and 32 seconds, then it gives
    up without throwing and registers a new try in 30 seconds; the weather
    and every other variable are as before and no photo refresh is started.
    On a [location] that is [null] the five attempts fail without a call to
    the backend, with the same sleeps. *)
Theorem updateWeather_backend_down env location e w :
  sleep_resolves env -> weather_reply env (Rejected e) ->
  outcome (run env (updateWeather location) w) = Normal JUndefined
  /\ calls (trace (final (run env (updateWeather location) w)))
     = calls (trace w)
       ++ failed_attempts
            (if nullish location then []
             else [get_weather (get_field location "latitude")
                               (get_field location "longitude")])
            2000 0 5
  /\ timers (trace (final (run env (updateWeather location) w)))
     = timers (trace w) ++ [("updateWeather", 30000)]
  /\ variables (final (run env (updateWeather location) w)) = variables w
  /\ refreshes (trace (final (run env (updateWeather location) w))) = refreshes (trace w).
Proof.
  intros Hsleep Hreply.
  set (fn := (latitude <- lift (member location "latitude") ;;
              longitude <- lift (member location "longitude") ;;
              await (get_weather latitude longitude))%prog).
  destruct (retry_from_exhausted env fn _ _ 2000 5 5 JUndefined w Hsleep
              (weather_down_fails env location e Hreply)) as [Hout Hcalls]; [lia|].
  destruct (retry_quiet env w fn) as (Hvars & Htimers & Hrefreshes).
  { unfold fn. keeps ltac:(intros ? (? & ? & ?); unfold quiet_retry; calls_simpl; done). }
  unfold updateWeather. fold fn. rewrite run_try_catch, run_bind.
  unfold retryWithBackoff in *. rewrite Hout. cbn beta iota. rewrite Hout.
  cbn [outcome final run].
  set (w1 := final (run env (retry_from fn 2000 5 5 JUndefined) w)) in *.
  split; [reflexivity|]. split; [|split; [|split]].
  - cbn [trace emit console set_trace]. rewrite !calls_snoc. cbn [call_of].
    rewrite !app_nil_r, Hcalls. reflexivity.
  - cbn [trace emit console set_trace]. rewrite !timers_snoc. cbn [timer_of].
    by rewrite app_nil_r, Htimers.
  - exact Hvars.
  - cbn [trace emit console set_trace]. rewrite !refreshes_snoc. cbn [refresh_of].
    by rewrite !app_nil_r.
Qed.

(** X8.  [updateWeather(location)] when the weather lookup answers: the
    first call is the lookup at the coordinates of [location], with no
    sleep; the weather is recorded in [currentWeather] and one photo refresh
    is started, not forced.  Whatever that refresh does, the weather stays
    recorded and [updateWeather] returns without throwing. *)
Theorem updateWeather_records_weather env location weather w :
  weather_reply env (Resolved weather) ->
  nullish location = false -> nullish weather = false ->
  outcome (run env (updateWeather location) w) = Normal JUndefined
  /\ currentWeather (final (run env (updateWeather location) w)) = weather
  /\ refreshes (trace (final (run env (updateWeather location) w)))
     = refreshes (trace w) ++ [false]
  /\ exists rest,
       calls (trace (final (run env (updateWeather location) w)))
       = calls (trace w)
         ++ get_weather (get_field location "latitude") (get_field location "longitude")
            :: get_precipitation_display weather :: rest.
Proof.
  intros Hreply Hlocation Hweather.
  split; [apply Ends_returns_undefined, updateWeather_ends|].
  set (lookup := get_weather (get_field location "latitude") (get_field location "longitude")).
  set (Inv := fun w' : World =>
         currentWeather w' = weather
         /\ refreshes (trace w') = refreshes (trace w) ++ [false]
         /\ exists rest,
              calls (trace w') = calls (trace w) ++ lookup :: get_precipitation_display weather
                                                    :: rest).
  change (Inv (final (run env (updateWeather location) w))).
  unfold updateWeather, retryWithBackoff, member. rewrite Hlocation.
  cbn [retry_from lift bind try_catch await run].
  match goal with |- context [env ?W (get_weather ?a ?b)] =>
    pose proof (Hreply W a b) as E; destruct (env W (get_weather a b)) as [s dt] end.
  cbn in E. subst s.
  cbn [bind try_catch run]. unfold updateWeatherDisplay, member. rewrite Hweather.
  cbn [lift bind try_catch run]. unfold fetchUnsplashPhoto. cbn [try_catch run].
  apply Keeps_run.
  - intros dt' w' Hw'. exact Hw'.
  - keeps ltac:(intros ? (? & Hr & rest & Hc); unfold Inv, cachePhoto; calls_simpl;
                rewrite ?Hr, ?Hc, <- ?app_assoc; repeat split; try done; eauto).
  - unfold Inv. calls_simpl. repeat split. exists []. by rewrite <- app_assoc.
Qed.

End Weather.

(** ** Settings *)

Section Settings.
Context `{JSHost}.

(** X9.  [loadSettings] takes the settings the backend returns, and falls
    back to the built-in defaults (30 minutes refresh interval) in two
    cases: when the backend call fails, and when the settings returned have
    no [display] section, since [applyDisplaySettings] then throws inside the
    same [try].  Nothing but [userSettings] is changed. *)
Theorem loadSettings_result env w :
  variables (final (run env loadSettings w))
  = variables
      (set_userSettings
         match (env (request get_settings w) get_settings).1 with
         | Resolved settings =>
             if truthy settings && nullish (get_field settings "display")
             then default_settings else settings
         | Rejected _ => default_settings
         end w)
  /\ getRefreshIntervalMs (set_userSettings default_settings w) = JNum (30 * 60000).
Proof.
  split; [|reflexivity].
  unfold loadSettings. cbn [try_catch await bind run].
  destruct (env (request get_settings w) get_settings) as [[settings|e] dt];
    cbn [fst try_catch bind run]; [|reflexivity].
  unfold applyDisplaySettings, member.
  cbn [userSettings console emit set_trace set_userSettings pass set_clock request].
  destruct (truthy settings); cbn [negb andb lift try_catch run final]; [|reflexivity].
  destruct (nullish (get_field settings "display")); reflexivity.
Qed.

End Settings.

(** ** A refresh that rejects *)

Section RefreshRejects.
Context `{JSHost}.

(** The [catch] block of the refresh on a persisted entry without a photo:
    [displayPhoto(cached.photo, ...)] throws and nothing catches it. *)
Lemma fetch_catch_throws env e w cached :
  getCachedPhoto w = Normal cached -> truthy cached = true ->
  nullish (get_field cached "photo") = true ->
  run env (fetch_catch e) w
  = mkResult (console "Failed to fetch Unsplash photo:"
                (set_lastPhotoFetchError (error_text e) w))
             (Abrupt (TypeError "url")) [].
Proof.
  intros Hcached Htruthy Hphoto. unfold fetch_catch. cbn [run].
  match goal with |- context [getCachedPhoto ?W] =>
    rewrite (getCachedPhoto_ext w W eq_refl), Hcached end.
  cbn [lift bind]. rewrite Htruthy. by apply displayPhoto_nullish.
Qed.

Lemma refresh_body_rethrows env forceRefresh e w cached :
  fetch_reply env (Rejected e) ->
  fetches (trace (final (run env (try_catch (fetch_try forceRefresh) fetch_catch) w)))
    <> fetches (trace w) ->
  getCachedPhoto w = Normal cached -> truthy cached = true ->
  nullish (get_field cached "photo") = true ->
  outcome (run env (try_catch (fetch_try forceRefresh) fetch_catch) w)
  = Abrupt (TypeError "url")
  /\ lastPhotoFetchError (final (run env (try_catch (fetch_try forceRefresh) fetch_catch) w))
     = error_text e
  /\ store_and_surface (final (run env (try_catch (fetch_try forceRefresh) fetch_catch) w))
     = store_and_surface w
  /\ last (trace (final (run env (try_catch (fetch_try forceRefresh) fetch_catch) w)))
     = Some (EvConsole "Failed to fetch Unsplash photo:").
Proof.
  intros Hfetch Hcalled Hcached Htruthy Hphoto. revert Hcalled.
  rewrite run_try_catch.
  destruct (fetch_try_failure env forceRefresh e w Hfetch) as [Hsame | [Hout Hframe]].
  - intros Hcalled. exfalso. apply Hcalled.
    destruct (outcome (run env (fetch_try forceRefresh) w)) eqn:Hbody; [done|].
    cbn [final].
    destruct (fetch_catch_effects env e0 (final (run env (fetch_try forceRefresh) w)))
      as (_ & _ & Hf & _).
    by rewrite Hf.
  - intros _. rewrite Hout. cbn [final outcome].
    set (w1 := final (run env (fetch_try forceRefresh) w)) in *.
    assert (Hc1 : getCachedPhoto w1 = Normal cached).
    { rewrite <- Hcached. apply getCachedPhoto_ext.
      unfold store_and_surface in Hframe. by injection Hframe. }
    rewrite (fetch_catch_throws env e w1 cached Hc1 Htruthy Hphoto). cbn [final outcome].
    split; [reflexivity|]. split; [reflexivity|]. split.
    + rewrite <- Hframe. unfold store_and_surface. trace_simpl. reflexivity.
    + cbn. apply last_snoc.
Qed.

(** X10.  The refresh can reject.  When the photo provider fails and the
    persisted entry parses to a value without a [photo] (an object without
    the field, a number, a string), the [catch] block of
    [fetchUnsplashPhoto] records the provider's error and then throws a
    [TypeError] of its own from [displayPhoto(cached.photo, ...)]; the store
    and the surface are as they were. *)
Theorem fetchUnsplashPhoto_rejects env forceRefresh e w cached :
  fetch_reply env (Rejected e) ->
  fetches (trace (final (run env (fetchUnsplashPhoto forceRefresh) w))) <> fetches (trace w) ->
  getCachedPhoto w = Normal cached -> truthy cached = true ->
  nullish (get_field cached "photo") = true ->
  outcome (run env (fetchUnsplashPhoto forceRefresh) w) = Abrupt (TypeError "url")
  /\ lastPhotoFetchError (final (run env (fetchUnsplashPhoto forceRefresh) w)) = error_text e
  /\ store_and_surface (final (run env (fetchUnsplashPhoto forceRefresh) w))
     = store_and_surface w.
Proof.
  intros Hfetch Hcalled Hcached Htruthy Hphoto.
  unfold fetchUnsplashPhoto in *. cbn [run] in *.
  set (w1 := emit (EvEnter (FnFetchUnsplashPhoto forceRefresh)) w) in *.
  destruct (refresh_body_rethrows env forceRefresh e w1 cached Hfetch)
    as (Hout & Herr & Hframe & _); [|exact Hcached|exact Htruthy|exact Hphoto|].
  { intros Hsame. apply Hcalled. rewrite Hsame. unfold w1. trace_simpl. reflexivity. }
  split; [exact Hout|]. split; [exact Herr|].
  rewrite Hframe. unfold w1, store_and_surface. trace_simpl. reflexivity.
Qed.

(** X11.  The manual command [refreshPhoto()] rejects in the same
    situation: with weather known, the query built, the photo provider
    failing and a persisted entry without a photo, the promise it returns is
    rejected with the [TypeError]; the last line logged is the failure, not
    [Photo refreshed!]. *)
Theorem refreshPhoto_rejects env e w cached queryResult :
  truthy (currentWeather w) = true ->
  query_reply env (Resolved queryResult) -> nullish queryResult = false ->
  fetch_reply env (Rejected e) ->
  getCachedPhoto w = Normal cached -> truthy cached = true ->
  nullish (get_field cached "photo") = true ->
  outcome (run env refreshPhoto w) = Abrupt (TypeError "url")
  /\ last (trace (final (run env refreshPhoto w)))
     = Some (EvConsole "Failed to fetch Unsplash photo:")
  /\ localStorage (final (run env refreshPhoto w)) = localStorage w.
Proof.
  intros Hweather Hquery Hresult Hfetch Hcached Htruthy Hphoto.
  unfold refreshPhoto. cbn [run bind].
  set (w1 := console "Manually refreshing photo..." (emit (EvEnter FnRefreshPhoto) w)).
  assert (Hw1 : truthy (currentWeather w1) = true) by exact Hweather.
  rewrite Hw1. cbn [negb andb bind].
  pose proof (forced_refresh_fetches env w1 queryResult Hw1 Hquery Hresult) as Hcalled.
  rewrite run_bind.
  unfold fetchUnsplashPhoto in *. cbn [run] in *.
  set (w2 := emit (EvEnter (FnFetchUnsplashPhoto true)) w1) in *.
  destruct (refresh_body_rethrows env true e w2 cached Hfetch)
    as (Hout & Herr & Hframe & Hlast); [|exact Hcached|exact Htruthy|exact Hphoto|].
  { rewrite Hcalled. unfold w2, w1. trace_simpl. intros Heq.
    apply (f_equal (@length JSValue)) in Heq. rewrite length_app in Heq. cbn in Heq. lia. }
  rewrite Hout. split; [exact Hout|]. split; [exact Hlast|].
  unfold store_and_surface in Hframe. injection Hframe as Hls _ _ _. exact Hls.
Qed.

End RefreshRejects.

(** ** The display *)

Section DisplayEffects.
Context `{JSHost}.

Lemma renderDebug_timers env w :
  timers (trace (final (run env renderDebug w))) = timers (trace w)
  /\ userSettings (final (run env renderDebug w)) = userSettings w.
Proof.
  apply (Keeps_run (fun w' => timers (trace w') = timers (trace w)
                              /\ userSettings w' = userSettings w)).
  - intros dt w' Hw'. exact Hw'.
  - keeps ltac:(intros ? [? ?]; calls_simpl; done).
  - done.
Qed.

Lemma displayPhoto_timers env photo w :
  nullish photo = false ->
  timers (trace (final (run env (displayPhoto photo) w)))
  = timers (trace w)
    ++ ("hideCredit", 10000)
       :: (if truthy (opt_member (opt_member (userSettings w) "display") "show_debug")
           then [("renderDebug", 1000)] else []).
Proof.
  intros Hphoto. unfold displayPhoto, member. rewrite Hphoto. cbn [lift bind run].
  assert (Htail : forall w1 : World,
            timers (trace w1) = timers (trace w) -> userSettings w1 = userSettings w ->
            timers (trace (final (run env
              (Upd (fun w => emit (EvPresent photo)
                                  (set_backgroundImage (get_field photo "url") w))
              (Upd (fun w => emit (EvTimer "hideCredit" 10000) (set_creditTimeout true w))
              (Upd (fun w =>
                      if truthy (get_field photo "download_location")
                      then request (trigger_unsplash_download
                                      (get_field photo "download_location")) w
                      else w)
              (Upd (request (post_photo_current
                      (JObj [("url", get_field photo "url");
                             ("author", get_field photo "author");
                             ("author_url", get_field photo "author_url")])))
              (Read (fun w =>
                 if truthy (opt_member (opt_member (userSettings w) "display") "show_debug")
                 then renderDebug ;;
                      Upd (fun w => emit (EvTimer "renderDebug" 1000)
                                         (set_debugInterval true w))
                          (Ret JUndefined)
                 else Ret JUndefined)))))) w1)))
            = timers (trace w)
              ++ ("hideCredit", 10000)
                 :: (if truthy (opt_member (opt_member (userSettings w) "display") "show_debug")
                     then [("renderDebug", 1000)] else [])).
  { intros w1 Htimers Hsettings. cbn [run].
    set (w2 := request _ _).
    assert (Hw2 : timers (trace w2) = timers (trace w) ++ [("hideCredit", 10000)]).
    { unfold w2. destruct (truthy (get_field photo "download_location"));
        calls_simpl; by rewrite Htimers. }
    assert (Hs2 : userSettings w2 = userSettings w).
    { unfold w2. destruct (truthy (get_field photo "download_location")); exact Hsettings. }
    rewrite Hs2.
    destruct (truthy (opt_member (opt_member (userSettings w) "display") "show_debug")).
    - rewrite run_bind, (Ends_returns_undefined env renderDebug w2 renderDebug_ends).
      cbn [final run]. destruct (renderDebug_timers env w2) as [Ht _].
      cbn [trace emit set_trace set_debugInterval]. rewrite timers_snoc. cbn [timer_of].
      rewrite Ht, Hw2. by rewrite <- app_assoc.
    - cbn [run final]. by rewrite Hw2. }
  match goal with |- context [env ?W ?c] => destruct (env W c) as [[v|e] dt] end;
    cbn [bind run]; apply Htail; calls_simpl; reflexivity.
Qed.

(** X12.  [displayPhoto(photo, ...)].  On [null] or [undefined] it throws
    at once and changes nothing.  On any other photo it returns, also when
    the image fails to load: the photo is presented once, its url is the
    background and [currentPhotoUrl], the credit's auto-hide timer is set
    anew (10 seconds) and, with [show_debug] on, the debug reporter is
    started at a cadence of one second.  In no case does it write the Cache
    Store or the Prefetch Buffer, call the photo provider or the validity
    oracle, or start a refresh. *)
Theorem displayPhoto_effects env photo w :
  (nullish photo = true ->
     run env (displayPhoto photo) w = mkResult w (Abrupt (TypeError "url")) [])
  /\ (nullish photo = false ->
      outcome (run env (displayPhoto photo) w) = Normal JUndefined
      /\ presents (trace (final (run env (displayPhoto photo) w))) = presents (trace w) ++ [photo]
      /\ backgroundImage (final (run env (displayPhoto photo) w)) = get_field photo "url"
      /\ currentPhotoUrl (final (run env (displayPhoto photo) w)) = get_field photo "url"
      /\ timers (trace (final (run env (displayPhoto photo) w)))
         = timers (trace w)
           ++ ("hideCredit", 10000)
              :: (if truthy (opt_member (opt_member (userSettings w) "display") "show_debug")
                  then [("renderDebug", 1000)] else []))
  /\ outside_display (final (run env (displayPhoto photo) w)) = outside_display w.
Proof.
  split; [apply displayPhoto_nullish|]. split; [|apply displayPhoto_outside].
  intros Hphoto.
  destruct (displayPhoto_presents env photo w Hphoto) as (H1 & H2 & H3 & H4).
  repeat split; try done. by apply displayPhoto_timers.
Qed.

End DisplayEffects.

(** ** The scheduler tick *)

Section Tick.
Context `{JSHost}.

(** X13.  A tick that finds nothing cached does nothing: when the read of
    the Cache Store is [null] (no entry, an empty or an unparsable one) or
    another falsy value, [checkPhotoContext] returns at once; the validity
    oracle is not asked, nothing is prefetched or refreshed and the state
    is left as it was. *)
Theorem checkPhotoContext_without_cache env w cached :
  getCachedPhoto w = Normal cached -> truthy cached = false ->
  run env checkPhotoContext w
  = mkResult (emit (EvEnter FnCheckPhotoContext) w) (Normal JUndefined) [].
Proof.
  intros Hcached Htruthy. unfold checkPhotoContext. cbn [run].
  assert (Hc1 : getCachedPhoto (emit (EvEnter FnCheckPhotoContext) w) = Normal cached)
    by exact Hcached.
  rewrite Hc1. cbn [lift bind]. by rewrite Htruthy.
Qed.

(** X14.  A tick on which the validity oracle reports the entry valid
    starts no refresh: the Cache Store, the surface and the diagnostics of
    the refresh are as before.  When no prefetch is due either, the one call
    of the tick is the oracle's, with the entry's timestamp, and every
    variable is unchanged. *)
Theorem checkPhotoContext_valid env w cached answer :
  getCachedPhoto w = Normal cached -> truthy cached = true ->
  oracle_reply env (Resolved answer) -> truthy answer = true ->
  cache_and_surface (final (run env checkPhotoContext w)) = cache_and_surface w
  /\ (prefetch_due cached w = false ->
      variables (final (run env checkPhotoContext w)) = variables w
      /\ calls (trace (final (run env checkPhotoContext w)))
         = calls (trace w) ++ [is_cache_valid (get_field cached "timestamp")]).
Proof.
  intros Hcached Htruthy Horacle Hanswer.
  unfold checkPhotoContext. cbn [run].
  set (w1 := emit (EvEnter FnCheckPhotoContext) w).
  assert (Hc1 : getCachedPhoto w1 = Normal cached) by exact Hcached.
  rewrite Hc1. cbn [lift bind]. rewrite Htruthy. cbn [negb].
  rewrite run_try_catch. cbn [run]. rewrite run_bind.
  assert (Hdue : prefetch_due cached w1 = prefetch_due cached w) by reflexivity.
  split.
  - set (first_part := if prefetch_due cached w1 then prefetchNextPhoto else Ret JUndefined).
    assert (Hout : outcome (run env first_part w1) = Normal JUndefined).
    { apply Ends_returns_undefined. unfold first_part.
      destruct (prefetch_due cached w1); [apply prefetchNextPhoto_ends|by constructor]. }
    assert (Hframe : cache_and_surface (final (run env first_part w1)) = cache_and_surface w).
    { apply (Keeps_run (fun w' => cache_and_surface w' = cache_and_surface w)); [done| |].
      - unfold first_part. destruct (prefetch_due cached w1);
          [apply prefetchNextPhoto_keeps_cache_and_surface|constructor].
      - unfold w1, cache_and_surface. trace_simpl. reflexivity. }
    rewrite Hout. cbn -[first_part].
    set (w2 := final (run env first_part w1)) in *.
    env_step env. cbn -[first_part]. rewrite Hanswer. cbn -[first_part].
    rewrite <- Hframe. unfold cache_and_surface. trace_simpl. reflexivity.
  - intros Hnot. rewrite Hdue, Hnot. cbn [run outcome final bind await].
    env_step env. cbn [bind]. rewrite Hanswer. cbn [negb run outcome final].
    split; [reflexivity|]. unfold w1. calls_simpl. reflexivity.
Qed.

(** X15.  The tick comes every 5 minutes ([init]); the prefetch window is
    the last minute of the refresh interval ([checkPhotoContext]).  So of two
    ticks 5 minutes or more apart at most the first finds the prefetch due
    for an entry; and an entry whose age at a tick is in the 4 minutes before
    the window is not prefetched at all: not at that tick, and at no tick 5
    minutes or more later, when it has expired. *)
Theorem prefetch_window_met_once cached w w' t ttl :
  get_field cached "timestamp" = JNum t ->
  getRefreshIntervalMs w = JNum ttl -> getRefreshIntervalMs w' = JNum ttl ->
  clock w + 5 * 60 * 1000 <= clock w' ->
  (prefetch_due cached w = true -> prefetch_due cached w' = false)
  /\ (ttl - 5 * 60 * 1000 <= clock w - t < ttl - 60 * 1000 ->
      prefetch_due cached w = false /\ prefetch_due cached w' = false).
Proof.
  intros Ht Httl Httl' Hlater.
  rewrite (prefetch_due_interval cached w t ttl Ht Httl),
    (prefetch_due_interval cached w' t ttl Ht Httl').
  split.
  - intros Hdue. apply andb_prop in Hdue as [Hdue _]. apply andb_prop in Hdue as [Hlo Hhi].
    apply Z.leb_le in Hlo. apply Z.ltb_lt in Hhi.
    assert ((clock w' - t <? ttl) = false) as -> by (apply Z.ltb_ge; lia).
    by rewrite andb_false_r.
  - intros [Hlo Hhi]. split.
    + assert ((ttl - 60000 <=? clock w - t) = false) as -> by (apply Z.leb_gt; lia). done.
    + assert ((clock w' - t <? ttl) = false) as -> by (apply Z.ltb_ge; lia).
      by rewrite andb_false_r.
Qed.

End Tick.

(** ** The paths of a refresh *)

Section RefreshPaths.
Context `{JSHost}.


Lemma run_Upd env f k w : run env (Upd f k) w = run env k (f w).
Proof. reflexivity. Qed.




(** X17.  A refresh that is not forced reuses a valid entry, with or
    without weather: the oracle is asked with the entry's timestamp, its
    answer is kept in [lastCacheValid], and on a truthy answer the cached
    photo is presented; the photo provider is not called, nothing is
    committed and the store and the Prefetch Buffer are untouched. *)
Theorem refresh_reuses_valid_entry env w cached answer :
  getCachedPhoto w = Normal cached -> truthy cached = true ->
  nullish (get_field cached "photo") = false ->
  oracle_reply env (Resolved answer) -> truthy answer = true ->
  outcome (run env (fetchUnsplashPhoto false) w) = Normal JUndefined
  /\ validity_checks (trace (final (run env (fetchUnsplashPhoto false) w)))
     = validity_checks (trace w) ++ [get_field cached "timestamp"]
  /\ lastCacheValid (final (run env (fetchUnsplashPhoto false) w)) = answer
  /\ presents (trace (final (run env (fetchUnsplashPhoto false) w)))
     = presents (trace w) ++ [get_field cached "photo"]
  /\ backgroundImage (final (run env (fetchUnsplashPhoto false) w))
     = get_field (get_field cached "photo") "url"
  /\ fetches (trace (final (run env (fetchUnsplashPhoto false) w))) = fetches (trace w)
  /\ commits (trace (final (run env (fetchUnsplashPhoto false) w))) = commits (trace w)
  /\ localStorage (final (run env (fetchUnsplashPhoto false) w)) = localStorage w
  /\ prefetchedPhoto (final (run env (fetchUnsplashPhoto false) w)) = prefetchedPhoto w.
Proof.
  intros Hcached Htruthy Hphoto Horacle Hanswer.
  unfold fetchUnsplashPhoto. rewrite run_Upd.
  set (w1 := emit (EvEnter (FnFetchUnsplashPhoto false)) w).
  assert (Hc1 : getCachedPhoto w1 = Normal cached) by exact Hcached.
  assert (Hbody : exists w2,
            run env (fetch_try false) w1 = run env (displayPhoto (get_field cached "photo")) w2
            /\ variables w2 = variables (set_lastCacheValid answer w)
            /\ trace w2 = trace w ++ [EvEnter (FnFetchUnsplashPhoto false);
                                      EvRequest (is_cache_valid (get_field cached "timestamp"))]).
  { unfold fetch_try. cbn [run]. rewrite Hc1. cbn [lift bind negb andb]. rewrite Htruthy.
    cbn [await bind run]. env_step env. cbn [bind]. rewrite run_Upd, Hanswer.
    eexists. split; [reflexivity|]. split; [reflexivity|].
    cbn [trace pass set_clock request emit set_trace set_lastCacheValid].
    unfold w1. cbn [trace emit set_trace]. by rewrite <- app_assoc. }
  destruct Hbody as (w2 & Hbody & Hvars & Htrace).
  destruct (displayPhoto_presents env _ w2 Hphoto) as (Hout & Hp & Hbg & _).
  pose proof (displayPhoto_outside env (get_field cached "photo") w2) as Hframe.
  rewrite run_try_catch, Hbody, Hout.
  unfold outside_display in Hframe. unfold variables, set_lastCacheValid in Hvars.
  cbn [localStorage currentWeather currentPhotoUrl debugInterval creditTimeout prefetchedPhoto
       userSettings lastCacheValid lastPhotoFetchError userLocation backgroundImage] in Hvars.
  assert (E1 : localStorage (final (run env (displayPhoto (get_field cached "photo")) w2))
               = localStorage w) by congruence.
  assert (E2 : prefetchedPhoto (final (run env (displayPhoto (get_field cached "photo")) w2))
               = prefetchedPhoto w) by congruence.
  assert (E3 : lastCacheValid (final (run env (displayPhoto (get_field cached "photo")) w2))
               = answer) by congruence.
  assert (E4 : commits (trace (final (run env (displayPhoto (get_field cached "photo")) w2)))
               = commits (trace w2)) by congruence.
  assert (E5 : fetches (trace (final (run env (displayPhoto (get_field cached "photo")) w2)))
               = fetches (trace w2)) by congruence.
  assert (E6 : validity_checks
                 (trace (final (run env (displayPhoto (get_field cached "photo")) w2)))
               = validity_checks (trace w2)) by congruence.
  rewrite E1, E2, E3, E4, E5, E6, Hp, Hbg, Htrace.
  unfold commits, fetches, validity_checks, presents. rewrite !omap_app. cbn [omap]. cbn.
  rewrite !app_nil_r. done.
Qed.

(** Without weather the part of the refresh after the cache check only
    logs that it is waiting. *)
Lemma fetch_after_cache_check_waits env forceRefresh w :
  truthy (currentWeather w) = false ->
  run env (fetch_after_cache_check forceRefresh) w
  = mkResult (console "Waiting for weather data before fetching photo..." w)
             (Normal JUndefined) [].
Proof. intros Hweather. unfold fetch_after_cache_check. cbn [run]. by rewrite Hweather. Qed.

(** X18.  Without weather no refresh fetches.  While [currentWeather] is
    unset, [fetchUnsplashPhoto] calls the photo provider in no case, commits
    nothing and leaves the store and the Prefetch Buffer as they are,
    whatever the oracle answers; a forced refresh does nothing but log that
    it is waiting for the weather. *)
Theorem refresh_waits_for_weather env forceRefresh w :
  truthy (currentWeather w) = false ->
  fetches (trace (final (run env (fetchUnsplashPhoto forceRefresh) w))) = fetches (trace w)
  /\ commits (trace (final (run env (fetchUnsplashPhoto forceRefresh) w))) = commits (trace w)
  /\ localStorage (final (run env (fetchUnsplashPhoto forceRefresh) w)) = localStorage w
  /\ prefetchedPhoto (final (run env (fetchUnsplashPhoto forceRefresh) w)) = prefetchedPhoto w
  /\ run env (fetchUnsplashPhoto true) w
     = mkResult (console "Waiting for weather data before fetching photo..."
                   (emit (EvEnter (FnFetchUnsplashPhoto true)) w))
                (Normal JUndefined) [].
Proof.
  intros Hweather.
  set (J := fun w' : World =>
         (fetches (trace w'), commits (trace w'), localStorage w', prefetchedPhoto w')
         = (fetches (trace w), commits (trace w), localStorage w, prefetchedPhoto w)).
  assert (Hpass : forall dt w', J w' -> J (pass dt w')) by (intros dt w' Hw'; exact Hw').
  assert (Hdisplay : forall photo, Keeps J (displayPhoto photo)).
  { intros photo. keeps ltac:(intros ? Hj; unfold J in *; rewrite <- Hj; trace_simpl; reflexivity). }
  assert (HJ : J (final (run env (fetchUnsplashPhoto forceRefresh) w))).
  { unfold fetchUnsplashPhoto. rewrite run_Upd.
    set (w1 := emit (EvEnter (FnFetchUnsplashPhoto forceRefresh)) w).
    assert (Hw1 : truthy (currentWeather w1) = false) by exact Hweather.
    assert (J1 : J w1) by (unfold J, w1; trace_simpl; reflexivity).
    apply (Keeps_run_try_catch J Hpass).
    - unfold fetch_try. cbn [run].
      destruct (getCachedPhoto_normal w1) as [cached ->]. cbn [lift bind].
      destruct (negb forceRefresh && truthy cached).
      + cbn [await bind run].
        match goal with |- context [env ?W ?c] => destruct (env W c) as [[v|e] dt] end;
          cbn [bind].
        * rewrite run_Upd. destruct (truthy v).
          -- apply (Keeps_run J Hpass); [apply Hdisplay|].
             unfold J in *. rewrite <- J1. trace_simpl. reflexivity.
          -- rewrite fetch_after_cache_check_waits by exact Hweather.
             cbn [final]. unfold J in *. rewrite <- J1. trace_simpl. reflexivity.
        * cbn [run final]. unfold J in *. rewrite <- J1. trace_simpl. reflexivity.
      + rewrite fetch_after_cache_check_waits by exact Hw1.
        cbn [final]. unfold J in *. rewrite <- J1. trace_simpl. reflexivity.
    - intros e. unfold fetch_catch.
      keeps ltac:(intros ? Hj; unfold J in *; rewrite <- Hj; trace_simpl; reflexivity). }
  unfold J in HJ. injection HJ as H1 H2 H3 H4.
  repeat split; try assumption.
  unfold fetchUnsplashPhoto. rewrite run_Upd, run_try_catch.
  assert (Hbody : run env (fetch_try true) (emit (EvEnter (FnFetchUnsplashPhoto true)) w)
                  = mkResult (console "Waiting for weather data before fetching photo..."
                                (emit (EvEnter (FnFetchUnsplashPhoto true)) w))
                             (Normal JUndefined) []).
  { unfold fetch_try. cbn [run].
    destruct (getCachedPhoto_normal (emit (EvEnter (FnFetchUnsplashPhoto true)) w))
      as [cached ->].
    cbn [lift bind negb andb]. by apply fetch_after_cache_check_waits. }
  by rewrite Hbody.
Qed.

(** X19.  The manual command before anything is known: with neither
    weather nor location, [refreshPhoto()] fetches nothing and changes no
    variable, and still logs [Photo refreshed!] and resolves. *)
Theorem refreshPhoto_without_weather env w :
  truthy (currentWeather w) = false -> truthy (userLocation w) = false ->
  run env refreshPhoto w
  = mkResult
      (console "Photo refreshed!"
         (console "Waiting for weather data before fetching photo..."
            (emit (EvEnter (FnFetchUnsplashPhoto true))
               (console "Manually refreshing photo..." (emit (EvEnter FnRefreshPhoto) w)))))
      (Normal JUndefined) [].
Proof.
  intros Hweather Hlocation.
  destruct (refresh_waits_for_weather env true
              (console "Manually refreshing photo..." (emit (EvEnter FnRefreshPhoto) w))
              Hweather) as (_ & _ & _ & _ & Hrefresh).
  unfold refreshPhoto. rewrite !run_Upd. cbn [run bind].
  assert (Hl : truthy (userLocation
                 (console "Manually refreshing photo..." (emit (EvEnter FnRefreshPhoto) w)))
               = false) by exact Hlocation.
  rewrite Hl, andb_false_r. cbn [bind]. rewrite run_bind, Hrefresh. reflexivity.
Qed.

End RefreshPaths.

(** ** Start-up and settings reload *)

Section StartUpEdge.
Context `{JSHost}.

(** What [loadSettings] leaves in the trace: the one backend call and
    console lines. *)
Lemma loadSettings_trace env w :
  localStorage (final (run env loadSettings w)) = localStorage w
  /\ calls (trace (final (run env loadSettings w))) = calls (trace w) ++ [get_settings]
  /\ timers (trace (final (run env loadSettings w))) = timers (trace w)
  /\ ticks (trace (final (run env loadSettings w))) = ticks (trace w)
  /\ presents (trace (final (run env loadSettings w))) = presents (trace w).
Proof.
  unfold loadSettings. cbn [try_catch await bind run].
  destruct (env (request get_settings w) get_settings) as [[settings|e] dt];
    cbn [try_catch bind run].
  - unfold applyDisplaySettings, member.
    cbn [userSettings console emit set_trace set_userSettings pass set_clock request].
    destruct (truthy settings); cbn [negb lift try_catch run final].
    + destruct (nullish (get_field settings "display")); cbn [lift try_catch run final];
        calls_simpl; done.
    + calls_simpl. done.
  - calls_simpl. done.
Qed.

(** X20.  A persisted entry that parses but has no [photo] stops the
    start-up.  [init] loads the settings, reads the entry and calls
    [displayPhoto(cached.photo, ...)], which throws; [init] has no [try]
    around it, so its promise is rejected before the clock, the location
    lookup and the scheduler are started: the settings call is the only
    call, no timer is registered and no tick happens. *)
Theorem init_stops_on_entry_without_photo env w cached :
  getCachedPhoto w = Normal cached -> truthy cached = true ->
  nullish (get_field cached "photo") = true ->
  outcome (run env init w) = Abrupt (TypeError "url")
  /\ calls (trace (final (run env init w))) = calls (trace w) ++ [get_settings]
  /\ timers (trace (final (run env init w))) = timers (trace w)
  /\ ticks (trace (final (run env init w))) = ticks (trace w)
  /\ presents (trace (final (run env init w))) = presents (trace w).
Proof.
  intros Hcached Htruthy Hphoto.
  unfold init. rewrite run_bind.
  rewrite (Ends_returns_undefined env loadSettings w loadSettings_returns).
  destruct (loadSettings_trace env w) as (Hls & Hcalls & Htimers & Hticks & Hpresents).
  set (w1 := final (run env loadSettings w)) in *.
  assert (Hc1 : getCachedPhoto w1 = Normal cached).
  { rewrite <- Hcached. by apply getCachedPhoto_ext. }
  clearbody w1. cbn [final outcome forked].
  rewrite run_bind. cbn [run]. rewrite Hc1. cbn [lift bind]. rewrite Htruthy, run_Upd.
  rewrite (displayPhoto_nullish env _ _ Hphoto). cbn [final outcome].
  split; [reflexivity|]. cbn [trace console emit set_trace].
  rewrite calls_snoc, timers_snoc, ticks_snoc, presents_snoc.
  cbn [call_of timer_of tick_of present_of]. rewrite !app_nil_r. done.
Qed.

(** X21.  A settings reload forces nothing.  Whatever the backend answers,
    [reloadSettings] starts no scheduler tick and no prefetch, and every
    refresh it starts (through [updateWeather]) is one that is not forced,
    so that a valid entry is reused. *)
Theorem reloadSettings_forces_nothing env w :
  ticks (trace (final (run env reloadSettings w))) = ticks (trace w)
  /\ prefetches (trace (final (run env reloadSettings w))) = prefetches (trace w)
  /\ exists n, refreshes (trace (final (run env reloadSettings w)))
               = refreshes (trace w) ++ repeat false n.
Proof.
  set (J := fun w' : World =>
         ticks (trace w') = ticks (trace w) /\ prefetches (trace w') = prefetches (trace w)
         /\ exists n, refreshes (trace w') = refreshes (trace w) ++ repeat false n).
  change (J (final (run env reloadSettings w))).
  apply Keeps_run.
  - intros dt w' Hw'. exact Hw'.
  - keeps ltac:(intros ? (Ht & Hp & n & Hr); unfold J, cachePhoto; trace_simpl;
                rewrite ?Ht, ?Hp, ?Hr; repeat split; try done;
                first [ by exists n
                      | exists (S n); rewrite <- app_assoc; f_equal;
                        change [false] with (repeat false 1);
                        rewrite <- repeat_app; f_equal; lia ]).
  - unfold J. repeat split. exists 0%nat. by rewrite app_nil_r.
Qed.

End StartUpEdge.

Section ExpiredTick.
Context `{JSHost}.



End ExpiredTick.

(** ** The properties above on the example states *)

Section FurtherExamples.
#[local] Existing Instance Demo.host.

Lemma env_with_sleep validity fetch : sleep_resolves (Example.env_with validity fetch).
Proof. intros w ms. by exists JUndefined. Qed.

Lemma location_down_sleep : sleep_resolves Edge.location_down.
Proof. intros w ms. by exists JUndefined. Qed.

Lemma weather_down_sleep : sleep_resolves Edge.weather_down.
Proof. intros w ms. by exists JUndefined. Qed.

Lemma retryWithBackoff_exhausted_witness :
  outcome (run Edge.location_down (retry_from (await get_location) 2000 5 5 JUndefined)
               (Example.at_start 0))
  = Abrupt (JStr "offline")
  /\ calls (trace (final (run Edge.location_down
                            (retry_from (await get_location) 2000 5 5 JUndefined)
                            (Example.at_start 0))))
     = calls (trace (Example.at_start 0)) ++ failed_attempts [get_location] 2000 0 5.
Proof.
  apply (retryWithBackoff_exhausted Edge.location_down (await get_location)
           (JStr "offline") [get_location] 2000 5 (Example.at_start 0)).
  - exact location_down_sleep.
  - apply location_down_fails. intros w. reflexivity.
Defined.

Lemma retryWithBackoff_first_success_witness :
  run (Example.env_with Example.valid (Resolved Example.photoB))
      (retryWithBackoff (await get_location)) (Example.at_start 0)
  = run (Example.env_with Example.valid (Resolved Example.photoB))
        (await get_location) (Example.at_start 0).
Proof.
  apply (retryWithBackoff_first_success
           (Example.env_with Example.valid (Resolved Example.photoB))
           (await get_location) Example.location (Example.at_start 0)).
  reflexivity.
Defined.

Lemma fetchLocation_backend_down_witness :
  outcome (run Edge.location_down fetchLocation (Example.at_start 0)) = Normal JUndefined
  /\ timers (trace (final (run Edge.location_down fetchLocation (Example.at_start 0))))
     = [("fetchLocation", 30000)]
  /\ userLocation (final (run Edge.location_down fetchLocation (Example.at_start 0)))
     = JUndefined.
Proof.
  destruct (fetchLocation_backend_down Edge.location_down (JStr "offline")
              (Example.at_start 0)) as (Hout & _ & Htimers & Hvars & _).
  - exact location_down_sleep.
  - intros w. reflexivity.
  - split; [exact Hout|]. split; [exact Htimers|].
    exact (f_equal (fun v => v.1.2) Hvars).
Defined.

Lemma updateWeather_backend_down_witness :
  outcome (run Edge.weather_down (updateWeather Example.location) (Example.at_start 0))
  = Normal JUndefined
  /\ calls (trace (final (run Edge.weather_down (updateWeather Example.location)
                            (Example.at_start 0))))
     = [get_weather (JNum 46) (JNum 23); sleep 2000; get_weather (JNum 46) (JNum 23);
        sleep 4000; get_weather (JNum 46) (JNum 23); sleep 8000;
        get_weather (JNum 46) (JNum 23); sleep 16000; get_weather (JNum 46) (JNum 23);
        sleep 32000]
  /\ refreshes (trace (final (run Edge.weather_down (updateWeather Example.location)
                                 (Example.at_start 0))))
     = [].
Proof.
  destruct (updateWeather_backend_down Edge.weather_down Example.location (JStr "offline")
              (Example.at_start 0)) as (Hout & Hcalls & _ & _ & Hrefreshes).
  - exact weather_down_sleep.
  - intros w latitude longitude. reflexivity.
  - split; [exact Hout|]. split; [exact Hcalls | exact Hrefreshes].
Defined.

Lemma updateWeather_records_weather_witness :
  currentWeather (final (run (Example.env_with Example.valid (Resolved Example.photoB))
                             (updateWeather Example.location) (Example.at_start 0)))
  = Example.weather
  /\ refreshes (trace (final (run (Example.env_with Example.valid (Resolved Example.photoB))
                                  (updateWeather Example.location) (Example.at_start 0))))
     = [false].
Proof.
  destruct (updateWeather_records_weather
              (Example.env_with Example.valid (Resolved Example.photoB))
              Example.location Example.weather (Example.at_start 0))
    as (_ & Hweather & Hrefreshes & _).
  - intros w latitude longitude. reflexivity.
  - reflexivity.
  - reflexivity.
  - split; [exact Hweather | exact Hrefreshes].
Defined.

Lemma fetchUnsplashPhoto_rejects_witness :
  outcome (run (Example.env_with Example.expired Example.provider_down)
               (fetchUnsplashPhoto true) (Edge.broken 5000))
  = Abrupt (TypeError "url")
  /\ lastPhotoFetchError (final (run (Example.env_with Example.expired Example.provider_down)
                                     (fetchUnsplashPhoto true) (Edge.broken 5000)))
     = error_text (JStr "rate limit exceeded").
Proof.
  destruct (fetchUnsplashPhoto_rejects
              (Example.env_with Example.expired Example.provider_down) true
              (JStr "rate limit exceeded") (Edge.broken 5000) Edge.entry_without_photo)
    as (Hout & Herr & _).
  - intros w width height query. reflexivity.
  - vm_compute. discriminate.
  - vm_compute. reflexivity.
  - reflexivity.
  - reflexivity.
  - split; [exact Hout | exact Herr].
Defined.

Lemma refreshPhoto_rejects_witness :
  outcome (run (Example.env_with Example.expired Example.provider_down)
               refreshPhoto (Edge.broken 5000))
  = Abrupt (TypeError "url").
Proof.
  destruct (refreshPhoto_rejects
              (Example.env_with Example.expired Example.provider_down)
              (JStr "rate limit exceeded") (Edge.broken 5000) Edge.entry_without_photo
              (JObj [("query", JStr "sunny")]))
    as (Hout & _).
  - reflexivity.
  - intros w queryParams. reflexivity.
  - reflexivity.
  - intros w width height query. reflexivity.
  - vm_compute. reflexivity.
  - reflexivity.
  - reflexivity.
  - exact Hout.
Defined.

Lemma checkPhotoContext_without_cache_witness :
  run (Example.env_with Example.expired (Resolved Example.photoB)) checkPhotoContext
      (Example.empty 5000)
  = mkResult (emit (EvEnter FnCheckPhotoContext) (Example.empty 5000)) (Normal JUndefined) [].
Proof.
  apply (checkPhotoContext_without_cache
           (Example.env_with Example.expired (Resolved Example.photoB))
           (Example.empty 5000) JNull).
  - vm_compute. reflexivity.
  - reflexivity.
Defined.

Lemma checkPhotoContext_valid_witness :
  variables (final (run (Example.env_with Example.valid (Resolved Example.photoB))
                        checkPhotoContext (Example.running (10 * Example.minute))))
  = variables (Example.running (10 * Example.minute))
  /\ calls (trace (final (run (Example.env_with Example.valid (Resolved Example.photoB))
                              checkPhotoContext (Example.running (10 * Example.minute)))))
     = [is_cache_valid (JNum 0)].
Proof.
  destruct (checkPhotoContext_valid
              (Example.env_with Example.valid (Resolved Example.photoB))
              (Example.running (10 * Example.minute))
              (cache_entry Example.photoA (JStr "calm") 0) (JBool true)) as [_ Hquiet].
  - vm_compute. reflexivity.
  - reflexivity.
  - intros w cacheTimestamp. reflexivity.
  - reflexivity.
  - apply Hquiet. vm_compute. reflexivity.
Defined.

Lemma prefetch_window_met_once_witness :
  prefetch_due (cache_entry Example.photoA (JStr "calm") 0)
               (Example.running (34 * Example.minute + 30000)) = false
  /\ prefetch_due (cache_entry Example.photoA (JStr "calm") 0)
                  (Example.running (27 * Example.minute)) = false
  /\ prefetch_due (cache_entry Example.photoA (JStr "calm") 0)
                  (Example.running (32 * Example.minute)) = false.
Proof.
  destruct (prefetch_window_met_once (cache_entry Example.photoA (JStr "calm") 0)
              (Example.running (29 * Example.minute + 30000))
              (Example.running (34 * Example.minute + 30000)) 0 (30 * 60000))
    as [Honce _]; [reflexivity | reflexivity | reflexivity | vm_compute; discriminate |].
  destruct (prefetch_window_met_once (cache_entry Example.photoA (JStr "calm") 0)
              (Example.running (27 * Example.minute))
              (Example.running (32 * Example.minute)) 0 (30 * 60000))
    as [_ Hnever]; [reflexivity | reflexivity | reflexivity | vm_compute; discriminate |].
  split; [apply Honce; reflexivity | apply Hnever; vm_compute; split; [discriminate|reflexivity]].
Defined.


Lemma refresh_reuses_valid_entry_witness :
  presents (trace (final (run (Example.env_with Example.valid (Resolved Example.photoB))
                              (fetchUnsplashPhoto false) (Example.running (10 * Example.minute)))))
  = [Example.photoA]
  /\ localStorage (final (run (Example.env_with Example.valid (Resolved Example.photoB))
                              (fetchUnsplashPhoto false) (Example.running (10 * Example.minute))))
     = Example.stored.
Proof.
  destruct (refresh_reuses_valid_entry
              (Example.env_with Example.valid (Resolved Example.photoB))
              (Example.running (10 * Example.minute))
              (cache_entry Example.photoA (JStr "calm") 0) (JBool true))
    as (_ & _ & _ & Hpresents & _ & _ & _ & Hstore & _).
  - vm_compute. reflexivity.
  - reflexivity.
  - reflexivity.
  - intros w cacheTimestamp. reflexivity.
  - reflexivity.
  - split; [exact Hpresents | exact Hstore].
Defined.

Lemma refresh_waits_for_weather_witness :
  fetches (trace (final (run (Example.env_with Example.expired (Resolved Example.photoB))
                             (fetchUnsplashPhoto false) (Edge.waiting 5000))))
  = []
  /\ localStorage (final (run (Example.env_with Example.expired (Resolved Example.photoB))
                              (fetchUnsplashPhoto false) (Edge.waiting 5000)))
     = Example.stored.
Proof.
  destruct (refresh_waits_for_weather
              (Example.env_with Example.expired (Resolved Example.photoB)) false
              (Edge.waiting 5000)) as (Hfetches & _ & Hstore & _).
  - reflexivity.
  - split; [exact Hfetches | exact Hstore].
Defined.

Lemma refreshPhoto_without_weather_witness :
  outcome (run (Example.env_with Example.expired (Resolved Example.photoB))
               refreshPhoto (Edge.waiting 5000))
  = Normal JUndefined
  /\ last (trace (final (run (Example.env_with Example.expired (Resolved Example.photoB))
                             refreshPhoto (Edge.waiting 5000))))
     = Some (EvConsole "Photo refreshed!").
Proof.
  rewrite (refreshPhoto_without_weather
             (Example.env_with Example.expired (Resolved Example.photoB))
             (Edge.waiting 5000)); [|reflexivity|reflexivity].
  split; reflexivity.
Defined.

Lemma init_stops_on_entry_without_photo_witness :
  outcome (run (Example.env_with Example.valid (Resolved Example.photoB)) init
               (Edge.broken_at_start 5000))
  = Abrupt (TypeError "url")
  /\ timers (trace (final (run (Example.env_with Example.valid (Resolved Example.photoB)) init
                               (Edge.broken_at_start 5000))))
     = [].
Proof.
  destruct (init_stops_on_entry_without_photo
              (Example.env_with Example.valid (Resolved Example.photoB))
              (Edge.broken_at_start 5000) Edge.entry_without_photo)
    as (Hout & _ & Htimers & _).
  - vm_compute. reflexivity.
  - reflexivity.
  - reflexivity.
  - split; [exact Hout | exact Htimers].
Defined.


End FurtherExamples.
